(** * tdl session client: a shallow embedding of [packages/tdl/src/client.js]

    The development has two parts.  The first embeds the data model and the
    methods of the [Client] class together with its helper class
    [TdlDeferred]; the second states and proves properties of them.

    Modelling conventions.
    - JavaScript values are terms of [JValue]; objects are association
      lists that keep insertion order, as object literals and spreads do.
    - A method is a function in the monad [M]: it threads the instance
      state ([Client]) and may end with a thrown value ([Throw]).  An
      [async] method is modelled run to completion: [await] on a callback
      collaborator is a call whose result is given by the collaborator
      record, a rejected promise being a [Throw].
    - Everything the instance does to the outside (engine calls, events
      published on the emitter, calls of promise resolving functions,
      calls of login callbacks) is appended to the [trace] field, oldest
      first.
    - Modules imported by [client.js] that are not part of the embedded
      file ([./util], [./version], [path]) are taken as the interface
      [Imports]. *)

From Stdlib Require Import String List ZArith Bool Lia.
From stdpp Require Import base option list gmap strings.

Import ListNotations.
Local Open Scope string_scope.
Local Open Scope list_scope.
Set Warnings "-register-all".

(** ** JavaScript values *)

Inductive JValue : Type :=
| JUndefined
| JNull
| JBool (b : bool)
| JNum (n : Z)
| JStr (s : string)
| JObj (fields : list (string * JValue)).

(** [!!v] coerced to a boolean. *)
Definition truthy (v : JValue) : bool :=
  match v with
  | JUndefined | JNull => false
  | JBool b => b
  | JNum n => negb (n =? 0)%Z
  | JStr s => negb (s =? "")
  | JObj _ => true
  end.

(** [v == null]. *)
Definition nullish (v : JValue) : bool :=
  match v with
  | JUndefined | JNull => true
  | _ => false
  end.

(** [v === 'lit'] for a string literal. *)
Definition str_eq (v : JValue) (lit : string) : bool :=
  match v with
  | JStr s => s =? lit
  | _ => false
  end.

Fixpoint obj_lookup (k : string) (fields : list (string * JValue)) : JValue :=
  match fields with
  | [] => JUndefined
  | (k', v) :: rest => if k' =? k then v else obj_lookup k rest
  end.

(** [o[k] = v] on the field list: an existing key keeps its position. *)
Fixpoint obj_set (k : string) (v : JValue) (fields : list (string * JValue))
  : list (string * JValue) :=
  match fields with
  | [] => [(k, v)]
  | (k', v') :: rest =>
      if k' =? k then (k, v) :: rest else (k', v') :: obj_set k v rest
  end.

(** [delete o[k]] on the field list. *)
Fixpoint obj_delete (k : string) (fields : list (string * JValue))
  : list (string * JValue) :=
  match fields with
  | [] => []
  | (k', v') :: rest =>
      if k' =? k then obj_delete k rest else (k', v') :: obj_delete k rest
  end.

(** [{ ...fields, ...v }]: spreading a nullish or primitive value adds
    nothing (string spreading is not used by the client). *)
Definition obj_spread (fields : list (string * JValue)) (v : JValue)
  : list (string * JValue) :=
  match v with
  | JObj extra => fold_left (fun acc kv => obj_set (fst kv) (snd kv) acc) extra fields
  | _ => fields
  end.

(** Property read [v.k] on a value known not to be nullish. *)
Definition get (v : JValue) (k : string) : JValue :=
  match v with
  | JObj fields => obj_lookup k fields
  | _ => JUndefined
  end.

(** [v?.k]. *)
Definition opt_chain (v : JValue) (k : string) : JValue :=
  if nullish v then JUndefined else get v k.

(** [delete v[k]]. *)
Definition delete_key (v : JValue) (k : string) : JValue :=
  match v with
  | JObj fields => JObj (obj_delete k fields)
  | _ => v
  end.

(** ** Thrown values and results *)

Inductive Thrown : Type :=
| ThrownValue (v : JValue)                      (* a [Td$error] object or any other value *)
| JsError (msg : string)                        (* [Error(msg)] *)
| JsTypeError (msg : string)                    (* [TypeError(msg)] *)
| TdlError (err : Thrown) (msg : option string) (* [new TdlError(err, msg)] *).

Inductive Res (A : Type) : Type :=
| Ok (a : A)
| Throw (e : Thrown).
Arguments Ok {A} a.
Arguments Throw {A} e.

(** Property read [v.k] where [v] may be nullish. *)
Definition prop (v : JValue) (k : string) : Res JValue :=
  if nullish v
  then Throw (JsTypeError "Cannot read properties of undefined")
  else Ok (get v k).

(** ** TdlDeferred *)

(** How a promise is settled by one call of its resolving functions. *)
Inductive Outcome : Type :=
| Resolved (result : JValue)
| Rejected (error : Thrown).

Module TdlDeferred.

(** A [DeferredPromise] is the [{ resolve, reject }] pair of one promise;
    it is identified by the serial number of that promise. *)
Definition DeferredPromise : Type := nat.

Record t : Type := mk {
  _innerDefer : option DeferredPromise;
  _done : bool
}.

(** One call of [defer.resolve(result)] or [defer.reject(error)]. *)
Definition Call : Type := (DeferredPromise * Outcome)%type.

Definition new : t := mk None false.

Definition isPending (d : t) : bool := negb (_done d).

Definition isDone (d : t) : bool := _done d.

Definition isDeferSet (d : t) : bool :=
  match _innerDefer d with Some _ => true | None => false end.

Definition setDefer (defer : DeferredPromise) (d : t) : t :=
  mk (Some defer) (_done d).

Definition resolve (result : JValue) (d : t) : t * list Call :=
  if _done d || negb (isDeferSet d) then (d, [])
  else
    match _innerDefer d with
    | Some defer => (mk (_innerDefer d) true, [(defer, Resolved result)])
    | None => (d, [])
    end.

Definition reject (error : Thrown) (d : t) : t * list Call :=
  if _done d || negb (isDeferSet d) then (d, [])
  else
    match _innerDefer d with
    | Some defer => (mk (_innerDefer d) true, [(defer, Rejected error)])
    | None => (d, [])
    end.

(** A method call on a gate, for sequences of calls. *)
Inductive Op : Type :=
| OpResolve (result : JValue)
| OpReject (error : Thrown)
| OpSetDefer (defer : DeferredPromise).

Definition outcome_of (o : Op) : option Outcome :=
  match o with
  | OpResolve r => Some (Resolved r)
  | OpReject e => Some (Rejected e)
  | OpSetDefer _ => None
  end.

Definition step (o : Op) (d : t) : t * list Call :=
  match o with
  | OpResolve r => resolve r d
  | OpReject e => reject e d
  | OpSetDefer defer => (setDefer defer d, [])
  end.

(** Runs the calls in order; the second component lists the calls made
    on resolving functions, oldest first. *)
Fixpoint run (ops : list Op) (d : t) : t * list Call :=
  match ops with
  | [] => (d, [])
  | o :: rest =>
      let '(d1, c1) := step o d in
      let '(d2, c2) := run rest d1 in
      (d2, c1 ++ c2)
  end.

End TdlDeferred.

(** ** Collaborators *)

(** An engine client handle ([TDLibClient]). *)
Definition TDLibClient : Type := nat.

(** The engine ([ITDLibJSON]).  [execute] and [create] can raise; the
    results of [receive] are supplied to the receive loop from outside,
    and [send] and [destroy] only leave a trace. *)
Record ITDLibJSON : Type := {
  tdlib_execute : option TDLibClient -> JValue -> Res JValue;
  tdlib_create : Res TDLibClient
}.

(** The callbacks of a user login ([LoginUser]); a result [Throw] stands
    for a callback that throws or whose promise is rejected. *)
Record LoginUser : Type := {
  getPhoneNumber : bool -> Res JValue;
  getEmailAddress : Res JValue;
  getEmailCode : Res JValue;
  confirmOnAnotherDevice : JValue -> Res unit;
  getAuthCode : bool -> Res JValue;
  getPassword : JValue -> bool -> Res JValue;
  getName : Res JValue
}.

(** The callback of a bot login ([LoginBot]). *)
Record LoginBot : Type := {
  getToken : bool -> Res JValue
}.

(** [StrictLoginDetails], discriminated by its [type] field.  The value
    is what [mergeDeepRight(defaultLoginDetails, getLoginDetails())]
    yields. *)
Inductive StrictLoginDetails : Type :=
| TypeUser (loginDetails : LoginUser)
| TypeBot (loginDetails : LoginBot).

(** A call of a login callback, with its arguments. *)
Inductive Callback : Type :=
| CallGetPhoneNumber (retry : bool)
| CallGetEmailAddress
| CallGetEmailCode
| CallConfirmOnAnotherDevice (link : JValue)
| CallGetAuthCode (retry : bool)
| CallGetPassword (passwordHint : JValue) (retry : bool)
| CallGetName
| CallGetToken (retry : bool).

(** Modelled from the spec: the [Version] class of [./version], which is
    not part of the embedded file.  An engine version is a triple of
    numbers and [gte] compares two versions component by component, the
    first component being the most significant. *)
Record Version : Type := {
  major : N;
  minor : N;
  patch : N
}.

Definition Version_gte (a b : Version) : bool :=
  if (major a =? major b)%N
  then if (minor a =? minor b)%N
       then (patch b <=? patch a)%N
       else (minor b <? minor a)%N
  else (major b <? major a)%N.

(** The functions [client.js] imports from [./util], [path] and
    [./version]. *)
Class Imports : Type := {
  mergeDeepRight : JValue -> JValue -> JValue;
  deepRenameKey : string -> string -> JValue -> JValue;
  deepRenameKey_ : string -> string -> JValue -> JValue;
  resolvePath : JValue -> Res JValue;
  Version_new : JValue -> Res Version
}.

(** ** Events, promises and the trace *)

(** The events of the emitter: the six public ones, and the two internal
    signals ['_login'] and ['_resume']. *)
Inductive Event : Type :=
| EvUpdate (update : JValue)
| EvError (err : Thrown)
| EvDestroy
| EvAuthNeeded
| EvAuthNotNeeded
| EvResponse (res : JValue)
| EvLogin
| EvResume.

(** A promise, by the method that created it and its serial number. *)
Inductive Promise : Type :=
| ConnectPromise (n : nat)
| LoginPromise (n : nat)
| InvokePromise (n : nat)
| ClosePromise (n : nat).

Inductive Effect : Type :=
| TdlibExecute (client : option TDLibClient) (request : JValue)
| TdlibCreate
| TdlibSend (client : TDLibClient) (request : JValue)
| TdlibReceive (client : TDLibClient) (timeout : JValue)
| TdlibDestroy (client : TDLibClient)
| Emit (event : Event)
| Settle (promise : Promise) (outcome : Outcome)
| Called (callback : Callback)
| LoopStarted.

(** ** Constants *)

Definition defaultOptions : JValue :=
  JObj [
    ("databaseDirectory", JStr "_td_database");
    ("filesDirectory", JStr "_td_files");
    ("databaseEncryptionKey", JStr "");
    ("verbosityLevel", JNum 2);
    ("receiveTimeout", JNum 10);
    ("skipOldUpdates", JBool false);
    ("useTestDc", JBool false);
    ("useMutableRename", JBool false);
    ("useDefaultVerbosityLevel", JBool false);
    ("disableAuth", JBool false);
    ("tdlibParameters", JObj [
      ("use_message_database", JBool true);
      ("use_secret_chats", JBool false);
      ("system_language_code", JStr "en");
      ("application_version", JStr "1.0");
      ("device_model", JStr "Unknown device");
      ("system_version", JStr "Unknown");
      ("enable_storage_optimizer", JBool true)
    ])
  ].

Definition TDLIB_1_8_6 : Version := {| major := 1; minor := 8; patch := 6 |}.
Definition TDLIB_DEFAULT : Version := {| major := 1; minor := 8; patch := 0 |}.

Definition TDL_MAGIC : string := "6c47e6b71ea".

(** ** The state of a [Client] instance *)

Record Client : Type := mkClient {
  _options : JValue;
  _fetching : gmap string nat;   (* [Map<string, PendingPromise>], by promise number *)
  _tdlib : ITDLibJSON;
  _client : option TDLibClient;
  _initialized : bool;
  _paused : bool;
  _connectionState : JValue;
  _connectDefer : TdlDeferred.t;
  _authNeeded : bool;
  _loginDetails : option StrictLoginDetails;
  _loginDefer : TdlDeferred.t;
  _version : Version;
  (* listeners the client itself registers on [_emitter] *)
  once_auth_needed : list (Res StrictLoginDetails); (* set by [login]: the login details each yields *)
  once_login : list JValue;      (* set by [_waitLogin]: the authorization state each suspended [_handleAuth] holds *)
  once_destroy : list nat;       (* set by [close]: the close promises to resolve *)
  (* the surroundings *)
  promises : nat;                (* number of promises created so far *)
  trace : list Effect
}.

Definition set_fetching (v : gmap string nat) (s : Client) : Client :=
  mkClient (_options s) v (_tdlib s) (_client s) (_initialized s) (_paused s)
    (_connectionState s) (_connectDefer s) (_authNeeded s) (_loginDetails s)
    (_loginDefer s) (_version s) (once_auth_needed s) (once_login s)
    (once_destroy s) (promises s) (trace s).

Definition set_client (v : option TDLibClient) (s : Client) : Client :=
  mkClient (_options s) (_fetching s) (_tdlib s) v (_initialized s) (_paused s)
    (_connectionState s) (_connectDefer s) (_authNeeded s) (_loginDetails s)
    (_loginDefer s) (_version s) (once_auth_needed s) (once_login s)
    (once_destroy s) (promises s) (trace s).

Definition set_initialized (v : bool) (s : Client) : Client :=
  mkClient (_options s) (_fetching s) (_tdlib s) (_client s) v (_paused s)
    (_connectionState s) (_connectDefer s) (_authNeeded s) (_loginDetails s)
    (_loginDefer s) (_version s) (once_auth_needed s) (once_login s)
    (once_destroy s) (promises s) (trace s).

Definition set_paused (v : bool) (s : Client) : Client :=
  mkClient (_options s) (_fetching s) (_tdlib s) (_client s) (_initialized s) v
    (_connectionState s) (_connectDefer s) (_authNeeded s) (_loginDetails s)
    (_loginDefer s) (_version s) (once_auth_needed s) (once_login s)
    (once_destroy s) (promises s) (trace s).

Definition set_connectionState (v : JValue) (s : Client) : Client :=
  mkClient (_options s) (_fetching s) (_tdlib s) (_client s) (_initialized s)
    (_paused s) v (_connectDefer s) (_authNeeded s) (_loginDetails s)
    (_loginDefer s) (_version s) (once_auth_needed s) (once_login s)
    (once_destroy s) (promises s) (trace s).

Definition set_connectDefer (v : TdlDeferred.t) (s : Client) : Client :=
  mkClient (_options s) (_fetching s) (_tdlib s) (_client s) (_initialized s)
    (_paused s) (_connectionState s) v (_authNeeded s) (_loginDetails s)
    (_loginDefer s) (_version s) (once_auth_needed s) (once_login s)
    (once_destroy s) (promises s) (trace s).

Definition set_authNeeded (v : bool) (s : Client) : Client :=
  mkClient (_options s) (_fetching s) (_tdlib s) (_client s) (_initialized s)
    (_paused s) (_connectionState s) (_connectDefer s) v (_loginDetails s)
    (_loginDefer s) (_version s) (once_auth_needed s) (once_login s)
    (once_destroy s) (promises s) (trace s).

Definition set_loginDetails (v : option StrictLoginDetails) (s : Client) : Client :=
  mkClient (_options s) (_fetching s) (_tdlib s) (_client s) (_initialized s)
    (_paused s) (_connectionState s) (_connectDefer s) (_authNeeded s) v
    (_loginDefer s) (_version s) (once_auth_needed s) (once_login s)
    (once_destroy s) (promises s) (trace s).

Definition set_loginDefer (v : TdlDeferred.t) (s : Client) : Client :=
  mkClient (_options s) (_fetching s) (_tdlib s) (_client s) (_initialized s)
    (_paused s) (_connectionState s) (_connectDefer s) (_authNeeded s)
    (_loginDetails s) v (_version s) (once_auth_needed s) (once_login s)
    (once_destroy s) (promises s) (trace s).

Definition set_version (v : Version) (s : Client) : Client :=
  mkClient (_options s) (_fetching s) (_tdlib s) (_client s) (_initialized s)
    (_paused s) (_connectionState s) (_connectDefer s) (_authNeeded s)
    (_loginDetails s) (_loginDefer s) v (once_auth_needed s) (once_login s)
    (once_destroy s) (promises s) (trace s).

Definition set_once_auth_needed (v : list (Res StrictLoginDetails)) (s : Client) : Client :=
  mkClient (_options s) (_fetching s) (_tdlib s) (_client s) (_initialized s)
    (_paused s) (_connectionState s) (_connectDefer s) (_authNeeded s)
    (_loginDetails s) (_loginDefer s) (_version s) v (once_login s)
    (once_destroy s) (promises s) (trace s).

Definition set_once_login (v : list JValue) (s : Client) : Client :=
  mkClient (_options s) (_fetching s) (_tdlib s) (_client s) (_initialized s)
    (_paused s) (_connectionState s) (_connectDefer s) (_authNeeded s)
    (_loginDetails s) (_loginDefer s) (_version s) (once_auth_needed s) v
    (once_destroy s) (promises s) (trace s).

Definition set_once_destroy (v : list nat) (s : Client) : Client :=
  mkClient (_options s) (_fetching s) (_tdlib s) (_client s) (_initialized s)
    (_paused s) (_connectionState s) (_connectDefer s) (_authNeeded s)
    (_loginDetails s) (_loginDefer s) (_version s) (once_auth_needed s)
    (once_login s) v (promises s) (trace s).

Definition set_promises (v : nat) (s : Client) : Client :=
  mkClient (_options s) (_fetching s) (_tdlib s) (_client s) (_initialized s)
    (_paused s) (_connectionState s) (_connectDefer s) (_authNeeded s)
    (_loginDetails s) (_loginDefer s) (_version s) (once_auth_needed s)
    (once_login s) (once_destroy s) v (trace s).

Definition set_trace (v : list Effect) (s : Client) : Client :=
  mkClient (_options s) (_fetching s) (_tdlib s) (_client s) (_initialized s)
    (_paused s) (_connectionState s) (_connectDefer s) (_authNeeded s)
    (_loginDetails s) (_loginDefer s) (_version s) (once_auth_needed s)
    (once_login s) (once_destroy s) (promises s) v.

(** ** The method monad *)

Definition M (A : Type) : Type := Client -> Res A * Client.

Definition ret {A : Type} (a : A) : M A := fun s => (Ok a, s).

Definition throw {A : Type} (e : Thrown) : M A := fun s => (Throw e, s).

Definition bind {A B : Type} (m : M A) (k : A -> M B) : M B :=
  fun s =>
    match m s with
    | (Ok a, s1) => k a s1
    | (Throw e, s1) => (Throw e, s1)
    end.

(** [try { m } catch (e) { handler(e) }]. *)
Definition try_catch {A : Type} (m : M A) (handler : Thrown -> M A) : M A :=
  fun s =>
    match m s with
    | (Ok a, s1) => (Ok a, s1)
    | (Throw e, s1) => handler e s1
    end.

Definition lift {A : Type} (r : Res A) : M A := fun s => (r, s).

Definition gets {A : Type} (f : Client -> A) : M A := fun s => (Ok (f s), s).

Definition modify (f : Client -> Client) : M unit := fun s => (Ok tt, f s).

Definition when (b : bool) (m : M unit) : M unit := if b then m else ret tt.

Definition log (e : Effect) : M unit :=
  modify (fun s => set_trace (trace s ++ [e]) s).

(** [new Promise(...)]: the serial number of the promise created. *)
Definition new_promise : M nat :=
  fun s => (Ok (promises s), set_promises (S (promises s)) s).

Declare Scope method_scope.
Delimit Scope method_scope with M.
Notation "'let*' x ':=' m 'in' k" := (bind m (fun x => k))
  (at level 10, x name, m at level 100, k at level 200) : method_scope.
Notation "m ';;;' k" := (bind m (fun _ => k))
  (at level 100, k at level 200, right associativity) : method_scope.
Local Open Scope method_scope.

(** ** Methods of [Client] *)

Section ClientMethods.

Context {imports : Imports}.

(** [constructor (tdlibInstance, options = {})].  No handle of the
    engine is touched: the instance only stores [tdlibInstance]. *)
Definition Client_new (tdlibInstance : ITDLibJSON) (options : JValue) : Res Client :=
  let options := match options with JUndefined => JObj [] | _ => options end in
  let merged := mergeDeepRight defaultOptions options in
  if nullish options   (* [options.apiId] on [null] *)
  then Throw (JsTypeError "Cannot read properties of null")
  else
  if negb (truthy (get options "apiId"))
     && negb (truthy (opt_chain (get options "tdlibParameters") "api_id"))
  then Throw (JsTypeError "Valid api_id must be provided.")
  else
    if negb (truthy (get options "apiHash"))
       && negb (truthy (opt_chain (get options "tdlibParameters") "api_hash"))
    then Throw (JsTypeError "Valid api_hash must be provided.")
    else
      Ok {| _options := merged;
            _fetching := ∅;
            _tdlib := tdlibInstance;
            _client := None;
            _initialized := false;
            _paused := false;
            _connectionState := JObj [("_", JStr "connectionStateConnecting")];
            _connectDefer := TdlDeferred.new;
            _authNeeded := false;
            _loginDetails := None;
            _loginDefer := TdlDeferred.new;
            _version := TDLIB_DEFAULT;
            once_auth_needed := [];
            once_login := [];
            once_destroy := [];
            promises := 0;
            trace := [] |}.

(** The calls a gate makes on resolving functions, as effects on the
    promise returned by [connect] or by [login]. *)
Definition settled (mk : nat -> Promise) (calls : list TdlDeferred.Call) : list Effect :=
  map (fun c => Settle (mk (fst c)) (snd c)) calls.

(** [this._connectDefer.resolve()]. *)
Definition connectDefer_resolve : M unit :=
  fun s =>
    let '(d, calls) := TdlDeferred.resolve JUndefined (_connectDefer s) in
    (Ok tt, set_trace (trace s ++ settled ConnectPromise calls) (set_connectDefer d s)).

(** [this._connectDefer.reject(err)]. *)
Definition connectDefer_reject (err : Thrown) : M unit :=
  fun s =>
    let '(d, calls) := TdlDeferred.reject err (_connectDefer s) in
    (Ok tt, set_trace (trace s ++ settled ConnectPromise calls) (set_connectDefer d s)).

(** [this._loginDefer.resolve()]. *)
Definition loginDefer_resolve : M unit :=
  fun s =>
    let '(d, calls) := TdlDeferred.resolve JUndefined (_loginDefer s) in
    (Ok tt, set_trace (trace s ++ settled LoginPromise calls) (set_loginDefer d s)).

(** [this._loginDefer.reject(err)]. *)
Definition loginDefer_reject (err : Thrown) : M unit :=
  fun s =>
    let '(d, calls) := TdlDeferred.reject err (_loginDefer s) in
    (Ok tt, set_trace (trace s ++ settled LoginPromise calls) (set_loginDefer d s)).

(** The listeners [login] registered with [once('auth-needed', ...)],
    called in registration order.  Each is removed before it is called;
    one that throws ends the delivery. *)
Fixpoint run_once_auth_needed (listeners : list (Res StrictLoginDetails)) : M unit :=
  match listeners with
  | [] => ret tt
  | getLoginDetails :: rest =>
      modify (set_once_auth_needed rest) ;;;
      let* details := lift getLoginDetails in
      modify (set_loginDetails (Some details)) ;;;
      run_once_auth_needed rest
  end.

(** The listeners [close] registered with [once('destroy', ...)]. *)
Fixpoint run_once_destroy (listeners : list nat) : M unit :=
  match listeners with
  | [] => ret tt
  | p :: rest =>
      modify (set_once_destroy rest) ;;;
      log (Settle (ClosePromise p) (Resolved JUndefined)) ;;;
      run_once_destroy rest
  end.

(** [emit(event, value)]: the event is delivered to the listeners of the
    caller (one [Emit] in the trace) and to the client's own. *)
Definition emit (event : Event) : M unit :=
  log (Emit event) ;;;
  match event with
  | EvAuthNeeded =>
      let* listeners := gets once_auth_needed in run_once_auth_needed listeners
  | EvDestroy =>
      let* listeners := gets once_destroy in run_once_destroy listeners
  | _ => ret tt
  end.

Definition _catchError (err : Thrown) : M unit :=
  let* connectPending := gets (fun s => TdlDeferred.isPending (_connectDefer s)) in
  let* loginPending := gets (fun s => TdlDeferred.isPending (_loginDefer s)) in
  if negb connectPending && negb loginPending
  then emit (EvError err)
  else
    when connectPending (connectDefer_reject err) ;;;
    when loginPending (loginDefer_reject err).

Definition _rejectConnectAndLogin (err : Thrown) : M unit :=
  connectDefer_reject err ;;;
  loginDefer_reject err.

Definition _send (request : JValue) : M unit :=
  let* client := gets _client in
  match client with
  | None => ret tt
  | Some client =>
      let tdRequest := deepRenameKey "_" "@type" request in
      log (TdlibSend client tdRequest)
  end.

(** [_sendTdl(request)] where [request] is the object literal with the
    given fields. *)
Definition _sendTdl (request : list (string * JValue)) : M unit :=
  _send (JObj (obj_set "@extra" (JStr TDL_MAGIC) request)).

Definition pause : M unit :=
  let* paused := gets _paused in
  if negb paused then modify (set_paused true) else ret tt.

Definition resume : M unit :=
  let* paused := gets _paused in
  if paused
  then modify (set_paused false) ;;; log (Emit EvResume)
  else ret tt.

Definition destroy : M unit :=
  let* client := gets _client in
  match client with
  | None => ret tt
  | Some client =>
      log (TdlibDestroy client) ;;;
      modify (set_client None) ;;;
      resume ;;;
      emit EvDestroy
  end.

(** [close()]: the promise it returns. *)
Definition close : M Promise :=
  let* p := new_promise in
  let* client := gets _client in
  match client with
  | None => log (Settle (ClosePromise p) (Resolved JUndefined))
  | Some _ =>
      _sendTdl [("_", JStr "close")] ;;;
      modify (fun s => set_once_destroy (once_destroy s ++ [p]) s)
  end ;;;
  ret (ClosePromise p).

(** [invoke(request)], where [id] is the value [uuidv4()] returns.
    [Map.prototype.set] does not throw, so the [catch] around it is never
    entered. *)
Definition invoke (id : string) (request : JValue) : M Promise :=
  match request with
  | JObj fields =>
      let request := JObj (obj_set "@extra" (JStr id) fields) in
      let* p := new_promise in
      modify (fun s => set_fetching (<[id := p]> (_fetching s)) s) ;;;
      _send request ;;;
      ret (InvokePromise p)
  | _ => throw (JsTypeError "Cannot create property '@extra'")
  end.

(** [_authHasNeeded()].  The two calls
    [invariant(this._loginDetails != null, msg)] are the [None] branches:
    [invariant] throws [Error(msg)] when its condition is false. *)
Definition _authHasNeeded : M StrictLoginDetails :=
  let* authNeeded := gets _authNeeded in
  if authNeeded
  then
    let* loginDetails := gets _loginDetails in
    match loginDetails with
    | Some details => ret details
    | None => throw (JsError "_authHasNeeded: (_authNeeded true) loginDetails should be set")
    end
  else
    modify (set_authNeeded true) ;;;
    emit EvAuthNeeded ;;;
    let* loginDetails := gets _loginDetails in
    match loginDetails with
    | Some details => ret details
    | None => throw (JsError "_authHasNeeded: (_authNeeded false) loginDetails should be set")
    end.

(** A call of a login callback: the call is traced, and the callback
    gives its result. *)
Definition call {A : Type} (c : Callback) (result : Res A) : M A :=
  log (Called c) ;;; lift result.

Definition option_read (name : string) : M JValue :=
  gets (fun s => get (_options s) name).

(** [this._fetching.get(id)]. *)
Definition fetching_get (id : JValue) : M (option nat) :=
  gets (fun s => match id with JStr k => _fetching s !! k | _ => None end).

(** [this._fetching.delete(id)]. *)
Definition fetching_delete (id : JValue) : M unit :=
  modify (fun s => match id with
                   | JStr k => set_fetching (delete k (_fetching s)) s
                   | _ => s
                   end).

(** The part of [_handleAuth] after [await this._waitLogin()]. *)
Definition _handleAuth_login (authorizationState : JValue) : M unit :=
  let tag := get authorizationState "_" in
  if str_eq tag "authorizationStateWaitPhoneNumber" then
    let* loginDetails := _authHasNeeded in
    match loginDetails with
    | TypeUser loginDetails =>
        let* phone_number := call (CallGetPhoneNumber false) (getPhoneNumber loginDetails false) in
        _sendTdl [("_", JStr "setAuthenticationPhoneNumber");
                  ("phone_number", phone_number)]
    | TypeBot loginDetails =>
        let* token := call (CallGetToken false) (getToken loginDetails false) in
        _sendTdl [("_", JStr "checkAuthenticationBotToken");
                  ("token", token)]
    end
  else if str_eq tag "authorizationStateWaitEmailAddress" then
    let* loginDetails := _authHasNeeded in
    match loginDetails with
    | TypeUser loginDetails =>
        let* email_address := call CallGetEmailAddress (getEmailAddress loginDetails) in
        _sendTdl [("_", JStr "setAuthenticationEmailAddress");
                  ("email_address", email_address)]
    | TypeBot _ => ret tt
    end
  else if str_eq tag "authorizationStateWaitEmailCode" then
    let* loginDetails := _authHasNeeded in
    match loginDetails with
    | TypeUser loginDetails =>
        let* code := call CallGetEmailCode (getEmailCode loginDetails) in
        _sendTdl [("_", JStr "checkAuthenticationEmailCode");
                  ("code", JObj [("_", JStr "emailAddressAuthenticationCode");
                                 ("code", code)])]
    | TypeBot _ => ret tt
    end
  else if str_eq tag "authorizationStateWaitOtherDeviceConfirmation" then
    let* loginDetails := _authHasNeeded in
    match loginDetails with
    | TypeUser loginDetails =>
        let link := get authorizationState "link" in
        call (CallConfirmOnAnotherDevice link) (confirmOnAnotherDevice loginDetails link)
    | TypeBot _ => ret tt
    end
  else if str_eq tag "authorizationStateWaitCode" then
    let* loginDetails := _authHasNeeded in
    match loginDetails with
    | TypeUser loginDetails =>
        let* code := call (CallGetAuthCode false) (getAuthCode loginDetails false) in
        _sendTdl [("_", JStr "checkAuthenticationCode");
                  ("code", code)]
    | TypeBot _ => ret tt
    end
  else if str_eq tag "authorizationStateWaitRegistration" then
    let* loginDetails := _authHasNeeded in
    match loginDetails with
    | TypeUser loginDetails =>
        let* name := call CallGetName (getName loginDetails) in
        let* firstName := lift (prop name "firstName") in
        let lastName := match get name "lastName" with
                        | JUndefined => JStr ""
                        | v => v
                        end in
        _sendTdl [("_", JStr "registerUser");
                  ("first_name", firstName);
                  ("last_name", lastName)]
    | TypeBot _ => ret tt
    end
  else if str_eq tag "authorizationStateWaitPassword" then
    let* loginDetails := _authHasNeeded in
    match loginDetails with
    | TypeUser loginDetails =>
        let passwordHint := get authorizationState "password_hint" in
        let* password := call (CallGetPassword passwordHint false)
                              (getPassword loginDetails passwordHint false) in
        _sendTdl [("_", JStr "checkAuthenticationPassword");
                  ("password", password)]
    | TypeBot _ => ret tt
    end
  else if str_eq tag "authorizationStateReady" then
    loginDefer_resolve
  else ret tt.

(** [_handleAuth(update)].  When [login] has not been called yet the
    rest of the method is suspended in [_waitLogin]: its authorization
    state is queued in [once_login] and [login] resumes it. *)
Definition _handleAuth (update : JValue) : M unit :=
  let authorizationState := get update "authorization_state" in
  let* tag := lift (prop authorizationState "_") in
  if str_eq tag "authorizationStateWaitTdlibParameters" then
    let* version := gets _version in
    let* options := gets _options in
    if Version_gte version TDLIB_1_8_6 then
      let* underscore := lift (prop (get options "tdlibParameters") "_") in
      if negb (nullish underscore)
      then throw (JsError "tdlibParameters must not contain the _ property")
      else
        let* database_directory := lift (resolvePath (get options "databaseDirectory")) in
        let* files_directory := lift (resolvePath (get options "filesDirectory")) in
        _sendTdl (obj_spread
                    [("_", JStr "setTdlibParameters");
                     ("database_directory", database_directory);
                     ("files_directory", files_directory);
                     ("api_id", get options "apiId");
                     ("api_hash", get options "apiHash");
                     ("use_test_dc", get options "useTestDc");
                     ("database_encryption_key", get options "databaseEncryptionKey")]
                    (get options "tdlibParameters")) ;;;
        connectDefer_resolve
    else
      let* database_directory := lift (resolvePath (get options "databaseDirectory")) in
      let* files_directory := lift (resolvePath (get options "filesDirectory")) in
      _sendTdl [("_", JStr "setTdlibParameters");
                ("parameters",
                 JObj (obj_set "_" (JStr "tdlibParameters")
                         (obj_spread
                            [("database_directory", database_directory);
                             ("files_directory", files_directory);
                             ("api_id", get options "apiId");
                             ("api_hash", get options "apiHash");
                             ("use_test_dc", get options "useTestDc")]
                            (get options "tdlibParameters"))))]
  else if str_eq tag "authorizationStateWaitEncryptionKey" then
    let* encryption_key := option_read "databaseEncryptionKey" in
    _sendTdl [("_", JStr "checkDatabaseEncryptionKey");
              ("encryption_key", encryption_key)] ;;;
    connectDefer_resolve
  else if str_eq tag "authorizationStateClosed" then
    _rejectConnectAndLogin (JsError "Received authorizationStateClosed") ;;;
    destroy
  else
    (if str_eq tag "authorizationStateReady"
     then let* authNeeded := gets _authNeeded in
          when (negb authNeeded) (emit EvAuthNotNeeded)
     else ret tt) ;;;
    let* deferSet := gets (fun s => TdlDeferred.isDeferSet (_loginDefer s)) in
    if deferSet
    then _handleAuth_login authorizationState
    else modify (fun s => set_once_login (once_login s ++ [authorizationState]) s).

(** The suspended [_handleAuth] calls that the ['_login'] signal resumes;
    what one of them throws goes to the [catch] attached where
    [_handleUpdate] called it. *)
Fixpoint resume_handleAuth (waiting : list JValue) : M unit :=
  match waiting with
  | [] => ret tt
  | authorizationState :: rest =>
      try_catch (_handleAuth_login authorizationState)
                (fun e => _catchError (TdlError e None)) ;;;
      resume_handleAuth rest
  end.

(** [login(getLoginDetails)], where the argument is what
    [getLoginDetails()] merged with the defaults yields when called. *)
Definition login (getLoginDetails : Res StrictLoginDetails) : M Promise :=
  modify (fun s => set_once_auth_needed (once_auth_needed s ++ [getLoginDetails]) s) ;;;
  let* p := new_promise in
  modify (fun s => set_loginDefer (TdlDeferred.setDefer p (_loginDefer s)) s) ;;;
  log (Emit EvLogin) ;;;
  let* waiting := gets once_login in
  modify (set_once_login []) ;;;
  resume_handleAuth waiting ;;;
  ret (LoginPromise p).

Definition _emitErrWithoutExtra (error : JValue) : M unit :=
  _catchError (ThrownValue (delete_key error "@extra")).

Definition _handleUserError (error : JValue) (loginDetails : LoginUser) : M unit :=
  let message := get error "message" in
  if str_eq message "PHONE_CODE_EMPTY" || str_eq message "PHONE_CODE_INVALID" then
    let* code := call (CallGetAuthCode true) (getAuthCode loginDetails true) in
    _sendTdl [("_", JStr "checkAuthenticationCode");
              ("code", code)]
  else if str_eq message "PHONE_NUMBER_INVALID" then
    let* phone_number := call (CallGetPhoneNumber true) (getPhoneNumber loginDetails true) in
    _sendTdl [("_", JStr "setAuthenticationPhoneNumber");
              ("phone_number", phone_number)]
  else if str_eq message "PASSWORD_HASH_INVALID" then
    let* password := call (CallGetPassword (JStr "") true)
                          (getPassword loginDetails (JStr "") true) in
    _sendTdl [("_", JStr "checkAuthenticationPassword");
              ("password", password)]
  else _emitErrWithoutExtra error.

Definition _handleBotError (error : JValue) (loginDetails : LoginBot) : M unit :=
  let message := get error "message" in
  if str_eq message "ACCESS_TOKEN_INVALID" then
    let* token := call (CallGetToken true) (getToken loginDetails true) in
    _sendTdl [("_", JStr "checkAuthenticationBotToken");
              ("token", token)]
  else _emitErrWithoutExtra error.

Definition _handleError (error : JValue) : M unit :=
  let id := get error "@extra" in
  let* defer := fetching_get id in
  match defer with
  | Some defer =>
      log (Settle (InvokePromise defer) (Rejected (ThrownValue (delete_key error "@extra")))) ;;;
      fetching_delete id
  | None =>
      if str_eq id TDL_MAGIC then
        let* loginDetails := gets _loginDetails in
        match loginDetails with
        | None => _emitErrWithoutExtra error
        | Some (TypeUser loginDetails) => _handleUserError error loginDetails
        | Some (TypeBot loginDetails) => _handleBotError error loginDetails
        end
      else emit (EvError (ThrownValue error))
  end.

Definition _handleUpdate (update : JValue) : M unit :=
  let tag := get update "_" in
  if str_eq tag "updateOption" then
    emit (EvUpdate update) ;;;
    if str_eq (get update "name") "version" then
      let* valueTag := lift (prop (get update "value") "_") in
      if str_eq valueTag "optionValueString" then
        let* version := lift (Version_new (get (get update "value") "value")) in
        modify (set_version version)
      else ret tt
    else ret tt
  else if str_eq tag "updateConnectionState" then
    modify (set_connectionState (get update "state")) ;;;
    emit (EvUpdate update)
  else if str_eq tag "updateAuthorizationState" then
    (* the argument of the [debug] call is evaluated first *)
    let* _ := lift (prop (get update "authorization_state") "_") in
    emit (EvUpdate update) ;;;
    let* disableAuth := option_read "disableAuth" in
    when (negb (truthy disableAuth))
         (try_catch (_handleAuth update) (fun e => _catchError (TdlError e None)))
  else
    let* skipOldUpdates := option_read "skipOldUpdates" in
    let* shouldSkip :=
      if truthy skipOldUpdates then
        let* connectionState := gets _connectionState in
        let* stateTag := lift (prop connectionState "_") in
        ret (str_eq stateTag "connectionStateUpdating")
      else ret false in
    if shouldSkip then ret tt else emit (EvUpdate update).

Definition _handleResponse (res : JValue) : M unit :=
  emit (EvResponse res) ;;;
  if str_eq (get res "_") "error" then _handleError res
  else
    let id := get res "@extra" in
    let* defer := fetching_get id in
    match defer with
    | Some defer =>
        log (Settle (InvokePromise defer) (Resolved (delete_key res "@extra"))) ;;;
        fetching_delete id
    | None =>
        if negb (str_eq id TDL_MAGIC) then _handleUpdate res else ret tt
    end.

(** [_receive()], where [received] is what the awaited
    [this._tdlib.receive(this._client, timeout)] yields. *)
Definition _receive (received : Res JValue) : M JValue :=
  let* timeout := option_read "receiveTimeout" in
  let* client := gets _client in
  match client with
  | None => ret JNull
  | Some client =>
      log (TdlibReceive client timeout) ;;;
      let* tdResponse := lift received in
      if truthy tdResponse then
        let* useMutableRename := option_read "useMutableRename" in
        ret (if truthy useMutableRename
             then deepRenameKey_ "@type" "_" tdResponse
             else deepRenameKey "@type" "_" tdResponse)
      else ret tdResponse
  end.

Inductive LoopStatus : Type :=
| LoopAwaitResume   (* suspended in [_waitResume] *)
| LoopContinue      (* goes on with the next iteration *)
| LoopEnd           (* left by [break] *).

(** One iteration of the [while (true)] of [_loop]. *)
Definition _loop_iteration (received : Res JValue) : M LoopStatus :=
  try_catch
    (let* paused := gets _paused in
     if paused then ret LoopAwaitResume
     else
       let* client := gets _client in
       match client with
       | None => ret LoopEnd
       | Some _ =>
           let* response := _receive received in
           (if truthy response then _handleResponse response else ret tt) ;;;
           ret LoopContinue
       end)
    (fun e => _catchError (TdlError e None) ;;; ret LoopContinue).

(** [_init()]; the receive loop it starts is run by [_loop_iteration]. *)
Definition _init : M unit :=
  let* created :=
    try_catch
      (let* useDefaultVerbosityLevel := option_read "useDefaultVerbosityLevel" in
       (if negb (truthy useDefaultVerbosityLevel) then
          let* verbosityLevel := option_read "verbosityLevel" in
          let request := JObj [("@type", JStr "setLogVerbosityLevel");
                               ("new_verbosity_level", verbosityLevel)] in
          log (TdlibExecute None request) ;;;
          let* tdlib := gets _tdlib in
          let* _ := lift (tdlib_execute tdlib None request) in
          ret tt
        else ret tt) ;;;
       log TdlibCreate ;;;
       let* tdlib := gets _tdlib in
       let* client := lift (tdlib_create tdlib) in
       modify (set_client (Some client)) ;;;
       ret true)
      (fun e =>
         _catchError (TdlError e (Some "Error while creating client")) ;;;
         ret false) in
  if created then
    modify (set_initialized true) ;;;
    let* disableAuth := option_read "disableAuth" in
    when (truthy disableAuth) connectDefer_resolve ;;;
    log LoopStarted
  else ret tt.

(** [connect()]: the promise it returns. *)
Definition connect : M Promise :=
  let* p := new_promise in
  try_catch
    (let* initialized := gets _initialized in
     if initialized then
       let* client := gets _client in
       let err := match client with
                  | Some _ => JsError "The client is already initialized"
                  | None => JsError "Cannot re-initialize a destroyed client"
                  end in
       log (Settle (ConnectPromise p) (Rejected err))
     else
       modify (fun s => set_connectDefer (TdlDeferred.setDefer p (_connectDefer s)) s) ;;;
       _init)
    (fun e => log (Settle (ConnectPromise p) (Rejected e))) ;;;
  ret (ConnectPromise p).

End ClientMethods.

(** ** Views of the trace *)

(** The payloads published as [update] events, oldest first. *)
Fixpoint updates_of (t : list Effect) : list JValue :=
  match t with
  | [] => []
  | Emit (EvUpdate u) :: rest => u :: updates_of rest
  | _ :: rest => updates_of rest
  end.

(** The values published as [error] events, oldest first. *)
Fixpoint errors_of (t : list Effect) : list Thrown :=
  match t with
  | [] => []
  | Emit (EvError e) :: rest => e :: errors_of rest
  | _ :: rest => errors_of rest
  end.

(** The requests sent to the engine, oldest first. *)
Fixpoint sends_of (t : list Effect) : list JValue :=
  match t with
  | [] => []
  | TdlibSend _ request :: rest => request :: sends_of rest
  | _ :: rest => sends_of rest
  end.

(** The calls made on the resolving functions of [invoke] promises. *)
Fixpoint invoke_settlements (t : list Effect) : list (nat * Outcome) :=
  match t with
  | [] => []
  | Settle (InvokePromise p) o :: rest => (p, o) :: invoke_settlements rest
  | _ :: rest => invoke_settlements rest
  end.

(** How [_handleResponse] settles the pending request that [res] is
    correlated with. *)
Definition correlated_outcome (res : JValue) : Outcome :=
  if str_eq (get res "_") "error"
  then Rejected (ThrownValue (delete_key res "@extra"))
  else Resolved (delete_key res "@extra").

(** ** The message router over a sequence of messages *)

Section Router.

Context {imports : Imports}.

(** The body of the receive loop for a message that has been received:
    [_handleResponse] inside the [try] of [_loop]. *)
Definition route (res : JValue) : M unit :=
  try_catch (_handleResponse res) (fun e => _catchError (TdlError e None)).

Fixpoint route_all (msgs : list JValue) (s : Client) : Client :=
  match msgs with
  | [] => s
  | res :: rest => route_all rest (snd (route res s))
  end.

(** [_handleResponse] hands [res] to [_handleUpdate]: it is not an error,
    its correlation field names no pending request and is not the
    value the client uses for its own requests. *)
Definition routed_as_update (res : JValue) (s : Client) : bool :=
  negb (str_eq (get res "_") "error")
  && match get res "@extra" with
     | JStr id => negb (bool_decide (is_Some (_fetching s !! id)))
                  && negb (id =? TDL_MAGIC)
     | _ => true
     end.

End Router.

(** The three update kinds that [_handleUpdate] names. *)
Definition privileged (update : JValue) : bool :=
  str_eq (get update "_") "updateOption"
  || str_eq (get update "_") "updateConnectionState"
  || str_eq (get update "_") "updateAuthorizationState".

(** An update carries the field its kind is declared with
    ([updateConnectionState.state],
    [updateAuthorizationState.authorization_state]). *)
Definition well_formed (res : JValue) : bool :=
  if str_eq (get res "_") "updateConnectionState"
  then negb (nullish (get res "state"))
  else if str_eq (get res "_") "updateAuthorizationState"
       then negb (nullish (get res "authorization_state"))
       else true.

(** ** The retry table of the authentication error handler, as specified *)

(** One row of the table: the callback called (with its arguments, the
    retry flag among them), what it answers, and the request that
    carries an answer back to the engine. *)
Record RetryAction : Type := {
  retry_call : Callback;
  retry_answer : Res JValue;
  retry_request : JValue -> JValue
}.

Definition resend (tag field : string) (v : JValue) : JValue :=
  JObj [("_", JStr tag); (field, v); ("@extra", JStr TDL_MAGIC)].

Definition retry_table (details : StrictLoginDetails) (message : JValue)
  : option RetryAction :=
  match details with
  | TypeUser user =>
      if str_eq message "PHONE_CODE_EMPTY" || str_eq message "PHONE_CODE_INVALID" then
        Some {| retry_call := CallGetAuthCode true;
                retry_answer := getAuthCode user true;
                retry_request := resend "checkAuthenticationCode" "code" |}
      else if str_eq message "PHONE_NUMBER_INVALID" then
        Some {| retry_call := CallGetPhoneNumber true;
                retry_answer := getPhoneNumber user true;
                retry_request := resend "setAuthenticationPhoneNumber" "phone_number" |}
      else if str_eq message "PASSWORD_HASH_INVALID" then
        Some {| retry_call := CallGetPassword (JStr "") true;
                retry_answer := getPassword user (JStr "") true;
                retry_request := resend "checkAuthenticationPassword" "password" |}
      else None
  | TypeBot bot =>
      if str_eq message "ACCESS_TOKEN_INVALID" then
        Some {| retry_call := CallGetToken true;
                retry_answer := getToken bot true;
                retry_request := resend "checkAuthenticationBotToken" "token" |}
      else None
  end.

(** ** The handshake request in its two shapes

    As handed to [_send], for the option set [options] and the resolved
    directories: the flattened shape has the configuration at the top
    level of the request, the legacy shape has it in a [tdlibParameters]
    object under [parameters]. *)

Definition local_configuration (options database_directory files_directory : JValue)
  : list (string * JValue) :=
  [("database_directory", database_directory);
   ("files_directory", files_directory);
   ("api_id", get options "apiId");
   ("api_hash", get options "apiHash");
   ("use_test_dc", get options "useTestDc")].

Definition flattened_handshake (options database_directory files_directory : JValue)
  : JValue :=
  JObj (obj_set "@extra" (JStr TDL_MAGIC)
          (obj_spread
             (("_", JStr "setTdlibParameters")
              :: local_configuration options database_directory files_directory
              ++ [("database_encryption_key", get options "databaseEncryptionKey")])
             (get options "tdlibParameters"))).

Definition nested_handshake (options database_directory files_directory : JValue)
  : JValue :=
  JObj [("_", JStr "setTdlibParameters");
        ("parameters",
         JObj (obj_set "_" (JStr "tdlibParameters")
                 (obj_spread
                    (local_configuration options database_directory files_directory)
                    (get options "tdlibParameters"))));
        ("@extra", JStr TDL_MAGIC)].

(** ** Notions used by the proofs *)

(** [respects view m]: running [m] does not change [view] of the state. *)
Definition respects {A B : Type} (view : Client -> B) (m : M A) : Prop :=
  forall s, view (snd (m s)) = view s.

(** [preserves P m]: running [m] keeps the property [P] of the state. *)
Definition preserves {A : Type} (P : Client -> Prop) (m : M A) : Prop :=
  forall s, P s -> P (snd (m s)).

(** What the authentication flow and the error path leave alone: the
    [update] events published so far, the [invoke] promises settled so
    far, the stored connection state, the pending requests and the
    options. *)
Definition quiet (s : Client) :=
  (updates_of (trace s), invoke_settlements (trace s),
   _connectionState s, _fetching s, _options s).

Definition quiet_effect (e : Effect) : bool :=
  match e with
  | Emit (EvUpdate _) => false
  | Settle (InvokePromise _) _ => false
  | _ => true
  end.

(** The stored connection state is neither [null] nor [undefined]. *)
Definition connectionState_set (s : Client) : Prop :=
  nullish (_connectionState s) = false.

(** ** An implementation of the imported functions

    Used to run the methods on concrete inputs. *)

Fixpoint rename_keys (oldKey newKey : string) (v : JValue) : JValue :=
  match v with
  | JObj fields =>
      JObj (map (fun kv => let '(k, x) := kv in
                           (if k =? oldKey then newKey else k,
                            rename_keys oldKey newKey x)) fields)
  | _ => v
  end.

(** Right-biased merge of the fields of two objects, one level deep in
    the [tdlibParameters] style of the options. *)
Definition merge_right (l r : JValue) : JValue :=
  match l, r with
  | JObj lf, JObj rf =>
      JObj (fold_left
              (fun acc kv =>
                 let '(k, x) := kv in
                 match obj_lookup k acc, x with
                 | JObj inner, JObj _ => obj_set k (JObj (obj_spread inner x)) acc
                 | _, _ => obj_set k x acc
                 end) rf lf)
  | _, _ => r
  end.

Definition sample_imports : Imports := {|
  mergeDeepRight := merge_right;
  deepRenameKey := rename_keys;
  deepRenameKey_ := rename_keys;
  resolvePath := fun p =>
    match p with
    | JStr s => Ok (JStr ("/srv/" ++ s))
    | _ => Throw (JsTypeError "The path argument must be of type string")
    end;
  Version_new := fun v =>
    match v with
    | JStr "1.8.14" => Ok {| major := 1; minor := 8; patch := 14 |}
    | JStr "1.8.6" => Ok TDLIB_1_8_6
    | JStr "1.8.0" => Ok TDLIB_DEFAULT
    | JStr "1.7.9" => Ok {| major := 1; minor := 7; patch := 9 |}
    | _ => Throw (JsError "Invalid TDLib version")
    end
|}.

(** An engine whose calls succeed, and one whose [create] fails. *)
Definition working_tdlib : ITDLibJSON := {|
  tdlib_execute := fun _ _ => Ok JNull;
  tdlib_create := Ok 7
|}.

Definition broken_tdlib : ITDLibJSON := {|
  tdlib_execute := fun _ _ => Ok JNull;
  tdlib_create := Throw (JsError "td_json_client_create failed")
|}.

(** A user whose callbacks answer at once. *)
Definition sample_user : LoginUser := {|
  getPhoneNumber := fun retry => Ok (JStr (if retry then "+15550002" else "+15550001"));
  getEmailAddress := Ok (JStr "user@example.org");
  getEmailCode := Ok (JStr "000000");
  confirmOnAnotherDevice := fun _ => Ok tt;
  getAuthCode := fun retry => Ok (JStr (if retry then "22222" else "11111"));
  getPassword := fun _ retry => Ok (JStr (if retry then "hunter3" else "hunter2"));
  getName := Ok (JObj [("firstName", JStr "Ada")])
|}.

Definition sample_bot : LoginBot := {|
  getToken := fun retry => Ok (JStr (if retry then "token-b" else "token-a"))
|}.

Definition sample_options : JValue :=
  JObj [("apiId", JNum 2222); ("apiHash", JStr "YOUR_API_HASH")].

(** A session as [connect] on a working engine leaves it, for a given
    option set, with both [connect] and [login] called (promises 0 and
    1). *)
Definition live_session (options : JValue) : Client := {|
  _options := merge_right defaultOptions options;
  _fetching := ∅;
  _tdlib := working_tdlib;
  _client := Some 7;
  _initialized := true;
  _paused := false;
  _connectionState := JObj [("_", JStr "connectionStateConnecting")];
  _connectDefer := TdlDeferred.mk (Some 0) false;
  _authNeeded := false;
  _loginDetails := None;
  _loginDefer := TdlDeferred.mk (Some 1) false;
  _version := TDLIB_DEFAULT;
  once_auth_needed := [];
  once_login := [];
  once_destroy := [];
  promises := 2;
  trace := []
|}.

(** The same session with [skipOldUpdates] set. *)
Definition skipping_options : JValue :=
  JObj [("apiId", JNum 2222); ("apiHash", JStr "YOUR_API_HASH");
        ("skipOldUpdates", JBool true)].

(** The same session on an engine that has reported version 1.8.14. *)
Definition recent_session : Client :=
  set_version {| major := 1; minor := 8; patch := 14 |}
    (live_session sample_options).

(** The same session during a user login: [connect] has resolved and the
    login details have been supplied. *)
Definition login_session : Client :=
  set_loginDetails (Some (TypeUser sample_user))
    (set_connectDefer (TdlDeferred.mk (Some 0) true)
       (live_session sample_options)).

(** The same session with one [invoke] outstanding, promise 2 under the
    id ["5a1c"]. *)
Definition pending_session : Client :=
  set_promises 3
    (set_fetching {[ "5a1c" := 2 ]} (live_session sample_options)).

(** Messages of the engine, as [_receive] returns them. *)
Definition wait_tdlib_parameters : JValue :=
  JObj [("_", JStr "updateAuthorizationState");
        ("authorization_state",
         JObj [("_", JStr "authorizationStateWaitTdlibParameters")])].

Definition connection_updating : JValue :=
  JObj [("_", JStr "updateConnectionState");
        ("state", JObj [("_", JStr "connectionStateUpdating")])].

Definition new_message : JValue :=
  JObj [("_", JStr "updateNewMessage");
        ("message", JObj [("_", JStr "message"); ("id", JNum 41)])].

Definition me_response : JValue :=
  JObj [("_", JStr "user"); ("id", JNum 1); ("@extra", JStr "5a1c")].

Definition phone_number_invalid : JValue :=
  JObj [("_", JStr "error"); ("code", JNum 400);
        ("message", JStr "PHONE_NUMBER_INVALID"); ("@extra", JStr TDL_MAGIC)].

Definition phone_number_banned : JValue :=
  JObj [("_", JStr "error"); ("code", JNum 400);
        ("message", JStr "PHONE_NUMBER_BANNED"); ("@extra", JStr TDL_MAGIC)].

(** Further sessions and messages. *)

(** A session as the constructor leaves it, on a given engine. *)
Definition new_session (tdlibInstance : ITDLibJSON) : Client :=
  match Client_new (imports := sample_imports) tdlibInstance sample_options with
  | Ok s => s
  | Throw _ => live_session sample_options
  end.

(** The live session after [destroy]. *)
Definition destroyed_session : Client :=
  snd (destroy (live_session sample_options)).

(** The live session once [connect] has resolved, before [login] is
    called. *)
Definition connected_session : Client :=
  set_loginDefer TdlDeferred.new
    (set_connectDefer (TdlDeferred.mk (Some 0) true)
       (live_session sample_options)).

(** The live session during a bot login, after [auth-needed]. *)
Definition bot_session : Client :=
  set_authNeeded true
    (set_loginDetails (Some (TypeBot sample_bot))
       (live_session sample_options)).

Definition authorization_state_update (tag : string) : JValue :=
  JObj [("_", JStr "updateAuthorizationState");
        ("authorization_state", JObj [("_", JStr tag)])].

(** The session after the user login has completed. *)
Definition ready_session : Client :=
  snd (_handleAuth (imports := sample_imports)
         (authorization_state_update "authorizationStateReady") login_session).

Definition get_me : list (string * JValue) := [("_", JStr "getMe")].

Definition not_found_error : JValue :=
  JObj [("_", JStr "error"); ("code", JNum 404);
        ("message", JStr "Not Found"); ("@extra", JStr "77f0")].

Definition own_reply : JValue :=
  JObj [("_", JStr "ok"); ("@extra", JStr TDL_MAGIC)].

(** ** Notions used by the further properties *)

(** What [_init] leaves in the trace before it asks for an engine
    client. *)
Definition verbosity_call (s : Client) : list Effect :=
  if truthy (get (_options s) "useDefaultVerbosityLevel") then []
  else [TdlibExecute None
          (JObj [("@type", JStr "setLogVerbosityLevel");
                 ("new_verbosity_level", get (_options s) "verbosityLevel")])].

(** The authorization states that [_handleAuth] leaves to the part after
    [_waitLogin] without doing anything before it. *)
Definition waits_for_login (authorizationState : JValue) : bool :=
  negb (nullish authorizationState)
  && negb (str_eq (get authorizationState "_") "authorizationStateWaitTdlibParameters")
  && negb (str_eq (get authorizationState "_") "authorizationStateWaitEncryptionKey")
  && negb (str_eq (get authorizationState "_") "authorizationStateClosed")
  && negb (str_eq (get authorizationState "_") "authorizationStateReady").

(** The authorization states that only a user login answers. *)
Definition user_only_state (authorizationState : JValue) : bool :=
  str_eq (get authorizationState "_") "authorizationStateWaitEmailAddress"
  || str_eq (get authorizationState "_") "authorizationStateWaitEmailCode"
  || str_eq (get authorizationState "_") "authorizationStateWaitOtherDeviceConfirmation"
  || str_eq (get authorizationState "_") "authorizationStateWaitCode"
  || str_eq (get authorizationState "_") "authorizationStateWaitRegistration"
  || str_eq (get authorizationState "_") "authorizationStateWaitPassword".

(** The session as [login] leaves it before it resumes the suspended
    handlers. *)
Definition logged_in (getLoginDetails : Res StrictLoginDetails) (s : Client) : Client :=
  set_once_login []
    (set_trace (trace s ++ [Emit EvLogin])
       (set_loginDefer (TdlDeferred.setDefer (promises s) (_loginDefer s))
          (set_promises (S (promises s))
             (set_once_auth_needed (once_auth_needed s ++ [getLoginDetails]) s)))).

(** *** Sessions *)

(** One step of a session: a call of [connect], [login], [invoke],
    [execute], [close], [destroy], [pause] or [resume], an iteration of
    the receive loop (with what the engine's [receive] yields), or the
    rest of an iteration for a message whose [receive] was awaited while
    other calls ran.  A step runs to its end before the next one
    starts. *)
Inductive Step : Type :=
| StepLoop (received : Res JValue)
| StepRoute (res : JValue)
| StepConnect
| StepLogin (getLoginDetails : Res StrictLoginDetails)
| StepInvoke (id : string) (request : JValue)
| StepExecute (request : JValue)
| StepClose
| StepDestroy
| StepPause
| StepResume.

Section Sessions.

Context {imports : Imports}.

(** [execute(request)]: the synchronous call of the engine. *)
Definition execute (request : JValue) : M JValue :=
  let* client := gets _client in
  match client with
  | None => ret JNull
  | Some client =>
      let tdRequest := deepRenameKey "_" "@type" request in
      log (TdlibExecute (Some client) tdRequest) ;;;
      let* tdlib := gets _tdlib in
      let* tdResponse := lift (tdlib_execute tdlib (Some client) tdRequest) in
      ret (if truthy tdResponse
           then deepRenameKey "@type" "_" tdResponse
           else tdResponse)
  end.

Definition step_run (step : Step) (s : Client) : Client :=
  match step with
  | StepLoop received => snd (_loop_iteration received s)
  | StepRoute res => snd (route res s)
  | StepConnect => snd (connect s)
  | StepLogin getLoginDetails => snd (login getLoginDetails s)
  | StepInvoke id request => snd (invoke id request s)
  | StepExecute request => snd (execute request s)
  | StepClose => snd (close s)
  | StepDestroy => snd (destroy s)
  | StepPause => snd (pause s)
  | StepResume => snd (resume s)
  end.

Fixpoint session_run (steps : list Step) (s : Client) : Client :=
  match steps with
  | [] => s
  | step :: rest => session_run rest (step_run step s)
  end.

End Sessions.

(** How often [auth-needed] has been published. *)
Fixpoint auth_needed_count (t : list Effect) : nat :=
  match t with
  | [] => 0
  | Emit EvAuthNeeded :: rest => S (auth_needed_count rest)
  | _ :: rest => auth_needed_count rest
  end.

(** The publications of [auth-needed] so far, plus the one still to come
    while [_authNeeded] is not set. *)
Definition auth_needed_budget (s : Client) : nat :=
  auth_needed_count (trace s) + (if _authNeeded s then 0 else 1).

(** The calls of the engine in a trace. *)
Definition engine_call (e : Effect) : bool :=
  match e with
  | TdlibExecute _ _ | TdlibCreate | TdlibSend _ _ | TdlibReceive _ _
  | TdlibDestroy _ => true
  | _ => false
  end.

Definition engine_calls (t : list Effect) : list Effect :=
  List.filter engine_call t.

(** The settlements of promises that [login] returned, oldest first. *)
Fixpoint login_settlements (t : list Effect) : list (nat * Outcome) :=
  match t with
  | [] => []
  | Settle (LoginPromise p) o :: rest => (p, o) :: login_settlements rest
  | _ :: rest => login_settlements rest
  end.

(** An effect that is neither a call of the engine, nor the publication
    of [auth-needed], nor the settlement of a [login] promise. *)
Definition plain_effect (e : Effect) : bool :=
  match e with
  | Emit EvAuthNeeded => false
  | Settle (LoginPromise _) _ => false
  | _ => negb (engine_call e)
  end.

(** [keeps R m]: the state after [m] is related by [R] to the one before. *)
Definition keeps {A : Type} (R : Client -> Client -> Prop) (m : M A) : Prop :=
  forall s, R s (snd (m s)).

(** A relation between an earlier and a later state that every state
    change of the methods respects: the plain effects and the assignments
    to the fields of the instance without condition, the registration
    and the removal of a pending request under an id that [allows]
    holds of, the publication of [auth-needed] where [_authNeeded] is not
    set yet, a new resolver for the login gate and the one call that the
    gate makes on its resolver while it is not done, the calls of the
    engine on a live handle, and the creation of the handle on an
    instance that is not initialized. *)
Class Frame (allows : string -> Prop) (R : Client -> Client -> Prop) : Prop := {
  frame_refl : forall s, R s s;
  frame_trans : forall s1 s2 s3, R s1 s2 -> R s2 s3 -> R s1 s3;
  frame_log : forall e s,
    plain_effect e = true -> R s (set_trace (trace s ++ [e]) s);
  frame_auth_needed : forall s,
    _authNeeded s = false ->
    R s (set_trace (trace s ++ [Emit EvAuthNeeded]) (set_authNeeded true s));
  frame_connectDefer : forall v s, R s (set_connectDefer v s);
  frame_login_setDefer : forall p s,
    R s (set_loginDefer (TdlDeferred.setDefer p (_loginDefer s)) s);
  frame_login_fired : forall p o s,
    _loginDefer s = TdlDeferred.mk (Some p) false ->
    R s (set_trace (trace s ++ [Settle (LoginPromise p) o])
           (set_loginDefer (TdlDeferred.mk (Some p) true) s));
  frame_paused : forall v s, R s (set_paused v s);
  frame_loginDetails : forall v s, R s (set_loginDetails v s);
  frame_once_auth_needed : forall v s, R s (set_once_auth_needed v s);
  frame_once_login : forall v s, R s (set_once_login v s);
  frame_once_destroy : forall v s, R s (set_once_destroy v s);
  frame_fetching_set : forall id p s,
    allows id -> R s (set_fetching (<[id := p]> (_fetching s)) s);
  frame_fetching_unset : forall id s,
    allows id -> R s (set_fetching (delete id (_fetching s)) s);
  frame_promises : forall v s, R s (set_promises v s);
  frame_version : forall v s, R s (set_version v s);
  frame_connectionState : forall v s, R s (set_connectionState v s);
  frame_send_call : forall client request s,
    _client s = Some client ->
    R s (set_trace (trace s ++ [TdlibSend client request]) s);
  frame_receive_call : forall client timeout s,
    _client s = Some client ->
    R s (set_trace (trace s ++ [TdlibReceive client timeout]) s);
  frame_execute_live : forall client request s,
    _client s = Some client ->
    R s (set_trace (trace s ++ [TdlibExecute (Some client) request]) s);
  frame_destroy_call : forall client s,
    _client s = Some client ->
    R s (set_client None (set_trace (trace s ++ [TdlibDestroy client]) s));
  frame_execute_call : forall request s,
    _initialized s = false ->
    R s (set_trace (trace s ++ [TdlibExecute None request]) s);
  frame_create_call : forall s,
    _initialized s = false -> R s (set_trace (trace s ++ [TdlibCreate]) s);
  frame_client_created : forall client s,
    _initialized s = false -> R s (set_client (Some client) s);
  frame_initialized : forall s,
    _initialized s = false -> R s (set_initialized true s)
}.

(** The correlation field of a message, where it is a string, is an id
    that [allows] holds of. *)
Definition message_allowed (allows : string -> Prop) (res : JValue) : Prop :=
  forall id, get res "@extra" = JStr id -> allows id.

(** A step that registers or answers requests only under such ids.  A
    message the loop receives is routed after its keys are renamed, by
    [deepRenameKey] or by [deepRenameKey_]. *)
Definition step_allowed {imports : Imports} (allows : string -> Prop)
    (step : Step) : Prop :=
  match step with
  | StepLoop (Ok res) =>
      message_allowed allows (deepRenameKey "@type" "_" res)
      /\ message_allowed allows (deepRenameKey_ "@type" "_" res)
  | StepRoute res => message_allowed allows res
  | StepInvoke id _ => allows id
  | _ => True
  end.

(** On an instance that is not initialized: the part of [_init] that
    creates the engine client. *)
Definition keeps_fresh {A : Type} (R : Client -> Client -> Prop) (m : M A) : Prop :=
  forall s, _initialized s = false ->
            R s (snd (m s)) /\ _initialized (snd (m s)) = false.

(** The budget of [auth-needed] publications is kept. *)
Definition budget_kept (s s1 : Client) : Prop :=
  auth_needed_budget s1 = auth_needed_budget s.

(** An initialized instance stays initialized, and one that moreover
    holds no engine client stays without one and calls the engine no
    more. *)
Definition stays_inert (s s1 : Client) : Prop :=
  _initialized s = true ->
  _initialized s1 = true
  /\ (_client s = None ->
      _client s1 = None /\ engine_calls (trace s1) = engine_calls (trace s)).

(** The [login] promises settled since, and the one settlement still to
    come while the login gate is not done. *)
Definition login_outstanding (s : Client) : nat :=
  if TdlDeferred.isDone (_loginDefer s) then 0 else 1.

Definition login_kept (s s1 : Client) : Prop :=
  exists more,
    login_settlements (trace s1) = login_settlements (trace s) ++ more
    /\ length more + login_outstanding s1 = login_outstanding s.

(** The entry of the pending requests under [id] is what it was. *)
Definition entry_kept (id : string) (s s1 : Client) : Prop :=
  _fetching s1 !! id = _fetching s !! id.

(** The options and the engine binding of the instance are what they
    were. *)
Definition configuration_kept (s s1 : Client) : Prop :=
  _options s1 = _options s /\ _tdlib s1 = _tdlib s.

(** * Properties *)

(** ** TdlDeferred *)

Module DeferredFacts.
Import TdlDeferred.

Lemma resolve_unset (result : JValue) (d : t) :
  _innerDefer d = None -> resolve result d = (d, []).
Proof.
  intros Hnone. unfold resolve, isDeferSet. rewrite Hnone.
  now rewrite orb_true_r.
Qed.

Lemma reject_unset (error : Thrown) (d : t) :
  _innerDefer d = None -> reject error d = (d, []).
Proof.
  intros Hnone. unfold reject, isDeferSet. rewrite Hnone.
  now rewrite orb_true_r.
Qed.

Lemma step_done (o : Op) (d : t) :
  _done d = true -> outcome_of o <> None -> step o d = (d, []).
Proof.
  intros Hdone Hsettle.
  destruct o as [r | e | defer]; cbn in *; try congruence.
  - unfold resolve. now rewrite Hdone.
  - unfold reject. now rewrite Hdone.
Qed.

Lemma step_fresh (o : Op) (out : Outcome) (d : t) (defer : DeferredPromise) :
  _innerDefer d = Some defer -> _done d = false -> outcome_of o = Some out ->
  step o d = (mk (Some defer) true, [(defer, out)]).
Proof.
  intros Hset Hdone Hout.
  destruct o as [r | e | defer']; cbn in *; try discriminate;
    injection Hout as <-.
  - unfold resolve, isDeferSet. now rewrite Hdone, Hset.
  - unfold reject, isDeferSet. now rewrite Hdone, Hset.
Qed.

Lemma run_done (ops : list Op) (d : t) :
  _done d = true -> Forall (fun o => outcome_of o <> None) ops ->
  run ops d = (d, []).
Proof.
  intros Hdone Hall. induction Hall as [| o ops Ho _ IH]; [reflexivity |].
  cbn [run]. rewrite (step_done o d Hdone Ho), IH. reflexivity.
Qed.

End DeferredFacts.

(** C3.  On a gate with a resolver attached, a sequence of [resolve] and
    [reject] calls calls the resolver at most once: if the gate had not
    fired, exactly the first call of the sequence reaches the resolver,
    with that call's value, and the gate and the calls made are the same
    whatever calls follow it; if the gate had fired already, no call of
    the sequence does anything. *)
Theorem deferred_first_call_wins :
  forall (d : TdlDeferred.t) (defer : TdlDeferred.DeferredPromise)
         (ops : list TdlDeferred.Op),
    TdlDeferred._innerDefer d = Some defer ->
    Forall (fun o => TdlDeferred.outcome_of o <> None) ops ->
    TdlDeferred.run ops d =
      match ops with
      | [] => (d, [])
      | first :: _ =>
          if TdlDeferred._done d then (d, [])
          else (TdlDeferred.mk (Some defer) true,
                match TdlDeferred.outcome_of first with
                | Some o => [(defer, o)]
                | None => []
                end)
      end.
Proof.
  intros d defer ops Hset Hall.
  destruct Hall as [| first later Hfirst Hlater]; [reflexivity |].
  destruct (TdlDeferred._done d) eqn:Hdone.
  - apply DeferredFacts.run_done; [assumption | now constructor].
  - destruct (TdlDeferred.outcome_of first) as [o |] eqn:Hout; [| congruence].
    cbn [TdlDeferred.run].
    rewrite (DeferredFacts.step_fresh first o d defer Hset Hdone Hout).
    rewrite DeferredFacts.run_done; [reflexivity | reflexivity | assumption].
Qed.

Lemma deferred_first_call_wins_witness :
  TdlDeferred.run
    [TdlDeferred.OpResolve (JStr "a"); TdlDeferred.OpReject (JsError "b");
     TdlDeferred.OpResolve (JStr "c")]
    (TdlDeferred.mk (Some 4) false)
  = (TdlDeferred.mk (Some 4) true, [(4, Resolved (JStr "a"))]).
Proof.
  apply (deferred_first_call_wins (TdlDeferred.mk (Some 4) false) 4).
  - reflexivity.
  - repeat constructor; discriminate.
Defined.

(** C4, as the code has it.  On a gate with no resolver registered,
    [resolve] and [reject] do nothing: the gate is unchanged (it does not
    become done) and the outcome is dropped.  A resolver registered
    afterwards is not called by the registration; on a gate that has not
    fired it is called by the next [resolve] or [reject], once, with the
    value of that call. *)
Theorem deferred_unset_drops_outcome :
  forall (d : TdlDeferred.t) (early next : TdlDeferred.Op) (o : Outcome)
         (defer : TdlDeferred.DeferredPromise),
    TdlDeferred._innerDefer d = None ->
    TdlDeferred.outcome_of early <> None ->
    TdlDeferred.outcome_of next = Some o ->
    TdlDeferred.step early d = (d, [])
    /\ TdlDeferred.run [early; TdlDeferred.OpSetDefer defer] d
       = (TdlDeferred.setDefer defer d, [])
    /\ (TdlDeferred._done d = false ->
        TdlDeferred.run [early; TdlDeferred.OpSetDefer defer; next] d
        = (TdlDeferred.mk (Some defer) true, [(defer, o)])).
Proof.
  intros d early next o defer Hnone Hearly Hnext.
  assert (Hdrop : TdlDeferred.step early d = (d, [])).
  { destruct early; cbn in *; try congruence;
      auto using DeferredFacts.resolve_unset, DeferredFacts.reject_unset. }
  repeat split.
  - exact Hdrop.
  - cbn [TdlDeferred.run]. rewrite Hdrop. reflexivity.
  - intros Hdone. cbn [TdlDeferred.run]. rewrite Hdrop.
    cbn [TdlDeferred.step].
    rewrite (DeferredFacts.step_fresh next o (TdlDeferred.setDefer defer d) defer);
      auto.
Qed.

Lemma deferred_unset_drops_outcome_witness :
  TdlDeferred.step (TdlDeferred.OpResolve (JStr "early")) TdlDeferred.new
  = (TdlDeferred.new, [])
  /\ TdlDeferred.run [TdlDeferred.OpResolve (JStr "early"); TdlDeferred.OpSetDefer 3]
       TdlDeferred.new
     = (TdlDeferred.setDefer 3 TdlDeferred.new, [])
  /\ (TdlDeferred._done TdlDeferred.new = false ->
      TdlDeferred.run
        [TdlDeferred.OpResolve (JStr "early"); TdlDeferred.OpSetDefer 3;
         TdlDeferred.OpReject (JsError "late")]
        TdlDeferred.new
      = (TdlDeferred.mk (Some 3) true, [(3, Rejected (JsError "late"))])).
Proof.
  apply (deferred_unset_drops_outcome TdlDeferred.new
           (TdlDeferred.OpResolve (JStr "early"))
           (TdlDeferred.OpReject (JsError "late"))).
  - reflexivity.
  - discriminate.
  - reflexivity.
Defined.

(** C4 fails as stated: [resolve] on a new gate, with no resolver
    registered, leaves the gate not done, and registering a resolver
    afterwards calls nothing: the outcome is lost, not held. *)
Lemma deferred_outcome_not_held :
  TdlDeferred.isDone
    (fst (TdlDeferred.resolve (JStr "early") TdlDeferred.new)) = false
  /\ TdlDeferred.run
       [TdlDeferred.OpResolve (JStr "early"); TdlDeferred.OpSetDefer 3]
       TdlDeferred.new
     = (TdlDeferred.mk (Some 3) false, []).
Proof. split; reflexivity. Qed.

(** ** The constructor *)

Section ConstructorFacts.

Context {imports : Imports}.

(** C10.  When neither [options.apiId] nor
    [options.tdlibParameters.api_id] is given, or neither
    [options.apiHash] nor [options.tdlibParameters.api_hash] is, the
    constructor throws a [TypeError]: no instance is returned.  The
    constructor has no access to an engine handle, so nothing has been
    asked of the engine. *)
Theorem constructor_requires_credentials :
  forall (tdlibInstance : ITDLibJSON) (options : JValue),
    (get options "apiId" = JUndefined
     /\ opt_chain (get options "tdlibParameters") "api_id" = JUndefined)
    \/ (get options "apiHash" = JUndefined
        /\ opt_chain (get options "tdlibParameters") "api_hash" = JUndefined) ->
    (exists msg, Client_new tdlibInstance options = Throw (JsTypeError msg))
    /\ (forall c, Client_new tdlibInstance options <> Ok c).
Proof.
  intros tdlibInstance options Hmissing.
  assert (Hthrow : exists msg,
             Client_new tdlibInstance options = Throw (JsTypeError msg)).
  { unfold Client_new.
    set (opts := match options with JUndefined => JObj [] | _ => options end).
    assert (Hget : forall k, get opts k = get options k)
      by (intros k; subst opts; destruct options; reflexivity).
    destruct (nullish opts); [eauto |].
    rewrite !Hget.
    destruct Hmissing as [[Hid Hpid] | [Hhash Hphash]].
    - rewrite Hid, Hpid. cbn. eauto.
    - rewrite Hhash, Hphash. cbn.
      destruct (negb (truthy (get options "apiId")) && _); eauto. }
  split; [exact Hthrow |].
  destruct Hthrow as [msg Hmsg]. intros c. rewrite Hmsg. discriminate.
Qed.

End ConstructorFacts.

Lemma constructor_requires_credentials_witness :
  (exists msg,
      Client_new (imports := sample_imports) working_tdlib
        (JObj [("apiId", JNum 2222)])
      = Throw (JsTypeError msg))
  /\ (forall c,
         Client_new (imports := sample_imports) working_tdlib
           (JObj [("apiId", JNum 2222)])
         <> Ok c).
Proof.
  apply (constructor_requires_credentials (imports := sample_imports)).
  right. split; reflexivity.
Defined.

(** ** Frame reasoning: what a method leaves alone *)

Lemma updates_of_app (t1 t2 : list Effect) :
  updates_of (t1 ++ t2) = updates_of t1 ++ updates_of t2.
Proof.
  induction t1 as [| e t1 IH]; [reflexivity |].
  destruct e as [| | | | | ev | |  |]; cbn; try exact IH.
  destruct ev; cbn; rewrite ?IH; reflexivity.
Qed.

Lemma errors_of_app (t1 t2 : list Effect) :
  errors_of (t1 ++ t2) = errors_of t1 ++ errors_of t2.
Proof.
  induction t1 as [| e t1 IH]; [reflexivity |].
  destruct e as [| | | | | ev | |  |]; cbn; try exact IH.
  destruct ev; cbn; rewrite ?IH; reflexivity.
Qed.

Lemma sends_of_app (t1 t2 : list Effect) :
  sends_of (t1 ++ t2) = sends_of t1 ++ sends_of t2.
Proof.
  induction t1 as [| e t1 IH]; [reflexivity |].
  destruct e; cbn; rewrite ?IH; reflexivity.
Qed.

Lemma invoke_settlements_app (t1 t2 : list Effect) :
  invoke_settlements (t1 ++ t2) = invoke_settlements t1 ++ invoke_settlements t2.
Proof.
  induction t1 as [| e t1 IH]; [reflexivity |].
  destruct e as [| | | | | | p o |  |]; cbn; try exact IH.
  destruct p; cbn; rewrite ?IH; reflexivity.
Qed.

(** A gate only calls the resolving functions of its own promise. *)
Lemma settled_views (mk : nat -> Promise) (calls : list TdlDeferred.Call) :
  (forall n m, mk n <> InvokePromise m) ->
  updates_of (settled mk calls) = []
  /\ errors_of (settled mk calls) = []
  /\ sends_of (settled mk calls) = []
  /\ invoke_settlements (settled mk calls) = [].
Proof.
  intros Hmk. induction calls as [| [n o] calls IH]; [now repeat split |].
  destruct IH as (IHu & IHe & IHs & IHi). cbn.
  repeat split; try assumption.
  destruct (mk n) eqn:Hn; try assumption. now apply Hmk in Hn.
Qed.

Section Respects.

Context {B : Type} (view : Client -> B).

Lemma respects_ret {A : Type} (a : A) : respects view (ret a).
Proof. intros s. reflexivity. Qed.

Lemma respects_throw {A : Type} (e : Thrown) : respects view (throw (A := A) e).
Proof. intros s. reflexivity. Qed.

Lemma respects_lift {A : Type} (r : Res A) : respects view (lift r).
Proof. intros s. reflexivity. Qed.

Lemma respects_gets {A : Type} (f : Client -> A) : respects view (gets f).
Proof. intros s. reflexivity. Qed.

Lemma respects_bind {A C : Type} (m : M A) (k : A -> M C) :
  respects view m -> (forall a, respects view (k a)) -> respects view (bind m k).
Proof.
  intros Hm Hk s. unfold bind. specialize (Hm s).
  destruct (m s) as [[a | e] s1]; cbn in *.
  - now rewrite Hk.
  - exact Hm.
Qed.

Lemma respects_try_catch {A : Type} (m : M A) (h : Thrown -> M A) :
  respects view m -> (forall e, respects view (h e)) -> respects view (try_catch m h).
Proof.
  intros Hm Hh s. unfold try_catch. specialize (Hm s).
  destruct (m s) as [[a | e] s1]; cbn in *.
  - exact Hm.
  - now rewrite Hh.
Qed.

Lemma respects_modify (f : Client -> Client) :
  (forall s, view (f s) = view s) -> respects view (modify f).
Proof. intros Hf s. apply Hf. Qed.

End Respects.

Lemma quiet_trace (s : Client) (t : list Effect) :
  updates_of t = [] -> invoke_settlements t = [] ->
  quiet (set_trace (trace s ++ t) s) = quiet s.
Proof.
  intros Hu Hi. unfold quiet. cbn.
  now rewrite updates_of_app, invoke_settlements_app, Hu, Hi, !app_nil_r.
Qed.

Lemma quiet_log (e : Effect) : quiet_effect e = true -> respects quiet (log e).
Proof.
  intros He s. unfold log, modify. cbn [snd].
  apply quiet_trace.
  - destruct e as [| | | | | ev | |  |]; try reflexivity. now destruct ev.
  - destruct e as [| | | | | | p o |  |]; try reflexivity. now destruct p.
Qed.

Create HintDb respects discriminated.

#[local] Hint Resolve respects_ret respects_throw respects_lift respects_gets : respects.

Ltac respects_step :=
  lazymatch goal with
  | |- respects _ (bind _ _) => apply respects_bind; [ | intros ? ]
  | |- respects _ (try_catch _ _) => apply respects_try_catch; [ | intros ? ]
  | |- respects _ (ret _) => apply respects_ret
  | |- respects _ (throw _) => apply respects_throw
  | |- respects _ (lift _) => apply respects_lift
  | |- respects _ (gets _) => apply respects_gets
  | |- respects _ (when ?b _) => destruct b; unfold when
  | |- respects _ (if ?b then _ else _) => destruct b
  | |- respects _ (match ?x with _ => _ end) => destruct x
  | |- respects _ (log _) => apply quiet_log; reflexivity
  | |- respects _ (modify _) => apply respects_modify; intros ?; reflexivity
  | |- _ => solve [auto with respects]
  end.

Ltac respects_auto := cbv zeta; repeat respects_step.

Section QuietMethods.

Context {imports : Imports}.

Lemma quiet_gate (mk : nat -> Promise) (s : Client) (calls : list TdlDeferred.Call) :
  (forall n m, mk n <> InvokePromise m) ->
  quiet (set_trace (trace s ++ settled mk calls) s) = quiet s.
Proof.
  intros Hmk. destruct (settled_views mk calls Hmk) as (Hu & _ & _ & Hi).
  now apply quiet_trace.
Qed.

Lemma quiet_connectDefer_resolve : respects quiet connectDefer_resolve.
Proof.
  intros s. unfold connectDefer_resolve.
  destruct (TdlDeferred.resolve _ _) as [d calls]. cbn [snd].
  now rewrite <- (quiet_gate ConnectPromise s calls).
Qed.

Lemma quiet_connectDefer_reject (err : Thrown) : respects quiet (connectDefer_reject err).
Proof.
  intros s. unfold connectDefer_reject.
  destruct (TdlDeferred.reject _ _) as [d calls]. cbn [snd].
  now rewrite <- (quiet_gate ConnectPromise s calls).
Qed.

Lemma quiet_loginDefer_resolve : respects quiet loginDefer_resolve.
Proof.
  intros s. unfold loginDefer_resolve.
  destruct (TdlDeferred.resolve _ _) as [d calls]. cbn [snd].
  now rewrite <- (quiet_gate LoginPromise s calls).
Qed.

Lemma quiet_loginDefer_reject (err : Thrown) : respects quiet (loginDefer_reject err).
Proof.
  intros s. unfold loginDefer_reject.
  destruct (TdlDeferred.reject _ _) as [d calls]. cbn [snd].
  now rewrite <- (quiet_gate LoginPromise s calls).
Qed.

Hint Resolve quiet_connectDefer_resolve quiet_connectDefer_reject
  quiet_loginDefer_resolve quiet_loginDefer_reject : respects.

Lemma quiet_run_once_auth_needed (listeners : list (Res StrictLoginDetails)) :
  respects quiet (run_once_auth_needed listeners).
Proof.
  induction listeners as [| l listeners IH]; cbn [run_once_auth_needed];
    respects_auto.
Qed.

Lemma quiet_run_once_destroy (listeners : list nat) :
  respects quiet (run_once_destroy listeners).
Proof.
  induction listeners as [| l listeners IH]; cbn [run_once_destroy];
    respects_auto.
Qed.

Hint Resolve quiet_run_once_auth_needed quiet_run_once_destroy : respects.

Lemma quiet_emit (event : Event) :
  (forall u, event <> EvUpdate u) -> respects quiet (emit event).
Proof.
  intros Hev. unfold emit. apply respects_bind.
  - apply quiet_log. destruct event; try reflexivity. now elim (Hev update).
  - intros _. destruct event; respects_auto.
Qed.

Lemma quiet_catchError (err : Thrown) : respects quiet (_catchError err).
Proof.
  unfold _catchError. respects_auto. now apply quiet_emit.
Qed.

Lemma quiet_rejectConnectAndLogin (err : Thrown) :
  respects quiet (_rejectConnectAndLogin err).
Proof. unfold _rejectConnectAndLogin. respects_auto. Qed.

Lemma quiet_send (request : JValue) : respects quiet (_send request).
Proof. unfold _send. respects_auto. Qed.

Lemma quiet_sendTdl (request : list (string * JValue)) :
  respects quiet (_sendTdl request).
Proof. unfold _sendTdl. apply quiet_send. Qed.

Lemma quiet_resume : respects quiet resume.
Proof. unfold resume. respects_auto. Qed.

Hint Resolve quiet_catchError quiet_rejectConnectAndLogin quiet_send
  quiet_sendTdl quiet_resume : respects.

Lemma quiet_destroy : respects quiet destroy.
Proof. unfold destroy. respects_auto. now apply quiet_emit. Qed.

Lemma quiet_authHasNeeded : respects quiet _authHasNeeded.
Proof. unfold _authHasNeeded. respects_auto. now apply quiet_emit. Qed.

Lemma quiet_call {A : Type} (c : Callback) (r : Res A) : respects quiet (call c r).
Proof. unfold call. respects_auto. Qed.

Lemma quiet_option_read (name : string) : respects quiet (option_read name).
Proof. unfold option_read. respects_auto. Qed.

Hint Resolve quiet_destroy quiet_authHasNeeded quiet_call quiet_option_read : respects.

Lemma quiet_handleAuth_login (authorizationState : JValue) :
  respects quiet (_handleAuth_login authorizationState).
Proof. unfold _handleAuth_login. respects_auto. Qed.

Hint Resolve quiet_handleAuth_login : respects.

Lemma quiet_handleAuth (update : JValue) : respects quiet (_handleAuth update).
Proof. unfold _handleAuth. respects_auto. now apply quiet_emit. Qed.

Lemma quiet_emitErrWithoutExtra (error : JValue) :
  respects quiet (_emitErrWithoutExtra error).
Proof. unfold _emitErrWithoutExtra. apply quiet_catchError. Qed.

Hint Resolve quiet_handleAuth quiet_emitErrWithoutExtra : respects.

Lemma quiet_handleUserError (error : JValue) (loginDetails : LoginUser) :
  respects quiet (_handleUserError error loginDetails).
Proof. unfold _handleUserError. respects_auto. Qed.

Lemma quiet_handleBotError (error : JValue) (loginDetails : LoginBot) :
  respects quiet (_handleBotError error loginDetails).
Proof. unfold _handleBotError. respects_auto. Qed.

End QuietMethods.

(** Projections of [quiet]. *)
Section QuietProjections.

Context {A : Type} (m : M A).

Lemma quiet_updates : respects quiet m -> respects (fun s => updates_of (trace s)) m.
Proof. intros H s. specialize (H s). unfold quiet in H. now injection H. Qed.

Lemma quiet_settlements :
  respects quiet m -> respects (fun s => invoke_settlements (trace s)) m.
Proof. intros H s. specialize (H s). unfold quiet in H. now injection H. Qed.

Lemma quiet_connectionState : respects quiet m -> respects _connectionState m.
Proof. intros H s. specialize (H s). unfold quiet in H. now injection H. Qed.

Lemma quiet_fetching : respects quiet m -> respects _fetching m.
Proof. intros H s. specialize (H s). unfold quiet in H. now injection H. Qed.

Lemma quiet_options : respects quiet m -> respects _options m.
Proof. intros H s. specialize (H s). unfold quiet in H. now injection H. Qed.

End QuietProjections.

#[local] Hint Resolve quiet_catchError quiet_rejectConnectAndLogin quiet_send
  quiet_sendTdl quiet_resume quiet_destroy quiet_authHasNeeded quiet_call
  quiet_option_read quiet_handleAuth_login quiet_handleAuth
  quiet_emitErrWithoutExtra quiet_handleUserError quiet_handleBotError
  quiet_connectDefer_resolve quiet_connectDefer_reject
  quiet_loginDefer_resolve quiet_loginDefer_reject
  quiet_run_once_auth_needed quiet_run_once_destroy : respects.

(** A leaf of a method body, for a view that is a field other than the
    trace or a view of the trace. *)
Ltac respects_leaf :=
  first
    [ solve [auto with respects]
    | solve [apply quiet_updates; auto with respects]
    | solve [apply quiet_settlements; auto with respects]
    | solve [apply quiet_connectionState; auto with respects]
    | solve [apply quiet_fetching; auto with respects]
    | solve [apply quiet_options; auto with respects]
    | solve [unfold log, fetching_delete; apply respects_modify; intros ?; cbn;
             rewrite ?updates_of_app, ?invoke_settlements_app; cbn;
             rewrite ?app_nil_r; reflexivity ]
    | solve [unfold fetching_delete; apply respects_modify; intros ?;
             match goal with
             | |- context [match ?x with _ => _ end] => destruct x
             end; reflexivity ] ].

Ltac respects_walk :=
  cbv zeta;
  repeat lazymatch goal with
    | |- respects _ (bind _ _) => apply respects_bind; [ | intros ? ]
    | |- respects _ (try_catch _ _) => apply respects_try_catch; [ | intros ? ]
    | |- respects _ (when ?b _) => destruct b; unfold when
    | |- respects _ (if ?b then _ else _) => destruct b
    | |- respects _ (match ?x with _ => _ end) => destruct x
    | |- _ => respects_leaf
    end.

Section RouterFrames.

Context {imports : Imports}.

Lemma emit_plain (event : Event) (s : Client) :
  event <> EvAuthNeeded -> event <> EvDestroy ->
  emit event s = (Ok tt, set_trace (trace s ++ [Emit event]) s).
Proof. intros Ha Hd. destruct event; try reflexivity; congruence. Qed.

Lemma options_emit (event : Event) : respects _options (emit event).
Proof.
  unfold emit. apply respects_bind; [respects_leaf |].
  intros _. destruct event; respects_walk.
Qed.

Lemma fetching_emit (event : Event) : respects _fetching (emit event).
Proof.
  unfold emit. apply respects_bind; [respects_leaf |].
  intros _. destruct event; respects_walk.
Qed.

Lemma settlements_emit (event : Event) :
  respects (fun s => invoke_settlements (trace s)) (emit event).
Proof.
  unfold emit. apply respects_bind; [respects_leaf |].
  intros _. destruct event; respects_walk.
Qed.

Lemma connectionState_emit (event : Event) : respects _connectionState (emit event).
Proof.
  unfold emit. apply respects_bind; [respects_leaf |].
  intros _. destruct event; respects_walk.
Qed.

Hint Resolve options_emit fetching_emit settlements_emit connectionState_emit : respects.

Lemma options_handleUpdate (update : JValue) : respects _options (_handleUpdate update).
Proof. unfold _handleUpdate. respects_walk. Qed.

Lemma fetching_handleUpdate (update : JValue) : respects _fetching (_handleUpdate update).
Proof. unfold _handleUpdate. respects_walk. Qed.

Lemma settlements_handleUpdate (update : JValue) :
  respects (fun s => invoke_settlements (trace s)) (_handleUpdate update).
Proof. unfold _handleUpdate. respects_walk. Qed.

Lemma options_handleError (error : JValue) : respects _options (_handleError error).
Proof. unfold _handleError, fetching_get. respects_walk. Qed.

Hint Resolve options_handleUpdate fetching_handleUpdate settlements_handleUpdate options_handleError : respects.

Lemma options_route (res : JValue) : respects _options (route res).
Proof. unfold route, _handleResponse, fetching_get. respects_walk. Qed.

End RouterFrames.

#[local] Hint Resolve options_emit fetching_emit settlements_emit
  connectionState_emit options_handleUpdate fetching_handleUpdate
  settlements_handleUpdate options_handleError options_route : respects.

Section Stepping.
Context {imports : Imports}.

Lemma bind_gets {A C : Type} (f : Client -> A) (k : A -> M C) (s : Client) :
  bind (gets f) k s = k (f s) s.
Proof. reflexivity. Qed.

Lemma bind_modify {C : Type} (f : Client -> Client) (k : unit -> M C) (s : Client) :
  bind (modify f) k s = k tt (f s).
Proof. reflexivity. Qed.

Lemma bind_log {C : Type} (e : Effect) (k : unit -> M C) (s : Client) :
  bind (log e) k s = k tt (set_trace (trace s ++ [e]) s).
Proof. reflexivity. Qed.

Lemma bind_ret {A C : Type} (a : A) (k : A -> M C) (s : Client) :
  bind (ret a) k s = k a s.
Proof. reflexivity. Qed.

Lemma bind_lift_ok {A C : Type} (a : A) (k : A -> M C) (s : Client) :
  bind (lift (Ok a)) k s = k a s.
Proof. reflexivity. Qed.

Lemma bind_emit_plain {C : Type} (event : Event) (k : unit -> M C) (s : Client) :
  event <> EvAuthNeeded -> event <> EvDestroy ->
  bind (emit event) k s = k tt (set_trace (trace s ++ [Emit event]) s).
Proof. intros Ha Hd. unfold bind at 1. now rewrite emit_plain. Qed.

Lemma bind_fetching_get {C : Type} (id : string) (k : option nat -> M C) (s : Client) :
  bind (fetching_get (JStr id)) k s = k (_fetching s !! id) s.
Proof. reflexivity. Qed.

Lemma handleResponse_matched (res : JValue) (id : string) (p : nat) (s : Client) :
  get res "@extra" = JStr id ->
  _fetching s !! id = Some p ->
  _handleResponse res s
  = (Ok tt,
     set_fetching (delete id (_fetching s))
       (set_trace
          (trace s ++ [Emit (EvResponse res);
                       Settle (InvokePromise p) (correlated_outcome res)]) s)).
Proof.
  intros Hid Hpending.
  unfold _handleResponse, _handleError, correlated_outcome.
  rewrite bind_emit_plain by discriminate. rewrite Hid.
  destruct (str_eq (get res "_") "error");
    rewrite bind_fetching_get; cbn [_fetching set_trace]; rewrite Hpending;
    rewrite bind_log; cbn; rewrite <- app_assoc; reflexivity.
Qed.

(** C7.  Let two messages, each a response or an error, carry the id of
    one pending request.  Routing the first calls the resolving function
    of that request once (resolve for a response, reject for an error,
    with the message less its correlation field) and removes the entry.
    Routing the second calls no resolving function of any request and
    leaves the map as it is: for the pending requests it is as if only
    the first had been routed.  (The router goes on to treat the second
    message as an update or as an uncorrelated error.) *)
Theorem correlator_settles_once :
  forall (s : Client) (first second : JValue) (id : string) (p : nat),
    get first "@extra" = JStr id ->
    get second "@extra" = JStr id ->
    _fetching s !! id = Some p ->
    let s1 := snd (_handleResponse first s) in
    let s2 := snd (_handleResponse second s1) in
    invoke_settlements (trace s1)
      = invoke_settlements (trace s) ++ [(p, correlated_outcome first)]
    /\ _fetching s1 = delete id (_fetching s)
    /\ invoke_settlements (trace s2) = invoke_settlements (trace s1)
    /\ _fetching s2 = _fetching s1.
Proof.
  intros s first second id p Hfirst Hsecond Hpending s1 s2.
  assert (H1 : invoke_settlements (trace s1)
               = invoke_settlements (trace s) ++ [(p, correlated_outcome first)]
               /\ _fetching s1 = delete id (_fetching s)).
  { subst s1. rewrite (handleResponse_matched first id p s Hfirst Hpending).
    cbn. rewrite invoke_settlements_app. split; reflexivity. }
  destruct H1 as [Hsettled Hremoved].
  split; [exact Hsettled |]. split; [exact Hremoved |].
  assert (Hgone : _fetching s1 !! id = None)
    by (rewrite Hremoved; apply lookup_delete_eq).
  clearbody s1. subst s2.
  assert (Hrest : forall s',
             _fetching s' = _fetching s1 ->
             invoke_settlements (trace (snd (_handleResponse second s')))
               = invoke_settlements (trace s')
             /\ _fetching (snd (_handleResponse second s')) = _fetching s').
  { intros s' Hsame. unfold _handleResponse, _handleError.
    rewrite Hsecond, bind_emit_plain by discriminate.
    set (s'' := set_trace _ s').
    assert (Hu : invoke_settlements (trace s'') = invoke_settlements (trace s'))
      by (subst s''; cbn; rewrite invoke_settlements_app; cbn; apply app_assoc || apply app_nil_r).
    assert (Hf : _fetching s'' = _fetching s') by reflexivity.
    rewrite <- Hu, <- Hf.
    assert (Hnone : _fetching s'' !! id = None) by (rewrite Hf, Hsame; exact Hgone).
    clearbody s''.
    destruct (str_eq (get second "_") "error");
      rewrite bind_fetching_get, Hnone;
      (split;
       [ match goal with
         | |- context [snd (?m s'')] =>
             let H := fresh in
             assert (H : respects (fun s => invoke_settlements (trace s)) m)
               by respects_walk;
             exact (H s'')
         end
       | match goal with
         | |- context [snd (?m s'')] =>
             let H := fresh in
             assert (H : respects _fetching m) by respects_walk;
             exact (H s'')
         end ]). }
  apply Hrest. reflexivity.
Qed.
End Stepping.

(** ** The message router *)

Lemma prop_ok (v : JValue) (k : string) :
  nullish v = false -> prop v k = Ok (get v k).
Proof. intros H. unfold prop. now rewrite H. Qed.

Section Preserves.

Context (P : Client -> Prop).

Lemma preserves_bind {A C : Type} (m : M A) (k : A -> M C) :
  preserves P m -> (forall a, preserves P (k a)) -> preserves P (bind m k).
Proof.
  intros Hm Hk s Hs. unfold bind. specialize (Hm s Hs).
  destruct (m s) as [[a | e] s1]; cbn in *.
  - now apply Hk.
  - exact Hm.
Qed.

Lemma preserves_try_catch {A : Type} (m : M A) (h : Thrown -> M A) :
  preserves P m -> (forall e, preserves P (h e)) -> preserves P (try_catch m h).
Proof.
  intros Hm Hh s Hs. unfold try_catch. specialize (Hm s Hs).
  destruct (m s) as [[a | e] s1]; cbn in *.
  - exact Hm.
  - now apply Hh.
Qed.

End Preserves.

Lemma respects_connectionState_set {A : Type} (m : M A) :
  respects _connectionState m -> preserves connectionState_set m.
Proof. intros H s Hs. unfold connectionState_set. now rewrite H. Qed.

Ltac preserves_walk :=
  cbv zeta;
  repeat lazymatch goal with
    | |- preserves _ (bind _ _) => apply preserves_bind; [ | intros ? ]
    | |- preserves _ (try_catch _ _) => apply preserves_try_catch; [ | intros ? ]
    | |- preserves _ (when ?b _) => destruct b; unfold when
    | |- preserves _ (if ?b then _ else _) => destruct b eqn:?
    | |- preserves _ (match ?x with _ => _ end) => destruct x
    | |- preserves connectionState_set (modify (set_connectionState _)) => idtac
    | |- preserves connectionState_set _ =>
        first [ solve [apply respects_connectionState_set; respects_walk]
              | idtac ]
    end.

Section RouterFacts.

Context {imports : Imports}.

Lemma handleUpdate_connectionState_set (update : JValue) :
  well_formed update = true ->
  preserves connectionState_set (_handleUpdate update).
Proof.
  intros Hwf. unfold _handleUpdate. preserves_walk.
  intros s _. unfold connectionState_set. cbn.
  unfold well_formed in Hwf.
  match goal with H : str_eq _ "updateConnectionState" = true |- _ =>
    rewrite H in Hwf end.
  now apply negb_true_iff in Hwf.
Qed.

Lemma route_connectionState_set (res : JValue) :
  well_formed res = true ->
  preserves connectionState_set (route res).
Proof.
  intros Hwf. unfold route, _handleResponse, _handleError, fetching_get.
  preserves_walk.
  now apply handleUpdate_connectionState_set.
Qed.

Lemma route_all_connectionState_set (msgs : list JValue) (s : Client) :
  Forall (fun res => well_formed res = true) msgs ->
  connectionState_set s ->
  connectionState_set (route_all msgs s).
Proof.
  intros Hall. revert s.
  induction Hall as [| res msgs Hres _ IH]; intros s Hs; [exact Hs |].
  cbn [route_all]. apply IH. now apply route_connectionState_set.
Qed.

Lemma route_all_options (msgs : list JValue) (s : Client) :
  _options (route_all msgs s) = _options s.
Proof.
  revert s. induction msgs as [| res msgs IH]; intros s; [reflexivity |].
  cbn [route_all]. rewrite IH. apply options_route.
Qed.

(** What [_handleUpdate] publishes as [update]. *)
Lemma handleUpdate_published (update : JValue) (s : Client) :
  well_formed update = true ->
  connectionState_set s ->
  updates_of (trace (snd (_handleUpdate update s)))
  = updates_of (trace s)
    ++ (if privileged update then [update]
        else if truthy (get (_options s) "skipOldUpdates")
                && str_eq (get (_connectionState s) "_") "connectionStateUpdating"
             then []
             else [update]).
Proof.
  intros Hwf Hcs. unfold _handleUpdate, privileged, well_formed in *.
  cbv zeta.
  destruct (str_eq (get update "_") "updateOption") eqn:Hopt.
  { rewrite bind_emit_plain by discriminate. cbn [orb].
    match goal with
    | |- context [snd (?m ?s')] =>
        let H := fresh in
        assert (H : respects (fun s => updates_of (trace s)) m) by respects_walk;
        rewrite (H s')
    end.
    cbn. now rewrite updates_of_app. }
  destruct (str_eq (get update "_") "updateConnectionState") eqn:Hconn.
  { rewrite bind_modify, emit_plain by discriminate.
    cbn. now rewrite updates_of_app. }
  destruct (str_eq (get update "_") "updateAuthorizationState") eqn:Hauth.
  { apply negb_true_iff in Hwf.
    rewrite (prop_ok _ _ Hwf), bind_lift_ok, bind_emit_plain by discriminate.
    match goal with
    | |- context [snd (?m ?s')] =>
        let H := fresh in
        assert (H : respects (fun s => updates_of (trace s)) m) by respects_walk;
        rewrite (H s')
    end.
    cbn. now rewrite updates_of_app. }
  cbn [orb]. unfold option_read. rewrite bind_gets.
  destruct (truthy (get (_options s) "skipOldUpdates")); cbn [andb].
  - unfold bind at 1. rewrite bind_gets, (prop_ok _ _ Hcs), bind_lift_ok.
    unfold ret at 1.
    destruct (str_eq (get (_connectionState s) "_") "connectionStateUpdating").
    + cbn. now rewrite app_nil_r.
    + rewrite emit_plain by discriminate. cbn. now rewrite updates_of_app.
  - rewrite bind_ret, emit_plain by discriminate. cbn. now rewrite updates_of_app.
Qed.

Lemma route_updates (res : JValue) (s : Client) :
  updates_of (trace (snd (route res s)))
  = updates_of (trace (snd (_handleResponse res s))).
Proof.
  unfold route, try_catch.
  destruct (_handleResponse res s) as [[a | e] s1]; [reflexivity |].
  cbn [snd]. apply (quiet_updates _ (quiet_catchError _)).
Qed.

Lemma handleResponse_update (res : JValue) (s : Client) :
  routed_as_update res s = true ->
  _handleResponse res s
  = _handleUpdate res (set_trace (trace s ++ [Emit (EvResponse res)]) s).
Proof.
  unfold routed_as_update, _handleResponse. intros Hrouted.
  apply andb_true_iff in Hrouted as [Herr Hid].
  apply negb_true_iff in Herr.
  rewrite bind_emit_plain, Herr by discriminate.
  destruct (get res "@extra") as [| | b | n | id | fields]; try reflexivity.
  apply andb_true_iff in Hid as [Hnone Hmagic].
  rewrite bind_fetching_get. cbn [_fetching set_trace str_eq].
  rewrite Hmagic.
  apply negb_true_iff, bool_decide_eq_false in Hnone.
  destruct (_fetching s !! id) eqn:Hlookup; [| reflexivity].
  elim Hnone. eauto.
Qed.

(** C2.  Let any sequence of well-formed messages have been routed, and
    let the next message be one that the router treats as an update.  If
    its kind is one of the three privileged ones it is published as an
    [update] event, whatever the options; otherwise it is published
    unless the [skipOldUpdates] option is set and the stored connection
    state is [connectionStateUpdating], in which case nothing is
    published. *)
Theorem privileged_updates_always_published :
  forall (before : list JValue) (update : JValue) (s : Client),
    Forall (fun res => well_formed res = true) (before ++ [update]) ->
    connectionState_set s ->
    let s1 := route_all before s in
    routed_as_update update s1 = true ->
    let s2 := snd (route update s1) in
    _options s1 = _options s
    /\ updates_of (trace s2)
       = updates_of (trace s1)
         ++ (if privileged update then [update]
             else if truthy (get (_options s) "skipOldUpdates")
                     && str_eq (get (_connectionState s1) "_") "connectionStateUpdating"
                  then []
                  else [update]).
Proof.
  intros before update s Hwf Hcs s1 Hrouted s2.
  apply Forall_app in Hwf as [Hbefore Hupdate].
  apply Forall_inv in Hupdate.
  assert (Hopts : _options s1 = _options s) by apply route_all_options.
  split; [exact Hopts |].
  assert (Hcs1 : connectionState_set s1)
    by now apply route_all_connectionState_set.
  subst s2. rewrite route_updates, (handleResponse_update _ _ Hrouted).
  rewrite handleUpdate_published; [| assumption | exact Hcs1].
  cbn [trace set_trace _options _connectionState].
  rewrite updates_of_app, Hopts. cbn. now rewrite app_nil_r.
Qed.

End RouterFacts.

(** ** The session controller *)

Section SessionFacts.

Context {imports : Imports}.

(** C8, as the code has it.  On a session that [connect] has
    initialised, [connect] returns a promise that it rejects at once: with
    "The client is already initialized" while the engine client is held,
    with "Cannot re-initialize a destroyed client" once it has been
    released.  Nothing else happens: the state is otherwise unchanged and
    the engine is not called. *)
Theorem connect_again_rejected :
  forall (s : Client),
    _initialized s = true ->
    connect s
    = (Ok (ConnectPromise (promises s)),
       set_trace
         (trace s
          ++ [Settle (ConnectPromise (promises s))
                (Rejected
                   (match _client s with
                    | Some _ => JsError "The client is already initialized"
                    | None => JsError "Cannot re-initialize a destroyed client"
                    end))])
         (set_promises (S (promises s)) s)).
Proof.
  intros s Hinit.
  unfold connect, new_promise, try_catch, bind, gets, log, modify, ret.
  cbn [_initialized set_promises]. rewrite Hinit.
  cbn [_client trace set_promises fst snd].
  destruct (_client s); reflexivity.
Qed.

(** [connect] initialises a session whose engine can be set up, and
    [destroy] keeps it initialised: these are the sessions the theorem
    above is about. *)
Lemma init_success (s : Client) (client : TDLibClient) :
  tdlib_create (_tdlib s) = Ok client ->
  (forall request, exists r, tdlib_execute (_tdlib s) None request = Ok r) ->
  exists s1,
    _init s = (Ok tt, s1)
    /\ _initialized s1 = true
    /\ _client s1 = Some client.
Proof.
  intros Hcreate Hexecute. unfold _init.
  match goal with
  | |- context [bind (try_catch ?m ?h) ?k s] =>
      assert (Hblock : exists sb,
                 m s = (Ok true, sb)
                 /\ _client sb = Some client
                 /\ _options sb = _options s)
  end.
  { unfold option_read. rewrite bind_gets.
    destruct (truthy (get (_options s) "useDefaultVerbosityLevel")); cbn [negb].
    - rewrite bind_ret, bind_log, bind_gets. cbn [_tdlib set_trace].
      rewrite Hcreate, bind_lift_ok, bind_modify. unfold ret.
      eexists. split; [reflexivity |]. split; reflexivity.
    - unfold bind at 1. rewrite bind_gets, bind_log, bind_gets.
      cbn [_tdlib set_trace].
      destruct (Hexecute (JObj [("@type", JStr "setLogVerbosityLevel");
                                ("new_verbosity_level",
                                 get (_options s) "verbosityLevel")]))
        as [r Hr].
      rewrite Hr, bind_lift_ok. unfold ret at 1.
      rewrite bind_log, bind_gets. cbn [_tdlib set_trace].
      rewrite Hcreate, bind_lift_ok, bind_modify. unfold ret.
      eexists. split; [reflexivity |]. split; reflexivity. }
  destruct Hblock as (sb & Hrun & Hclient & Hoptions).
  unfold bind at 1, try_catch. rewrite Hrun.
  rewrite bind_modify. unfold option_read. rewrite bind_gets.
  cbn [_options set_initialized]. rewrite Hoptions.
  destruct (truthy (get (_options s) "disableAuth")); unfold when.
  - unfold connectDefer_resolve, bind.
    cbn [_connectDefer set_initialized].
    destruct (TdlDeferred.resolve JUndefined (_connectDefer sb)) as [d calls].
    eexists. split; [reflexivity |]. split; [reflexivity | exact Hclient].
  - rewrite bind_ret. eexists. split; [reflexivity |].
    split; [reflexivity | exact Hclient].
Qed.

Lemma connect_initializes (s : Client) (client : TDLibClient) :
  _initialized s = false ->
  tdlib_create (_tdlib s) = Ok client ->
  (forall request, exists r, tdlib_execute (_tdlib s) None request = Ok r) ->
  _initialized (snd (connect s)) = true
  /\ _client (snd (connect s)) = Some client.
Proof.
  intros Hinit Hcreate Hexecute.
  assert (Hrun : exists s1,
             snd (connect s) = s1
             /\ _initialized s1 = true
             /\ _client s1 = Some client).
  { unfold connect. unfold bind at 1, new_promise.
    match goal with
    | |- context [bind (try_catch ?m ?h) ?k ?s0] =>
        destruct (init_success
                    (set_connectDefer
                       (TdlDeferred.setDefer (promises s) (_connectDefer s0)) s0)
                    client Hcreate Hexecute)
          as (s1 & Hrun & Hflag & Hclient);
        assert (Hinner : m s0 = (Ok tt, s1))
    end.
    { rewrite bind_gets. cbn [_initialized set_promises]. rewrite Hinit.
      rewrite bind_modify. exact Hrun. }
    unfold bind at 1. unfold try_catch. rewrite Hinner. cbn [snd ret].
    exists s1. auto. }
  destruct Hrun as (s1 & -> & Hflag & Hclient). auto.
Qed.

Lemma run_once_destroy_keeps_initialized (listeners : list nat) :
  respects _initialized (run_once_destroy listeners).
Proof.
  induction listeners as [| q rest IH]; cbn [run_once_destroy]; respects_walk.
Qed.

Lemma destroy_keeps_initialized : respects _initialized destroy.
Proof.
  unfold destroy, resume, emit. respects_walk.
  apply run_once_destroy_keeps_initialized.
Qed.

(** C6, as the code has it.  [invoke] never fails on account of its
    correlation id: it stores the new promise under the id, replacing the
    entry the id had, if any, settles no promise and publishes no error.
    The map holds one entry for the id afterwards, and the entries of
    other ids are as before. *)
Theorem invoke_registers :
  forall (s : Client) (id : string) (fields : list (string * JValue)),
    let s1 := snd (invoke id (JObj fields) s) in
    fst (invoke id (JObj fields) s) = Ok (InvokePromise (promises s))
    /\ _fetching s1 = <[id := promises s]> (_fetching s)
    /\ (forall other,
           _fetching s1 !! other
           = if decide (id = other) then Some (promises s)
             else _fetching s !! other)
    /\ invoke_settlements (trace s1) = invoke_settlements (trace s)
    /\ errors_of (trace s1) = errors_of (trace s).
Proof.
  intros s id fields s1.
  assert (Hrun : invoke id (JObj fields) s
                 = (Ok (InvokePromise (promises s)),
                    snd (_send (JObj (obj_set "@extra" (JStr id) fields))
                           (set_fetching (<[id := promises s]> (_fetching s))
                              (set_promises (S (promises s)) s))))).
  { unfold invoke, _send, new_promise, bind, gets, log, modify, ret.
    cbn [_client _fetching trace set_fetching set_promises set_trace fst snd].
    destruct (_client s); reflexivity. }
  subst s1. rewrite Hrun. cbn [fst snd]. split; [reflexivity |].
  assert (Hfetch : forall s0 request,
             _fetching (snd (_send request s0)) = _fetching s0)
    by (intros s0 request; apply (quiet_fetching _ (quiet_send request))).
  assert (Hsettle : forall s0 request,
             invoke_settlements (trace (snd (_send request s0)))
             = invoke_settlements (trace s0))
    by (intros s0 request; apply (quiet_settlements _ (quiet_send request))).
  rewrite Hfetch, Hsettle. cbn [_fetching trace set_fetching set_promises].
  repeat split.
  - intros other. apply lookup_insert.
  - unfold _send. rewrite bind_gets.
    destruct (_client _); [| reflexivity].
    cbn. rewrite errors_of_app. cbn. apply app_nil_r.
Qed.

(** The listeners that [close] left are called when [destroy] is
    published. *)
Lemma run_once_destroy_spec (listeners : list nat) (s : Client) :
  run_once_destroy listeners s
  = (Ok tt,
     match listeners with
     | [] => s
     | _ =>
         set_trace
           (trace s ++ map (fun p => Settle (ClosePromise p) (Resolved JUndefined))
                         listeners)
           (set_once_destroy [] s)
     end).
Proof.
  revert s. induction listeners as [| p rest IH]; intros s; [reflexivity |].
  cbn [run_once_destroy]. rewrite bind_modify, bind_log, IH.
  destruct rest; cbn; [reflexivity |].
  now rewrite <- app_assoc.
Qed.

End SessionFacts.

(** ** The authentication state machine *)

Section AuthFacts.

Context {imports : Imports}.

Lemma send_live (request : JValue) (client : TDLibClient) (s : Client) :
  _client s = Some client ->
  _send request s
  = (Ok tt,
     set_trace (trace s ++ [TdlibSend client (deepRenameKey "_" "@type" request)]) s).
Proof. intros Hclient. unfold _send. now rewrite bind_gets, Hclient. Qed.

Lemma bind_send_live {C : Type} (request : JValue) (client : TDLibClient)
      (k : unit -> M C) (s : Client) :
  _client s = Some client ->
  bind (_send request) k s
  = k tt (set_trace (trace s ++ [TdlibSend client (deepRenameKey "_" "@type" request)]) s).
Proof. intros Hclient. unfold bind at 1. now rewrite (send_live _ client). Qed.

(** C5, as the code has it.  On a session that holds an engine client
    and whose configuration is valid (the two directories resolve,
    [tdlibParameters] is an object without a [_] property), the
    authorization state [authorizationStateWaitTdlibParameters] makes
    [_handleAuth] send exactly one request, under the correlation id the
    client reserves for itself.  When the engine version is at least 1.8.6
    the request has the flattened shape and [resolve] is then called on
    the connect gate; otherwise the request has the legacy nested shape
    and the connect gate is left as it is. *)
Theorem handshake_on_wait_tdlib_parameters :
  forall (s : Client) (update : JValue) (client : TDLibClient)
         (database_directory files_directory : JValue),
    str_eq (get (get update "authorization_state") "_")
           "authorizationStateWaitTdlibParameters" = true ->
    _client s = Some client ->
    resolvePath (get (_options s) "databaseDirectory") = Ok database_directory ->
    resolvePath (get (_options s) "filesDirectory") = Ok files_directory ->
    nullish (get (_options s) "tdlibParameters") = false ->
    nullish (get (get (_options s) "tdlibParameters") "_") = true ->
    let newer := Version_gte (_version s) TDLIB_1_8_6 in
    let request :=
      if newer
      then flattened_handshake (_options s) database_directory files_directory
      else nested_handshake (_options s) database_directory files_directory in
    let gate :=
      if newer
      then TdlDeferred.resolve JUndefined (_connectDefer s)
      else (_connectDefer s, []) in
    exists s1,
      _handleAuth update s = (Ok tt, s1)
      /\ trace s1
         = trace s
           ++ [TdlibSend client (deepRenameKey "_" "@type" request)]
           ++ settled ConnectPromise (snd gate)
      /\ sends_of (trace s1)
         = sends_of (trace s) ++ [deepRenameKey "_" "@type" request]
      /\ _connectDefer s1 = fst gate.
Proof.
  intros s update client database_directory files_directory
         Hstate Hclient Hdb Hfiles Hparams Hunderscore newer request gate.
  assert (Htag : nullish (get update "authorization_state") = false).
  { destruct (get update "authorization_state"); try reflexivity;
      cbn in Hstate; discriminate. }
  unfold _handleAuth. cbv zeta.
  rewrite (prop_ok _ _ Htag), bind_lift_ok, Hstate, !bind_gets.
  subst request gate newer.
  destruct (Version_gte (_version s) TDLIB_1_8_6).
  - rewrite (prop_ok _ _ Hparams), bind_lift_ok, Hunderscore. cbn [negb].
    rewrite Hdb, bind_lift_ok, Hfiles, bind_lift_ok.
    unfold _sendTdl. rewrite (bind_send_live _ client) by assumption.
    unfold connectDefer_resolve. cbn [_connectDefer set_trace trace].
    destruct (TdlDeferred.resolve JUndefined (_connectDefer s)) as [d calls].
    eexists. split; [reflexivity |].
    cbn [trace set_trace set_connectDefer _connectDefer fst snd].
    destruct (settled_views ConnectPromise calls) as (_ & _ & Hs & _);
      [discriminate |].
    rewrite <- app_assoc, !sends_of_app, Hs. cbn.
    repeat split; reflexivity.
  - rewrite Hdb, bind_lift_ok, Hfiles, bind_lift_ok.
    unfold _sendTdl. rewrite (send_live _ client) by assumption.
    eexists. split; [reflexivity |].
    cbn [trace set_trace _connectDefer fst snd settled map].
    rewrite sends_of_app. auto.
Qed.

Lemma catchError_run (err : Thrown) (s : Client) :
  exists s1,
    _catchError err s = (Ok tt, s1)
    /\ trace s1
       = trace s
         ++ (if TdlDeferred.isDone (_connectDefer s)
                && TdlDeferred.isDone (_loginDefer s)
             then [Emit (EvError err)]
             else settled ConnectPromise
                    (snd (TdlDeferred.reject err (_connectDefer s)))
                  ++ settled LoginPromise
                       (snd (TdlDeferred.reject err (_loginDefer s)))).
Proof.
  unfold _catchError, TdlDeferred.isPending, TdlDeferred.isDone.
  rewrite !bind_gets.
  unfold TdlDeferred.reject at 1 2.
  destruct (TdlDeferred._done (_connectDefer s)) eqn:Hc;
    destruct (TdlDeferred._done (_loginDefer s)) eqn:Hl; cbn [negb andb orb when].
  - rewrite emit_plain by discriminate. eauto.
  - rewrite bind_ret. unfold loginDefer_reject.
    destruct (TdlDeferred.reject err (_loginDefer s)) as [d calls] eqn:Hr.
    unfold TdlDeferred.reject in Hr. rewrite Hl in Hr. cbn [orb] in Hr.
    rewrite Hr. eexists. split; [reflexivity |]. reflexivity.
  - unfold connectDefer_reject, bind.
    destruct (TdlDeferred.reject err (_connectDefer s)) as [d calls] eqn:Hr.
    unfold TdlDeferred.reject in Hr. rewrite Hc in Hr. cbn [orb] in Hr.
    rewrite Hr. unfold ret. eexists. split; [reflexivity |].
    cbn. now rewrite app_nil_r.
  - unfold connectDefer_reject, loginDefer_reject, bind.
    destruct (TdlDeferred.reject err (_connectDefer s)) as [d calls] eqn:Hr.
    unfold TdlDeferred.reject in Hr. rewrite Hc in Hr. cbn [orb] in Hr.
    rewrite Hr.
    cbn [_loginDefer set_trace set_connectDefer].
    destruct (TdlDeferred.reject err (_loginDefer s)) as [d' calls'] eqn:Hr'.
    unfold TdlDeferred.reject in Hr'. rewrite Hl in Hr'. cbn [orb] in Hr'.
    rewrite Hr'. eexists. split; [reflexivity |].
    cbn. now rewrite <- app_assoc.
Qed.

(** C1, as the code has it.  Let an error carry the correlation id the
    client reserves for itself, that id name no pending request, and the
    session hold an engine client and login details.  If the message of
    the error is in the row of the table for the kind of login, the
    handler calls the callback of that row once, with the retry flag
    [true], and, when the callback answers, sends one request carrying the
    answer, and that is all it does.  If the message is in no row, the
    handler sends nothing and passes the error, without its correlation
    field, to the general error path: when neither the connect gate nor
    the login gate is pending it is published once as [error]; otherwise
    [reject] is called with it on the pending gates and no [error] is
    published. *)
Theorem auth_error_retry_table :
  forall (s : Client) (error : JValue) (client : TDLibClient)
         (details : StrictLoginDetails),
    get error "@extra" = JStr TDL_MAGIC ->
    _fetching s !! TDL_MAGIC = None ->
    _client s = Some client ->
    _loginDetails s = Some details ->
    match retry_table details (get error "message") with
    | Some row =>
        forall answer,
          retry_answer row = Ok answer ->
          _handleError error s
          = (Ok tt,
             set_trace
               (trace s
                ++ [Called (retry_call row);
                    TdlibSend client
                      (deepRenameKey "_" "@type" (retry_request row answer))])
               s)
    | None =>
        let stripped := ThrownValue (delete_key error "@extra") in
        exists s1,
          _handleError error s = (Ok tt, s1)
          /\ sends_of (trace s1) = sends_of (trace s)
          /\ trace s1
             = trace s
               ++ (if TdlDeferred.isDone (_connectDefer s)
                      && TdlDeferred.isDone (_loginDefer s)
                   then [Emit (EvError stripped)]
                   else settled ConnectPromise
                          (snd (TdlDeferred.reject stripped (_connectDefer s)))
                        ++ settled LoginPromise
                             (snd (TdlDeferred.reject stripped (_loginDefer s))))
          /\ errors_of (trace s1)
             = errors_of (trace s)
               ++ (if TdlDeferred.isDone (_connectDefer s)
                      && TdlDeferred.isDone (_loginDefer s)
                   then [stripped]
                   else [])
    end.
Proof.
  intros s error client details Hextra Hnone Hclient Hdetails.
  assert (Hretry : forall (c : Callback) (r : Res JValue) (tag field : string)
                          (answer : JValue),
             r = Ok answer ->
             bind (call c r)
               (fun v => _sendTdl [("_", JStr tag); (field, v)]) s
             = (Ok tt,
                set_trace
                  (trace s
                   ++ [Called c;
                       TdlibSend client
                         (deepRenameKey "_" "@type"
                            (JObj (obj_set "@extra" (JStr TDL_MAGIC)
                                     [("_", JStr tag); (field, answer)])))])
                  s)).
  { intros c r tag field answer ->.
    unfold call. unfold bind at 1. rewrite bind_log. unfold lift.
    unfold _sendTdl. rewrite (send_live _ client) by assumption.
    cbn [trace set_trace]. now rewrite <- app_assoc. }
  assert (Hother : let stripped := ThrownValue (delete_key error "@extra") in
             exists s1,
               _emitErrWithoutExtra error s = (Ok tt, s1)
               /\ sends_of (trace s1) = sends_of (trace s)
               /\ trace s1
                  = trace s
                    ++ (if TdlDeferred.isDone (_connectDefer s)
                           && TdlDeferred.isDone (_loginDefer s)
                        then [Emit (EvError stripped)]
                        else settled ConnectPromise
                               (snd (TdlDeferred.reject stripped (_connectDefer s)))
                             ++ settled LoginPromise
                                  (snd (TdlDeferred.reject stripped (_loginDefer s))))
               /\ errors_of (trace s1)
                  = errors_of (trace s)
                    ++ (if TdlDeferred.isDone (_connectDefer s)
                           && TdlDeferred.isDone (_loginDefer s)
                        then [stripped]
                        else [])).
  { intros stripped. unfold _emitErrWithoutExtra. fold stripped.
    destruct (catchError_run stripped s) as (s1 & Hrun & Htrace).
    exists s1. split; [exact Hrun |].
    destruct (settled_views ConnectPromise
                (snd (TdlDeferred.reject stripped (_connectDefer s))))
      as (_ & Hce & Hcs & _); [discriminate |].
    destruct (settled_views LoginPromise
                (snd (TdlDeferred.reject stripped (_loginDefer s))))
      as (_ & Hle & Hls & _); [discriminate |].
    rewrite Htrace, sends_of_app, errors_of_app.
    destruct (TdlDeferred.isDone (_connectDefer s)
              && TdlDeferred.isDone (_loginDefer s)).
    - cbn. rewrite app_nil_r. auto.
    - rewrite sends_of_app, errors_of_app, Hce, Hcs, Hle, Hls.
      cbn. rewrite !app_nil_r. auto. }
  unfold _handleError. cbv zeta.
  rewrite Hextra, bind_fetching_get, Hnone. cbn [str_eq].
  rewrite String.eqb_refl, bind_gets, Hdetails.
  destruct details as [user | bot]; cbn [retry_table].
  - unfold _handleUserError. cbv zeta.
    destruct (str_eq (get error "message") "PHONE_CODE_EMPTY"
              || str_eq (get error "message") "PHONE_CODE_INVALID").
    { intros answer Hanswer. exact (Hretry _ _ _ _ answer Hanswer). }
    destruct (str_eq (get error "message") "PHONE_NUMBER_INVALID").
    { intros answer Hanswer. exact (Hretry _ _ _ _ answer Hanswer). }
    destruct (str_eq (get error "message") "PASSWORD_HASH_INVALID").
    { intros answer Hanswer. exact (Hretry _ _ _ _ answer Hanswer). }
    exact Hother.
  - unfold _handleBotError. cbv zeta.
    destruct (str_eq (get error "message") "ACCESS_TOKEN_INVALID").
    { intros answer Hanswer. exact (Hretry _ _ _ _ answer Hanswer). }
    exact Hother.
Qed.

End AuthFacts.

(** ** Runs on concrete sessions *)

Lemma auth_error_retry_table_witness :
  _handleError (imports := sample_imports) phone_number_invalid login_session
  = (Ok tt,
     set_trace
       (trace login_session
        ++ [Called (CallGetPhoneNumber true);
            TdlibSend 7
              (rename_keys "_" "@type"
                 (resend "setAuthenticationPhoneNumber" "phone_number"
                    (JStr "+15550002")))])
       login_session).
Proof.
  refine (auth_error_retry_table (imports := sample_imports)
            login_session phone_number_invalid 7 (TypeUser sample_user)
            _ _ _ _ (JStr "+15550002") _).
  - reflexivity.
  - apply lookup_empty.
  - reflexivity.
  - reflexivity.
  - reflexivity.
Defined.

(** C1 fails as stated: during a login (the login gate is pending) an
    error of the client's own requests whose message is in no row of the
    table is not published as [error]; it rejects the login promise. *)
Lemma auth_error_rejects_login_gate :
  retry_table (TypeUser sample_user) (get phone_number_banned "message") = None
  /\ trace (snd (_handleError (imports := sample_imports)
                   phone_number_banned login_session))
     = [Settle (LoginPromise 1)
          (Rejected
             (ThrownValue
                (JObj [("_", JStr "error"); ("code", JNum 400);
                       ("message", JStr "PHONE_NUMBER_BANNED")])))]
  /\ errors_of (trace (snd (_handleError (imports := sample_imports)
                             phone_number_banned login_session)))
     = [].
Proof. repeat split; vm_compute; reflexivity. Qed.

Lemma privileged_updates_always_published_witness :
  let s := live_session skipping_options in
  let s1 := route_all (imports := sample_imports) [connection_updating] s in
  let s2 := snd (route (imports := sample_imports) new_message s1) in
  _options s1 = _options s
  /\ updates_of (trace s2)
     = updates_of (trace s1)
       ++ (if privileged new_message then [new_message]
           else if truthy (get (_options s) "skipOldUpdates")
                   && str_eq (get (_connectionState s1) "_") "connectionStateUpdating"
                then []
                else [new_message]).
Proof.
  apply (privileged_updates_always_published (imports := sample_imports)
           [connection_updating] new_message (live_session skipping_options)).
  - repeat constructor.
  - reflexivity.
  - vm_compute. reflexivity.
Defined.

Lemma handshake_on_wait_tdlib_parameters_witness :
  let newer := Version_gte (_version recent_session) TDLIB_1_8_6 in
  let request :=
    if newer
    then flattened_handshake (_options recent_session)
           (JStr "/srv/_td_database") (JStr "/srv/_td_files")
    else nested_handshake (_options recent_session)
           (JStr "/srv/_td_database") (JStr "/srv/_td_files") in
  let gate :=
    if newer
    then TdlDeferred.resolve JUndefined (_connectDefer recent_session)
    else (_connectDefer recent_session, []) in
  exists s1,
    _handleAuth (imports := sample_imports) wait_tdlib_parameters recent_session
    = (Ok tt, s1)
    /\ trace s1
       = trace recent_session
         ++ [TdlibSend 7 (rename_keys "_" "@type" request)]
         ++ settled ConnectPromise (snd gate)
    /\ sends_of (trace s1)
       = sends_of (trace recent_session) ++ [rename_keys "_" "@type" request]
    /\ _connectDefer s1 = fst gate.
Proof.
  apply (handshake_on_wait_tdlib_parameters (imports := sample_imports)
           recent_session wait_tdlib_parameters 7
           (JStr "/srv/_td_database") (JStr "/srv/_td_files"));
    reflexivity.
Defined.

(** C5 fails as stated: on an engine older than 1.8.6 the handshake
    request is sent in the nested shape and the connect gate is not
    resolved: it stays pending and none of its resolving functions is
    called. *)
Lemma handshake_legacy_leaves_connect_pending :
  Version_gte (_version (live_session sample_options)) TDLIB_1_8_6 = false
  /\ trace (snd (_handleAuth (imports := sample_imports)
                   wait_tdlib_parameters (live_session sample_options)))
     = [TdlibSend 7
          (rename_keys "_" "@type"
             (nested_handshake (_options (live_session sample_options))
                (JStr "/srv/_td_database") (JStr "/srv/_td_files")))]
  /\ TdlDeferred.isPending
       (_connectDefer (snd (_handleAuth (imports := sample_imports)
                              wait_tdlib_parameters
                              (live_session sample_options))))
     = true.
Proof. repeat split; vm_compute; reflexivity. Qed.

(** C6 fails as stated: [invoke] under an id that has a pending request
    returns its promise as usual and the map then holds the new promise
    under the id; nothing fails and the earlier promise is left
    unsettled. *)
Lemma invoke_same_id_replaces :
  _fetching pending_session !! "5a1c" = Some 2
  /\ fst (invoke (imports := sample_imports) "5a1c"
            (JObj [("_", JStr "getMe")]) pending_session)
     = Ok (InvokePromise 3)
  /\ _fetching (snd (invoke (imports := sample_imports) "5a1c"
                       (JObj [("_", JStr "getMe")]) pending_session))
     !! "5a1c" = Some 3
  /\ trace (snd (invoke (imports := sample_imports) "5a1c"
                   (JObj [("_", JStr "getMe")]) pending_session))
     = [TdlibSend 7 (JObj [("@type", JStr "getMe"); ("@extra", JStr "5a1c")])].
Proof. repeat split; vm_compute; reflexivity. Qed.

Lemma correlator_settles_once_witness :
  let s1 := snd (_handleResponse (imports := sample_imports) me_response
                   pending_session) in
  let s2 := snd (_handleResponse (imports := sample_imports) me_response s1) in
  invoke_settlements (trace s1)
    = invoke_settlements (trace pending_session)
      ++ [(2, correlated_outcome me_response)]
  /\ _fetching s1 = delete "5a1c" (_fetching pending_session)
  /\ invoke_settlements (trace s2) = invoke_settlements (trace s1)
  /\ _fetching s2 = _fetching s1.
Proof.
  apply (correlator_settles_once (imports := sample_imports)
           pending_session me_response me_response "5a1c" 2).
  - reflexivity.
  - reflexivity.
  - vm_compute. reflexivity.
Defined.

Lemma connect_again_rejected_witness :
  connect (live_session sample_options)
  = (Ok (ConnectPromise 2),
     set_trace
       [Settle (ConnectPromise 2)
          (Rejected (JsError "The client is already initialized"))]
       (set_promises 3 (live_session sample_options))).
Proof.
  apply (connect_again_rejected (live_session sample_options)).
  reflexivity.
Defined.

(** C8 fails as stated: when the engine could not be created by the first
    [connect], the session is not marked initialised, and a second
    [connect] is not rejected: it asks the engine again, and none of the
    resolving functions of its promise (promise 1) is called. *)
Lemma connect_after_failed_create_not_rejected :
  exists c0 : Client,
    Client_new (imports := sample_imports) broken_tdlib sample_options = Ok c0
    /\ let s1 := snd (connect c0) in
       let s2 := snd (connect s1) in
       _initialized s1 = false
       /\ fst (connect s1) = Ok (ConnectPromise 1)
       /\ trace s2
          = trace s1
            ++ [TdlibExecute None
                  (JObj [("@type", JStr "setLogVerbosityLevel");
                         ("new_verbosity_level", JNum 2)]);
                TdlibCreate].
Proof. eexists. split; [reflexivity |]. repeat split; vm_compute; reflexivity. Qed.

(** * Further properties of the code *)

(** ** TdlDeferred over any sequence of calls *)

Module DeferredRuns.
Import TdlDeferred.

Lemma step_calls (o : Op) (d : t) :
  length (snd (step o d)) <= (if _done d then 0 else 1)
  /\ (_done d = true -> _done (fst (step o d)) = true)
  /\ (snd (step o d) <> [] -> _done (fst (step o d)) = true)
  /\ ((_done d = true -> isDeferSet d = true) ->
      _done (fst (step o d)) = true -> isDeferSet (fst (step o d)) = true).
Proof.
  destruct d as [[defer |] [|]], o as [r | e | defer']; cbn;
    repeat split; intros; auto; congruence.
Qed.

End DeferredRuns.

(** X1.  Whatever sequence of [setDefer], [resolve] and [reject] calls is
    made on a gate, at most one call of a resolving function results, and
    none if the gate had fired before; a gate that is done stays done, and
    a gate that is done has a resolver set (given that it started so, as
    a new gate does). *)
Theorem deferred_at_most_one_call :
  forall (ops : list TdlDeferred.Op) (d : TdlDeferred.t),
    length (snd (TdlDeferred.run ops d))
      <= (if TdlDeferred._done d then 0 else 1)
    /\ (TdlDeferred._done d = true ->
        TdlDeferred._done (fst (TdlDeferred.run ops d)) = true)
    /\ ((TdlDeferred._done d = true -> TdlDeferred.isDeferSet d = true) ->
        TdlDeferred._done (fst (TdlDeferred.run ops d)) = true ->
        TdlDeferred.isDeferSet (fst (TdlDeferred.run ops d)) = true).
Proof.
  induction ops as [| o ops IH]; intros d.
  { cbn. destruct (TdlDeferred._done d); auto. }
  cbn [TdlDeferred.run].
  destruct (DeferredRuns.step_calls o d) as (Hlen & Hmono & Hfired & Hinv).
  destruct (TdlDeferred.step o d) as [d1 c1]. cbn [fst snd] in *.
  specialize (IH d1). destruct IH as (IHlen & IHmono & IHinv).
  destruct (TdlDeferred.run ops d1) as [d2 c2]. cbn [fst snd] in *.
  repeat split.
  - rewrite length_app.
    destruct c1 as [| c c1].
    + cbn. destruct (TdlDeferred._done d) eqn:Hd.
      * rewrite (Hmono eq_refl) in IHlen. exact IHlen.
      * destruct (TdlDeferred._done d1); lia.
    + rewrite Hfired in IHlen by discriminate.
      destruct (TdlDeferred._done d); cbn in *; lia.
  - intros Hd. auto.
  - intros Hstart Hd2. auto.
Qed.

(** ** Requests and their answers *)

Section RequestFacts.

Context {imports : Imports}.

Lemma invoke_run (id : string) (fields : list (string * JValue)) (s : Client) :
  invoke id (JObj fields) s
  = (Ok (InvokePromise (promises s)),
     snd (_send (JObj (obj_set "@extra" (JStr id) fields))
            (set_fetching (<[id := promises s]> (_fetching s))
               (set_promises (S (promises s)) s)))).
Proof.
  unfold invoke, _send, new_promise, bind, gets, log, modify, ret.
  cbn [_client _fetching trace set_fetching set_promises set_trace fst snd].
  destruct (_client s); reflexivity.
Qed.

(** X2.  A request and its answer.  When [invoke] registers a request
    under an id that is not in use and a message correlated with that id
    is routed next, the promise [invoke] returned is settled once, resolved
    with the message less its correlation field (rejected when the message
    is an error), and the map of pending requests is again what it was
    before the [invoke]. *)
Theorem invoke_answer_round_trip :
  forall (s : Client) (id : string) (fields : list (string * JValue))
         (res : JValue),
    _fetching s !! id = None ->
    get res "@extra" = JStr id ->
    let s1 := snd (invoke id (JObj fields) s) in
    let s2 := snd (_handleResponse res s1) in
    fst (invoke id (JObj fields) s) = Ok (InvokePromise (promises s))
    /\ invoke_settlements (trace s2)
       = invoke_settlements (trace s) ++ [(promises s, correlated_outcome res)]
    /\ _fetching s2 = _fetching s.
Proof.
  intros s id fields res Hfresh Hid s1 s2.
  subst s2 s1. rewrite invoke_run. cbn [fst snd].
  split; [reflexivity |].
  set (s0 := set_fetching _ _).
  set (s1 := snd (_send _ s0)).
  assert (Hf1 : _fetching s1 = <[id := promises s]> (_fetching s))
    by exact (quiet_fetching _ (quiet_send _) s0).
  assert (Hs1 : invoke_settlements (trace s1) = invoke_settlements (trace s))
    by exact (quiet_settlements _ (quiet_send _) s0).
  assert (Hpending : _fetching s1 !! id = Some (promises s))
    by (rewrite Hf1; apply lookup_insert_eq).
  rewrite (handleResponse_matched res id (promises s) s1 Hid Hpending).
  cbn [snd trace _fetching set_fetching set_trace].
  rewrite invoke_settlements_app, Hs1, Hf1. cbn.
  split; [reflexivity |].
  rewrite delete_insert_eq. now apply delete_id.
Qed.

(** X3.  [invoke] on a session that holds no engine client (not yet
    connected, or destroyed) registers the request and returns its promise
    but sends nothing; the receive loop of such a session routes nothing,
    so the request stays pending. *)
Theorem invoke_without_client :
  forall (s : Client) (id : string) (fields : list (string * JValue)),
    _client s = None ->
    let s1 := snd (invoke id (JObj fields) s) in
    invoke id (JObj fields) s
    = (Ok (InvokePromise (promises s)),
       set_fetching (<[id := promises s]> (_fetching s))
         (set_promises (S (promises s)) s))
    /\ trace s1 = trace s
    /\ _fetching s1 !! id = Some (promises s)
    /\ (forall received, snd (_loop_iteration received s1) = s1).
Proof.
  intros s id fields Hclient s1.
  assert (Hrun : invoke id (JObj fields) s
                 = (Ok (InvokePromise (promises s)),
                    set_fetching (<[id := promises s]> (_fetching s))
                      (set_promises (S (promises s)) s))).
  { rewrite invoke_run. unfold _send. rewrite bind_gets.
    cbn [_client set_fetching set_promises]. now rewrite Hclient. }
  subst s1. rewrite Hrun. cbn [snd].
  repeat split.
  - cbn. apply lookup_insert_eq.
  - intros received. unfold _loop_iteration, try_catch.
    rewrite bind_gets. cbn [_paused _client set_fetching set_promises].
    destruct (_paused s); [reflexivity |].
    rewrite bind_gets. cbn [_client set_fetching set_promises].
    now rewrite Hclient.
Qed.

(** X4.  An error whose correlation field names no pending request and
    is not the value the client reserves for itself is published as
    [error], once, as it was received (its correlation field is kept),
    whether or not the connect and login gates are pending; nothing else
    changes. *)
Theorem uncorrelated_error_published :
  forall (s : Client) (error : JValue),
    match get error "@extra" with
    | JStr id => _fetching s !! id = None /\ id <> TDL_MAGIC
    | _ => True
    end ->
    _handleError error s
    = (Ok tt, set_trace (trace s ++ [Emit (EvError (ThrownValue error))]) s).
Proof.
  intros s error Hid. unfold _handleError, fetching_get. cbv zeta.
  rewrite bind_gets.
  destruct (get error "@extra") as [| | b | n | id | fs];
    try (cbn [str_eq]; apply emit_plain; discriminate).
  destruct Hid as [Hnone Hmagic]. rewrite Hnone. cbn [str_eq].
  apply String.eqb_neq in Hmagic. rewrite Hmagic.
  apply emit_plain; discriminate.
Qed.

(** X5.  A message that is not an error and carries the correlation
    value the client reserves for itself (the engine's reply to a request
    of the authentication flow) is published as [response] only: it is
    not published as an update and changes nothing else. *)
Theorem own_reply_not_published :
  forall (s : Client) (res : JValue),
    str_eq (get res "_") "error" = false ->
    get res "@extra" = JStr TDL_MAGIC ->
    _fetching s !! TDL_MAGIC = None ->
    _handleResponse res s
    = (Ok tt, set_trace (trace s ++ [Emit (EvResponse res)]) s).
Proof.
  intros s res Hkind Hid Hnone. unfold _handleResponse. cbv zeta.
  rewrite bind_emit_plain, Hkind, Hid, bind_fetching_get by discriminate.
  cbn [_fetching set_trace]. rewrite Hnone. cbn [str_eq].
  now rewrite String.eqb_refl.
Qed.

End RequestFacts.

(** ** The session controller: edges *)

Section LifecycleFacts.

Context {imports : Imports}.

(** X6.  While a gate is pending, [_catchError] publishes nothing; and
    when no pending gate has a resolver (as between the end of the
    handshake and the call of [login]) it calls nothing either: the error
    is dropped and the state is unchanged. *)
Theorem error_dropped_without_resolver :
  forall (s : Client) (err : Thrown),
    TdlDeferred.isPending (_connectDefer s) = true
    \/ TdlDeferred.isPending (_loginDefer s) = true ->
    (TdlDeferred.isPending (_connectDefer s) = true ->
     TdlDeferred.isDeferSet (_connectDefer s) = false) ->
    (TdlDeferred.isPending (_loginDefer s) = true ->
     TdlDeferred.isDeferSet (_loginDefer s) = false) ->
    _catchError err s = (Ok tt, s).
Proof.
  intros s err Hpending Hconnect Hlogin.
  destruct s as [o f t c i p cs [cd cdone] an ld [lg ldone] v oa ol od pr tr].
  unfold TdlDeferred.isPending, TdlDeferred.isDeferSet in *. cbn in *.
  unfold _catchError, connectDefer_reject, loginDefer_reject, bind, gets,
    when, ret, TdlDeferred.isPending, TdlDeferred.reject,
    TdlDeferred.isDeferSet.
  cbn.
  destruct cdone, ldone; cbn in *.
  - destruct Hpending; discriminate.
  - destruct lg; [specialize (Hlogin eq_refl); discriminate |].
    cbn. now rewrite app_nil_r.
  - destruct cd; [specialize (Hconnect eq_refl); discriminate |].
    cbn. now rewrite app_nil_r.
  - destruct cd; [specialize (Hconnect eq_refl); discriminate |].
    destruct lg; [specialize (Hlogin eq_refl); discriminate |].
    cbn. now rewrite !app_nil_r.
Qed.

Ltac run_connect :=
  unfold connect, _init, _catchError, connectDefer_reject, loginDefer_reject,
    connectDefer_resolve, option_read, emit, new_promise, try_catch, bind,
    gets, log, modify, lift, when, ret, verbosity_call,
    TdlDeferred.isPending, TdlDeferred.setDefer.

(** X7.  When the engine client cannot be created, [connect] on a session
    that is not initialised (its connect gate not done, its verbosity
    call succeeding) rejects the promise it returns with a
    [TdlError] that wraps what the engine threw (and rejects a pending
    [login] promise with the same error); the session stays uninitialised,
    holds no new client, and no receive loop is started. *)
Theorem connect_engine_failure :
  forall (s : Client) (e : Thrown),
    _initialized s = false ->
    TdlDeferred._done (_connectDefer s) = false ->
    tdlib_create (_tdlib s) = Throw e ->
    (forall request, exists r, tdlib_execute (_tdlib s) None request = Ok r) ->
    let err := TdlError e (Some "Error while creating client") in
    exists s1,
      connect s = (Ok (ConnectPromise (promises s)), s1)
      /\ trace s1
         = trace s
           ++ verbosity_call s
           ++ [TdlibCreate; Settle (ConnectPromise (promises s)) (Rejected err)]
           ++ settled LoginPromise (snd (TdlDeferred.reject err (_loginDefer s)))
      /\ _initialized s1 = false
      /\ _client s1 = _client s.
Proof.
  intros s e Hinit Hdone Hcreate Hexecute err.
  destruct s as [o f t c i p cs [cd cdone] an ld [lg ldone] v oa ol od pr tr].
  cbn in Hinit, Hdone, Hcreate, Hexecute. subst i cdone.
  destruct (Hexecute (JObj [("@type", JStr "setLogVerbosityLevel");
                            ("new_verbosity_level", get o "verbosityLevel")]))
    as [r Hr].
  run_connect. cbn.
  destruct (truthy (get o "useDefaultVerbosityLevel")); cbn;
    rewrite ?Hr; cbn; rewrite Hcreate; cbn;
    unfold TdlDeferred.reject, TdlDeferred.isDeferSet; cbn;
    destruct ldone; cbn;
    try (destruct lg; cbn);
    eexists; (split; [reflexivity |]); cbn;
    rewrite <- ?app_assoc; cbn; rewrite ?app_nil_r; auto.
Qed.

(** X8.  When the engine client is created, [connect] on a session that
    is not initialised, whose connect gate is not done and whose
    verbosity call succeeds, marks it initialised, keeps the client and
    starts the receive loop; the promise it returns is resolved at once
    exactly when the [disableAuth] option is set, and is otherwise left
    to the handshake. *)
Theorem connect_engine_created :
  forall (s : Client) (client : TDLibClient),
    _initialized s = false ->
    TdlDeferred._done (_connectDefer s) = false ->
    tdlib_create (_tdlib s) = Ok client ->
    (forall request, exists r, tdlib_execute (_tdlib s) None request = Ok r) ->
    exists s1,
      connect s = (Ok (ConnectPromise (promises s)), s1)
      /\ trace s1
         = trace s
           ++ verbosity_call s
           ++ [TdlibCreate]
           ++ (if truthy (get (_options s) "disableAuth")
               then [Settle (ConnectPromise (promises s)) (Resolved JUndefined)]
               else [])
           ++ [LoopStarted]
      /\ _initialized s1 = true
      /\ _client s1 = Some client
      /\ TdlDeferred.isDone (_connectDefer s1)
         = truthy (get (_options s) "disableAuth").
Proof.
  intros s client Hinit Hdone Hcreate Hexecute.
  destruct s as [o f t c i p cs [cd cdone] an ld [lg ldone] v oa ol od pr tr].
  cbn in Hinit, Hdone, Hcreate, Hexecute. subst i cdone.
  destruct (Hexecute (JObj [("@type", JStr "setLogVerbosityLevel");
                            ("new_verbosity_level", get o "verbosityLevel")]))
    as [r Hr].
  run_connect. cbn.
  destruct (truthy (get o "useDefaultVerbosityLevel")); cbn;
    rewrite ?Hr; cbn; rewrite Hcreate; cbn;
    destruct (truthy (get o "disableAuth")); cbn;
    unfold TdlDeferred.resolve, TdlDeferred.isDeferSet; cbn;
    eexists; (split; [reflexivity |]); cbn;
    rewrite <- ?app_assoc; cbn; rewrite ?app_nil_r; auto.
Qed.

End LifecycleFacts.

Section TeardownFacts.

Context {imports : Imports}.

Ltac run_destroy :=
  unfold destroy, resume, emit, bind, gets, log, modify, ret.

(** What [destroy] does on a session that holds an engine client. *)
Lemma destroy_run (s : Client) (client : TDLibClient) :
  _client s = Some client ->
  exists s1,
    destroy s = (Ok tt, s1)
    /\ trace s1
       = trace s
         ++ [TdlibDestroy client]
         ++ (if _paused s then [Emit EvResume] else [])
         ++ [Emit EvDestroy]
         ++ map (fun q => Settle (ClosePromise q) (Resolved JUndefined))
              (once_destroy s)
    /\ _client s1 = None
    /\ _paused s1 = false
    /\ once_destroy s1 = []
    /\ _connectDefer s1 = _connectDefer s
    /\ _loginDefer s1 = _loginDefer s
    /\ promises s1 = promises s.
Proof.
  intros Hclient.
  destruct s as [o f t c i p cs cd an ld lg v oa ol od pr tr].
  cbn in Hclient. subst c.
  run_destroy. cbn.
  destruct p; cbn; rewrite run_once_destroy_spec;
    eexists; (split; [reflexivity |]);
    destruct od; cbn; rewrite <- ?app_assoc; cbn; auto 10.
Qed.

(** X9.  [close] on a session without an engine client resolves its
    promise at once.  On a session that holds one it sends the [close]
    request under the client's own correlation value and leaves the
    promise pending; the next [destroy] resolves that promise, once, after
    publishing [destroy], and forgets the listener. *)
Theorem close_resolved_by_destroy :
  forall (s : Client),
    match _client s with
    | None =>
        close s
        = (Ok (ClosePromise (promises s)),
           set_trace
             (trace s
              ++ [Settle (ClosePromise (promises s)) (Resolved JUndefined)])
             (set_promises (S (promises s)) s))
    | Some client =>
        exists s1 s2,
          close s = (Ok (ClosePromise (promises s)), s1)
          /\ trace s1
             = trace s
               ++ [TdlibSend client
                     (deepRenameKey "_" "@type"
                        (JObj [("_", JStr "close"); ("@extra", JStr TDL_MAGIC)]))]
          /\ destroy s1 = (Ok tt, s2)
          /\ trace s2
             = trace s1
               ++ [TdlibDestroy client]
               ++ (if _paused s then [Emit EvResume] else [])
               ++ [Emit EvDestroy]
               ++ map (fun q => Settle (ClosePromise q) (Resolved JUndefined))
                    (once_destroy s ++ [promises s])
          /\ once_destroy s2 = []
    end.
Proof.
  intros s. destruct (_client s) as [client |] eqn:Hclient.
  - assert (Hclose : close s
                     = (Ok (ClosePromise (promises s)),
                        set_once_destroy (once_destroy s ++ [promises s])
                          (set_trace
                             (trace s
                              ++ [TdlibSend client
                                    (deepRenameKey "_" "@type"
                                       (JObj [("_", JStr "close");
                                              ("@extra", JStr TDL_MAGIC)]))])
                             (set_promises (S (promises s)) s)))).
    { unfold close, new_promise, _sendTdl, _send, bind, gets, log, modify, ret.
      cbn [_client set_promises]. rewrite Hclient.
      cbn [_client set_promises]. rewrite Hclient. reflexivity. }
    rewrite Hclose.
    match goal with
    | |- context [(Ok (ClosePromise _), ?st)] =>
        destruct (destroy_run st client Hclient)
          as (s2 & Hrun & Htrace & _ & _ & Hlisteners & _)
    end.
    eexists. exists s2. split; [reflexivity |].
    split; [reflexivity |]. split; [exact Hrun |].
    split; [exact Htrace | exact Hlisteners].
  - unfold close, new_promise, bind, gets, log, modify, ret.
    cbn [_client set_promises]. rewrite Hclient. reflexivity.
Qed.

(** X10.  The authorization state [authorizationStateClosed] ends the
    session: [reject] is called on the connect gate and on the login gate
    with the error "Received authorizationStateClosed", and then the
    session is destroyed as by [destroy]: the engine client is released
    and [destroy] is published. *)
Theorem closed_state_ends_session :
  forall (s : Client) (update : JValue) (client : TDLibClient),
    str_eq (get (get update "authorization_state") "_")
           "authorizationStateClosed" = true ->
    _client s = Some client ->
    let err := JsError "Received authorizationStateClosed" in
    exists s1,
      _handleAuth update s = (Ok tt, s1)
      /\ trace s1
         = trace s
           ++ settled ConnectPromise (snd (TdlDeferred.reject err (_connectDefer s)))
           ++ settled LoginPromise (snd (TdlDeferred.reject err (_loginDefer s)))
           ++ [TdlibDestroy client]
           ++ (if _paused s then [Emit EvResume] else [])
           ++ [Emit EvDestroy]
           ++ map (fun q => Settle (ClosePromise q) (Resolved JUndefined))
                (once_destroy s)
      /\ _client s1 = None
      /\ _connectDefer s1 = fst (TdlDeferred.reject err (_connectDefer s))
      /\ _loginDefer s1 = fst (TdlDeferred.reject err (_loginDefer s)).
Proof.
  intros s update client Hstate Hclient err. subst err.
  assert (Htag : nullish (get update "authorization_state") = false).
  { destruct (get update "authorization_state"); try reflexivity;
      cbn in Hstate; discriminate. }
  assert (Hkind : exists tag,
             get (get update "authorization_state") "_" = JStr tag
             /\ (tag =? "authorizationStateClosed") = true).
  { destruct (get (get update "authorization_state") "_");
      cbn in Hstate; try discriminate. eauto. }
  destruct Hkind as (tag & Hget & Heq).
  apply String.eqb_eq in Heq. subst tag.
  unfold _handleAuth. cbv zeta.
  rewrite (prop_ok _ _ Htag), bind_lift_ok, Hget. cbn [str_eq String.eqb Ascii.eqb Bool.eqb].
  unfold _rejectConnectAndLogin, connectDefer_reject, loginDefer_reject.
  unfold bind at 1 2.
  destruct (TdlDeferred.reject _ (_connectDefer s)) as [cd ccalls] eqn:Hcd.
  cbn [_loginDefer set_trace set_connectDefer].
  destruct (TdlDeferred.reject _ (_loginDefer s)) as [lg lcalls] eqn:Hlg.
  match goal with
  | |- context [destroy ?st] =>
      destruct (destroy_run st client Hclient)
        as (s1 & Hrun & Htrace & Hnone & _ & _ & Hc & Hl & _)
  end.
  exists s1. split; [exact Hrun |].
  rewrite Htrace, Hc, Hl. cbn. rewrite <- !app_assoc. auto.
Qed.

(** X11.  The authorization state [authorizationStateWaitEncryptionKey]
    (sent by engines older than 1.8.6) makes [_handleAuth] send one
    [checkDatabaseEncryptionKey] request with the configured key, under
    the client's own correlation value, and then call [resolve] on the
    connect gate. *)
Theorem encryption_key_state_connects :
  forall (s : Client) (update : JValue) (client : TDLibClient),
    str_eq (get (get update "authorization_state") "_")
           "authorizationStateWaitEncryptionKey" = true ->
    _client s = Some client ->
    exists s1,
      _handleAuth update s = (Ok tt, s1)
      /\ trace s1
         = trace s
           ++ [TdlibSend client
                 (deepRenameKey "_" "@type"
                    (JObj [("_", JStr "checkDatabaseEncryptionKey");
                           ("encryption_key",
                            get (_options s) "databaseEncryptionKey");
                           ("@extra", JStr TDL_MAGIC)]))]
           ++ settled ConnectPromise
                (snd (TdlDeferred.resolve JUndefined (_connectDefer s)))
      /\ _connectDefer s1 = fst (TdlDeferred.resolve JUndefined (_connectDefer s)).
Proof.
  intros s update client Hstate Hclient.
  assert (Htag : nullish (get update "authorization_state") = false).
  { destruct (get update "authorization_state"); try reflexivity;
      cbn in Hstate; discriminate. }
  assert (Hkind : get (get update "authorization_state") "_"
                  = JStr "authorizationStateWaitEncryptionKey").
  { destruct (get (get update "authorization_state") "_");
      cbn in Hstate; try discriminate.
    apply String.eqb_eq in Hstate. now subst. }
  unfold _handleAuth. cbv zeta.
  rewrite (prop_ok _ _ Htag), bind_lift_ok, Hkind.
  cbn [str_eq String.eqb Ascii.eqb Bool.eqb].
  unfold option_read. rewrite bind_gets.
  unfold _sendTdl. rewrite (bind_send_live _ client) by assumption.
  unfold connectDefer_resolve. cbn [_connectDefer set_trace trace].
  destruct (TdlDeferred.resolve JUndefined (_connectDefer s)) as [d calls].
  eexists. split; [reflexivity |].
  cbn [trace set_trace set_connectDefer _connectDefer fst snd].
  rewrite <- app_assoc. auto.
Qed.

End TeardownFacts.

(** ** The receive loop *)

Section LoopFacts.

Context {imports : Imports}.

(** X12.  An iteration of the receive loop never throws.  It is
    suspended exactly when the session is paused and leaves the loop
    exactly when the session is not paused and holds no engine client; in
    both cases it changes nothing.  In every other case, also when
    receiving or routing threw, the loop goes on. *)
Theorem loop_iteration_never_throws :
  forall (received : Res JValue) (s : Client),
    exists status s1,
      _loop_iteration received s = (Ok status, s1)
      /\ status
         = (if _paused s then LoopAwaitResume
            else match _client s with
                 | None => LoopEnd
                 | Some _ => LoopContinue
                 end)
      /\ (status = LoopContinue \/ s1 = s).
Proof.
  intros received s. unfold _loop_iteration, try_catch.
  rewrite bind_gets. destruct (_paused s); [eauto 6 |].
  rewrite bind_gets. destruct (_client s) as [client |]; [| eauto 6].
  assert (Hcatch : forall e s0, exists s1,
             bind (_catchError (TdlError e None)) (fun _ => ret LoopContinue) s0
             = (Ok LoopContinue, s1)).
  { intros e s0. destruct (catchError_run (TdlError e None) s0) as (s1 & Hrun & _).
    exists s1. unfold bind. now rewrite Hrun. }
  unfold bind at 1.
  destruct (_receive received s) as [[response | e] s1].
  - unfold bind at 1.
    destruct ((if truthy response then _handleResponse response else ret tt) s1)
      as [[u | e] s2].
    + eauto 6.
    + destruct (Hcatch e s2) as (s3 & ->). eauto 6.
  - destruct (Hcatch e s1) as (s3 & ->). eauto 6.
Qed.

(** X13.  On a running session (not paused, holding an engine client), an
    iteration whose receive yields nothing (the engine's timeout) only
    asks the engine, with the configured timeout, and routes nothing; an
    iteration whose receive throws hands the error, wrapped in a
    [TdlError], to the general error path and the loop goes on. *)
Theorem loop_iteration_without_message :
  forall (s : Client) (client : TDLibClient),
    _paused s = false ->
    _client s = Some client ->
    let asked := TdlibReceive client (get (_options s) "receiveTimeout") in
    (forall nothing,
        truthy nothing = false ->
        _loop_iteration (Ok nothing) s
        = (Ok LoopContinue, set_trace (trace s ++ [asked]) s))
    /\ (forall e,
           _loop_iteration (Throw e) s
           = (Ok LoopContinue,
              snd (_catchError (TdlError e None)
                     (set_trace (trace s ++ [asked]) s)))).
Proof.
  intros s client Hpaused Hclient asked. subst asked.
  split.
  - intros nothing Hnothing.
    unfold _loop_iteration, try_catch, _receive, option_read, bind, gets,
      log, lift, ret, modify.
    rewrite Hpaused, Hclient.
    cbn [_client _options trace set_trace]. rewrite Hclient, Hnothing.
    cbn [_client _options trace set_trace]. rewrite Hnothing. reflexivity.
  - intros e.
    destruct (catchError_run (TdlError e None)
                (set_trace
                   (trace s ++ [TdlibReceive client (get (_options s) "receiveTimeout")])
                   s))
      as (s1 & Hrun & _).
    rewrite Hrun. cbn [snd].
    unfold _loop_iteration, try_catch, _receive, option_read.
    unfold bind, gets, log, lift, ret, modify.
    rewrite Hpaused, Hclient.
    cbn [_client _options trace set_trace]. rewrite Hclient.
    cbn [_client _options trace set_trace]. rewrite Hrun. reflexivity.
Qed.

(** X14.  [pause] and [resume]: pausing twice is pausing once; after
    [pause] the receive loop is suspended and does not ask the engine;
    [resume] on a paused session clears the flag and signals ['_resume']
    once, and on a session that is not paused it does nothing. *)
Theorem pause_suspends_loop :
  forall (s : Client),
    pause (snd (pause s)) = (Ok tt, snd (pause s))
    /\ _paused (snd (pause s)) = true
    /\ trace (snd (pause s)) = trace s
    /\ (forall received,
           _loop_iteration received (snd (pause s))
           = (Ok LoopAwaitResume, snd (pause s)))
    /\ resume s
       = (Ok tt,
          if _paused s
          then set_trace (trace s ++ [Emit EvResume]) (set_paused false s)
          else s)
    /\ _paused (snd (resume s)) = false.
Proof.
  intros s.
  assert (Hpause : _paused (snd (pause s)) = true
                   /\ trace (snd (pause s)) = trace s).
  { unfold pause. rewrite bind_gets. destruct (_paused s) eqn:Hp; cbn; auto. }
  destruct Hpause as [Hflag Htrace].
  assert (Hresume : resume s
                    = (Ok tt,
                       if _paused s
                       then set_trace (trace s ++ [Emit EvResume])
                              (set_paused false s)
                       else s)).
  { unfold resume. rewrite bind_gets. destruct (_paused s); reflexivity. }
  repeat split; try assumption.
  - unfold pause at 1. now rewrite bind_gets, Hflag.
  - intros received. unfold _loop_iteration, try_catch.
    now rewrite bind_gets, Hflag.
  - rewrite Hresume. cbn [snd]. destruct (_paused s) eqn:Hp; [reflexivity | exact Hp].
Qed.

End LoopFacts.

(** ** Logging in *)

Section LoginFacts.

Context {imports : Imports}.

Lemma handleAuth_waits (update : JValue) (s : Client) :
  waits_for_login (get update "authorization_state") = true ->
  _handleAuth update s
  = (if TdlDeferred.isDeferSet (_loginDefer s)
     then _handleAuth_login (get update "authorization_state") s
     else (Ok tt,
           set_once_login
             (once_login s ++ [get update "authorization_state"]) s)).
Proof.
  unfold waits_for_login. intros Hwaits.
  repeat (apply andb_true_iff in Hwaits as [Hwaits ?]).
  repeat match goal with
         | H : negb _ = true |- _ => apply negb_true_iff in H
         end.
  unfold _handleAuth. cbv zeta.
  rewrite (prop_ok _ _ Hwaits), bind_lift_ok.
  repeat match goal with
         | H : str_eq _ _ = false |- _ => rewrite H; clear H
         end.
  rewrite bind_ret, bind_gets.
  destruct (TdlDeferred.isDeferSet (_loginDefer s)); reflexivity.
Qed.

Lemma login_run (getLoginDetails : Res StrictLoginDetails) (s : Client) :
  login getLoginDetails s
  = bind (resume_handleAuth (once_login s))
      (fun _ => ret (LoginPromise (promises s)))
      (logged_in getLoginDetails s).
Proof. reflexivity. Qed.

Lemma snd_bind_ret {A C : Type} (m : M A) (c : C) (s : Client) :
  snd (bind m (fun _ => ret c) s) = snd (m s).
Proof. unfold bind. destruct (m s) as [[a | e] s1]; reflexivity. Qed.

(** X15.  [login] may come before or after the authorization state that
    needs it.  For a state that waits for login details, on a session
    where [login] has not been called and no handler is suspended:
    handling the state and then calling [login] leaves the session exactly
    as calling [login] and then handling the state (with the [catch] of
    its caller) does. *)
Theorem login_order_irrelevant :
  forall (s : Client) (update : JValue) (getLoginDetails : Res StrictLoginDetails),
    waits_for_login (get update "authorization_state") = true ->
    TdlDeferred.isDeferSet (_loginDefer s) = false ->
    once_login s = [] ->
    snd (login getLoginDetails (snd (_handleAuth update s)))
    = snd (try_catch (_handleAuth update)
             (fun e => _catchError (TdlError e None))
             (snd (login getLoginDetails s))).
Proof.
  intros s update getLoginDetails Hwaits Hunset Hnone.
  rewrite (handleAuth_waits update s Hwaits), Hunset. cbn [snd].
  rewrite !login_run, Hnone. cbn [once_login set_once_login app resume_handleAuth].
  rewrite !snd_bind_ret. cbn [snd ret].
  change (logged_in getLoginDetails
            (set_once_login [get update "authorization_state"] s))
    with (logged_in getLoginDetails s).
  unfold try_catch at 2.
  rewrite (handleAuth_waits update _ Hwaits).
  reflexivity.
Qed.

(** X16.  The authorization state [authorizationStateReady] on a session
    where [login] has been called: [auth-not-needed] is published exactly
    when no authorization state has asked for login details before, and
    then [resolve] is called on the login gate. *)
Theorem ready_state_resolves_login :
  forall (s : Client) (update : JValue),
    str_eq (get (get update "authorization_state") "_")
           "authorizationStateReady" = true ->
    TdlDeferred.isDeferSet (_loginDefer s) = true ->
    exists s1,
      _handleAuth update s = (Ok tt, s1)
      /\ trace s1
         = trace s
           ++ (if _authNeeded s then [] else [Emit EvAuthNotNeeded])
           ++ settled LoginPromise
                (snd (TdlDeferred.resolve JUndefined (_loginDefer s)))
      /\ _loginDefer s1 = fst (TdlDeferred.resolve JUndefined (_loginDefer s)).
Proof.
  intros s update Hstate Hset.
  assert (Htag : nullish (get update "authorization_state") = false).
  { destruct (get update "authorization_state"); try reflexivity;
      cbn in Hstate; discriminate. }
  assert (Hkind : get (get update "authorization_state") "_"
                  = JStr "authorizationStateReady").
  { destruct (get (get update "authorization_state") "_");
      cbn in Hstate; try discriminate.
    apply String.eqb_eq in Hstate. now subst. }
  unfold _handleAuth, _handleAuth_login. cbv zeta.
  rewrite (prop_ok _ _ Htag), bind_lift_ok, Hkind.
  cbn [str_eq String.eqb Ascii.eqb Bool.eqb].
  unfold bind at 1. rewrite bind_gets.
  destruct (_authNeeded s); cbn [negb when].
  - unfold ret at 1. rewrite bind_gets, Hset.
    unfold loginDefer_resolve.
    destruct (TdlDeferred.resolve JUndefined (_loginDefer s)) as [d calls].
    eexists. split; [reflexivity |]. cbn. auto.
  - rewrite emit_plain by discriminate.
    rewrite bind_gets. cbn [_loginDefer set_trace]. rewrite Hset.
    unfold loginDefer_resolve. cbn [_loginDefer set_trace trace].
    destruct (TdlDeferred.resolve JUndefined (_loginDefer s)) as [d calls].
    eexists. split; [reflexivity |]. cbn. rewrite <- app_assoc. auto.
Qed.

(** X17.  A bot login answers only the phone-number state.  With bot
    login details in place, the states that only a user login answers
    (e-mail address, e-mail code, confirmation on another device, code,
    registration, password) call no callback, send nothing and change
    nothing; the phone-number state asks [getToken] with the retry flag
    [false] and sends the token in one [checkAuthenticationBotToken]
    request. *)
Theorem bot_login_states :
  forall (s : Client) (authorizationState : JValue) (bot : LoginBot)
         (client : TDLibClient) (token : JValue),
    _authNeeded s = true ->
    _loginDetails s = Some (TypeBot bot) ->
    _client s = Some client ->
    getToken bot false = Ok token ->
    (user_only_state authorizationState = true ->
     _handleAuth_login authorizationState s = (Ok tt, s))
    /\ (str_eq (get authorizationState "_") "authorizationStateWaitPhoneNumber" = true ->
        _handleAuth_login authorizationState s
        = (Ok tt,
           set_trace
             (trace s
              ++ [Called (CallGetToken false);
                  TdlibSend client
                    (deepRenameKey "_" "@type"
                       (JObj [("_", JStr "checkAuthenticationBotToken");
                              ("token", token);
                              ("@extra", JStr TDL_MAGIC)]))])
             s)).
Proof.
  intros s authorizationState bot client token Hneeded Hdetails Hclient Htoken.
  assert (Hbot : _authHasNeeded s = (Ok (TypeBot bot), s)).
  { unfold _authHasNeeded. now rewrite bind_gets, Hneeded, bind_gets, Hdetails. }
  assert (Hstep : forall (k : StrictLoginDetails -> M unit),
             bind _authHasNeeded k s = k (TypeBot bot) s).
  { intros k. unfold bind. now rewrite Hbot. }
  split.
  - intros Huser. unfold user_only_state in Huser.
    assert (Hkind : exists tag, get authorizationState "_" = JStr tag).
    { destruct (get authorizationState "_"); cbn in Huser; try discriminate.
      eauto. }
    destruct Hkind as [tag Htag]. rewrite Htag in Huser. cbn [str_eq] in Huser.
    unfold _handleAuth_login. cbv zeta. rewrite Htag. cbn [str_eq].
    repeat (apply orb_true_iff in Huser as [Huser | Huser]);
      apply String.eqb_eq in Huser; subst tag;
      cbn [String.eqb Ascii.eqb Bool.eqb]; now rewrite Hstep.
  - intros Hphone. unfold _handleAuth_login. cbv zeta.
    rewrite Hphone, Hstep. unfold call.
    unfold bind at 1. rewrite bind_log, Htoken. unfold lift.
    unfold _sendTdl. rewrite (send_live _ client) by assumption.
    cbn [trace set_trace]. now rewrite <- app_assoc.
Qed.

End LoginFacts.

(** ** What a session keeps over any sequence of calls *)

Section Keeps.

Context {allows : string -> Prop} {R : Client -> Client -> Prop}
  {F : Frame allows R}.

Lemma keeps_ret {A : Type} (a : A) : keeps R (ret a).
Proof. intros s. apply frame_refl. Qed.

Lemma keeps_throw {A : Type} (e : Thrown) : keeps R (throw (A := A) e).
Proof. intros s. apply frame_refl. Qed.

Lemma keeps_lift {A : Type} (r : Res A) : keeps R (lift r).
Proof. intros s. apply frame_refl. Qed.

Lemma keeps_gets {A : Type} (f : Client -> A) : keeps R (gets f).
Proof. intros s. apply frame_refl. Qed.

Lemma keeps_bind {A C : Type} (m : M A) (k : A -> M C) :
  keeps R m -> (forall a, keeps R (k a)) -> keeps R (bind m k).
Proof.
  intros Hm Hk s. unfold bind. specialize (Hm s).
  destruct (m s) as [[a | e] s1]; cbn [snd] in *.
  - exact (frame_trans _ _ _ Hm (Hk a s1)).
  - exact Hm.
Qed.

Lemma keeps_try_catch {A : Type} (m : M A) (h : Thrown -> M A) :
  keeps R m -> (forall e, keeps R (h e)) -> keeps R (try_catch m h).
Proof.
  intros Hm Hh s. unfold try_catch. specialize (Hm s).
  destruct (m s) as [[a | e] s1]; cbn [snd] in *.
  - exact Hm.
  - exact (frame_trans _ _ _ Hm (Hh e s1)).
Qed.

Lemma keeps_modify (f : Client -> Client) :
  (forall s, R s (f s)) -> keeps R (modify f).
Proof. intros Hf s. apply Hf. Qed.

Lemma keeps_log (e : Effect) : plain_effect e = true -> keeps R (log e).
Proof. intros He s. unfold log, modify. cbn [snd]. now apply frame_log. Qed.

Lemma frame_log_all (t : list Effect) (s : Client) :
  forallb plain_effect t = true -> R s (set_trace (trace s ++ t) s).
Proof.
  revert s. induction t as [| e t IH]; intros s Ht.
  - rewrite app_nil_r. destruct s. apply frame_refl.
  - cbn [forallb] in Ht. apply andb_prop in Ht as [He Ht].
    apply (frame_trans _ (set_trace (trace s ++ [e]) s)).
    + now apply frame_log.
    + specialize (IH (set_trace (trace s ++ [e]) s) Ht).
      cbn [trace set_trace] in IH. rewrite <- app_assoc in IH.
      destruct s. exact IH.
Qed.

Lemma frame_settled (calls : list TdlDeferred.Call) (s : Client) :
  R s (set_trace (trace s ++ settled ConnectPromise calls) s).
Proof.
  apply frame_log_all. unfold settled.
  induction calls as [| c calls IH]; [reflexivity | exact IH].
Qed.

(** A call of [resolve] or [reject] on the login gate, with the outcome
    it hands to the resolver. *)
Lemma frame_login_gate (o : Outcome) (s : Client) :
  let fired :=
    if TdlDeferred._done (_loginDefer s)
       || negb (TdlDeferred.isDeferSet (_loginDefer s))
    then (_loginDefer s, [])
    else match TdlDeferred._innerDefer (_loginDefer s) with
         | Some defer => (TdlDeferred.mk (TdlDeferred._innerDefer (_loginDefer s)) true,
                          [(defer, o)])
         | None => (_loginDefer s, [])
         end in
  R s (set_trace (trace s ++ settled LoginPromise (snd fired))
         (set_loginDefer (fst fired) s)).
Proof.
  destruct s as [o' f t c i p cs cd an ld [[lg |] [|]] v oa ol od pr tr];
    cbn; rewrite ?app_nil_r; try apply frame_refl.
  exact (frame_login_fired lg o
           (mkClient o' f t c i p cs cd an ld (TdlDeferred.mk (Some lg) false)
              v oa ol od pr tr) eq_refl).
Qed.

Lemma frame_fetching_delete (id : JValue) :
  (forall k, id = JStr k -> allows k) -> keeps R (fetching_delete id).
Proof.
  intros Hid s. unfold fetching_delete, modify. cbn [snd].
  destruct id; try apply frame_refl. apply frame_fetching_unset. now apply Hid.
Qed.

End Keeps.

Create HintDb keeps discriminated.

#[local] Hint Resolve keeps_ret keeps_throw keeps_lift keeps_gets : keeps.

Ltac frame_leaf :=
  first
    [ solve [eauto with keeps]
    | solve [apply keeps_log; reflexivity]
    | solve [apply keeps_modify; intros ?;
             first [ apply frame_connectDefer | apply frame_login_setDefer
                   | apply frame_paused
                   | apply frame_loginDetails | apply frame_once_auth_needed
                   | apply frame_once_login | apply frame_once_destroy
                   | apply frame_promises
                   | apply frame_version | apply frame_connectionState ]]
    | solve [apply frame_fetching_delete; unfold message_allowed in *;
             assumption] ].

Ltac frame_walk :=
  cbv zeta;
  repeat lazymatch goal with
    | |- keeps _ (bind _ _) => apply keeps_bind; [ | intros ? ]
    | |- keeps _ (try_catch _ _) => apply keeps_try_catch; [ | intros ? ]
    | |- keeps _ (when ?b _) => destruct b; unfold when
    | |- keeps _ (if ?b then _ else _) => destruct b
    | |- keeps _ (match ?x with _ => _ end) => destruct x
    | |- _ => frame_leaf
    end.

Section FrameMethods.

Context {imports : Imports} {allows : string -> Prop}
  {R : Client -> Client -> Prop} {F : Frame allows R}.

Lemma frame_connectDefer_resolve : keeps R connectDefer_resolve.
Proof.
  intros s. unfold connectDefer_resolve.
  destruct (TdlDeferred.resolve _ _) as [d calls]. cbn [snd].
  apply (frame_trans _ (set_connectDefer d s)); [apply frame_connectDefer |].
  exact (frame_settled calls (set_connectDefer d s)).
Qed.

Lemma frame_connectDefer_reject (err : Thrown) :
  keeps R (connectDefer_reject err).
Proof.
  intros s. unfold connectDefer_reject.
  destruct (TdlDeferred.reject _ _) as [d calls]. cbn [snd].
  apply (frame_trans _ (set_connectDefer d s)); [apply frame_connectDefer |].
  exact (frame_settled calls (set_connectDefer d s)).
Qed.

Lemma frame_loginDefer_resolve : keeps R loginDefer_resolve.
Proof.
  intros s. pose proof (frame_login_gate (Resolved JUndefined) s) as Hgate.
  unfold loginDefer_resolve, TdlDeferred.resolve. cbv zeta in Hgate.
  destruct (TdlDeferred._done (_loginDefer s)
            || negb (TdlDeferred.isDeferSet (_loginDefer s)));
    [exact Hgate |].
  destruct (TdlDeferred._innerDefer (_loginDefer s)); exact Hgate.
Qed.

Lemma frame_loginDefer_reject (err : Thrown) :
  keeps R (loginDefer_reject err).
Proof.
  intros s. pose proof (frame_login_gate (Rejected err) s) as Hgate.
  unfold loginDefer_reject, TdlDeferred.reject. cbv zeta in Hgate.
  destruct (TdlDeferred._done (_loginDefer s)
            || negb (TdlDeferred.isDeferSet (_loginDefer s)));
    [exact Hgate |].
  destruct (TdlDeferred._innerDefer (_loginDefer s)); exact Hgate.
Qed.

Hint Resolve frame_connectDefer_resolve frame_connectDefer_reject
  frame_loginDefer_resolve frame_loginDefer_reject : keeps.

Lemma frame_run_once_auth_needed (listeners : list (Res StrictLoginDetails)) :
  keeps R (run_once_auth_needed listeners).
Proof.
  induction listeners as [| l listeners IH]; cbn [run_once_auth_needed];
    frame_walk.
Qed.

Lemma frame_run_once_destroy (listeners : list nat) :
  keeps R (run_once_destroy listeners).
Proof.
  induction listeners as [| l listeners IH]; cbn [run_once_destroy];
    frame_walk.
Qed.

Hint Resolve frame_run_once_auth_needed frame_run_once_destroy : keeps.

Lemma frame_emit (event : Event) :
  event <> EvAuthNeeded -> keeps R (emit event).
Proof.
  intros Hev. unfold emit. apply keeps_bind.
  - apply keeps_log. now destruct event.
  - intros _. destruct event; frame_walk.
Qed.

Lemma frame_emit_error (e : Thrown) : keeps R (emit (EvError e)).
Proof. apply frame_emit. discriminate. Qed.

Lemma frame_emit_update (u : JValue) : keeps R (emit (EvUpdate u)).
Proof. apply frame_emit. discriminate. Qed.

Lemma frame_emit_response (r : JValue) : keeps R (emit (EvResponse r)).
Proof. apply frame_emit. discriminate. Qed.

Lemma frame_emit_destroy : keeps R (emit EvDestroy).
Proof. apply frame_emit. discriminate. Qed.

Lemma frame_emit_auth_not_needed : keeps R (emit EvAuthNotNeeded).
Proof. apply frame_emit. discriminate. Qed.

Hint Resolve frame_emit_error frame_emit_update frame_emit_response
  frame_emit_destroy frame_emit_auth_not_needed : keeps.

Lemma frame_authHasNeeded : keeps R _authHasNeeded.
Proof.
  intros s. unfold _authHasNeeded. rewrite bind_gets.
  destruct (_authNeeded s) eqn:Hneeded.
  - rewrite bind_gets. destruct (_loginDetails s); apply frame_refl.
  - rewrite bind_modify. unfold emit. unfold bind at 1. rewrite bind_log.
    cbn [trace set_authNeeded].
    apply (frame_trans _ _ _ (frame_auth_needed s Hneeded)).
    match goal with
    | |- context [let (_, _) := ?m ?st in _] =>
        assert (Hrest : keeps R m) by frame_walk;
        specialize (Hrest st);
        destruct (m st) as [[u | e] s1]
    end; cbn [snd] in *.
    + rewrite bind_gets. destruct (_loginDetails s1); exact Hrest.
    + exact Hrest.
Qed.

Lemma frame_catchError (err : Thrown) : keeps R (_catchError err).
Proof. unfold _catchError. frame_walk. Qed.

Lemma frame_rejectConnectAndLogin (err : Thrown) :
  keeps R (_rejectConnectAndLogin err).
Proof. unfold _rejectConnectAndLogin. frame_walk. Qed.

Lemma frame_send (request : JValue) : keeps R (_send request).
Proof.
  intros s. unfold _send. rewrite bind_gets.
  destruct (_client s) as [client |] eqn:Hclient.
  - now apply frame_send_call.
  - apply frame_refl.
Qed.

Lemma frame_sendTdl (request : list (string * JValue)) :
  keeps R (_sendTdl request).
Proof. unfold _sendTdl. apply frame_send. Qed.

Lemma frame_pause : keeps R pause.
Proof. unfold pause. frame_walk. Qed.

Lemma frame_resume : keeps R resume.
Proof. unfold resume. frame_walk. Qed.

Hint Resolve frame_authHasNeeded frame_catchError frame_rejectConnectAndLogin
  frame_send frame_sendTdl frame_pause frame_resume : keeps.

Lemma frame_destroy : keeps R destroy.
Proof.
  intros s. unfold destroy. rewrite bind_gets.
  destruct (_client s) as [client |] eqn:Hclient; [| apply frame_refl].
  rewrite bind_log, bind_modify. cbn [trace].
  apply (frame_trans _ _ _ (frame_destroy_call client s Hclient)).
  match goal with
  | |- R ?st (snd (?m ?st)) => assert (Hrest : keeps R m) by frame_walk
  end.
  apply Hrest.
Qed.

Lemma frame_new_promise : keeps R new_promise.
Proof. intros s. apply frame_promises. Qed.

Hint Resolve frame_destroy frame_new_promise : keeps.

Lemma frame_close : keeps R close.
Proof. unfold close. frame_walk. Qed.

Lemma frame_invoke (id : string) (request : JValue) :
  allows id -> keeps R (invoke id request).
Proof.
  intros Hid. unfold invoke. destruct request; try apply keeps_throw.
  cbv zeta. apply keeps_bind; [apply frame_new_promise | intros p].
  apply keeps_bind; [| intros _; frame_walk].
  apply keeps_modify. intros s. now apply frame_fetching_set.
Qed.

Lemma frame_call {A : Type} (c : Callback) (r : Res A) : keeps R (call c r).
Proof. unfold call. frame_walk. Qed.

Lemma frame_option_read (name : string) : keeps R (option_read name).
Proof. unfold option_read. frame_walk. Qed.

Lemma frame_fetching_get (id : JValue) : keeps R (fetching_get id).
Proof. unfold fetching_get. frame_walk. Qed.

Hint Resolve frame_close frame_call frame_option_read frame_fetching_get : keeps.

Lemma frame_handleAuth_login (authorizationState : JValue) :
  keeps R (_handleAuth_login authorizationState).
Proof. unfold _handleAuth_login. frame_walk. Qed.

Hint Resolve frame_handleAuth_login : keeps.

Lemma frame_handleAuth (update : JValue) : keeps R (_handleAuth update).
Proof. unfold _handleAuth. frame_walk. Qed.

Lemma frame_resume_handleAuth (waiting : list JValue) :
  keeps R (resume_handleAuth waiting).
Proof.
  induction waiting as [| st waiting IH]; cbn [resume_handleAuth]; frame_walk.
Qed.

Hint Resolve frame_handleAuth frame_resume_handleAuth : keeps.

Lemma frame_login (getLoginDetails : Res StrictLoginDetails) :
  keeps R (login getLoginDetails).
Proof. unfold login. frame_walk. Qed.

Lemma frame_emitErrWithoutExtra (error : JValue) :
  keeps R (_emitErrWithoutExtra error).
Proof. unfold _emitErrWithoutExtra. apply frame_catchError. Qed.

Hint Resolve frame_login frame_emitErrWithoutExtra : keeps.

Lemma frame_handleUserError (error : JValue) (loginDetails : LoginUser) :
  keeps R (_handleUserError error loginDetails).
Proof. unfold _handleUserError. frame_walk. Qed.

Lemma frame_handleBotError (error : JValue) (loginDetails : LoginBot) :
  keeps R (_handleBotError error loginDetails).
Proof. unfold _handleBotError. frame_walk. Qed.

Hint Resolve frame_handleUserError frame_handleBotError : keeps.

Lemma frame_handleError (error : JValue) :
  message_allowed allows error -> keeps R (_handleError error).
Proof. intros Hallowed. unfold _handleError. frame_walk. Qed.

Hint Resolve frame_handleError : keeps.

Lemma frame_handleUpdate (update : JValue) : keeps R (_handleUpdate update).
Proof. unfold _handleUpdate. frame_walk. Qed.

Hint Resolve frame_handleUpdate : keeps.

Lemma frame_handleResponse (res : JValue) :
  message_allowed allows res -> keeps R (_handleResponse res).
Proof. intros Hallowed. unfold _handleResponse. frame_walk. Qed.

Lemma frame_receive (received : Res JValue) : keeps R (_receive received).
Proof.
  intros s. unfold _receive, option_read. rewrite !bind_gets.
  destruct (_client s) as [client |] eqn:Hclient; [| apply frame_refl].
  rewrite bind_log.
  apply (frame_trans _ _ _
           (frame_receive_call client (get (_options s) "receiveTimeout") s Hclient)).
  match goal with
  | |- R ?st (snd (?m ?st)) => assert (Hrest : keeps R m) by frame_walk
  end.
  apply Hrest.
Qed.

Hint Resolve frame_handleResponse frame_receive : keeps.

(** What [_receive] returns is nothing, or the message received with its
    keys renamed. *)
Lemma receive_result (received : Res JValue) (s s1 : Client) (response : JValue) :
  _receive received s = (Ok response, s1) ->
  truthy response = true ->
  exists res,
    received = Ok res
    /\ (response = deepRenameKey "@type" "_" res
        \/ response = deepRenameKey_ "@type" "_" res).
Proof.
  unfold _receive, option_read. rewrite !bind_gets.
  destruct (_client s) as [client |].
  - rewrite bind_log. destruct received as [res | e]; [| discriminate].
    rewrite bind_lift_ok. destruct (truthy res) eqn:Hres.
    + rewrite bind_gets. unfold ret.
      intros [= <- _] _. exists res. split; [reflexivity |].
      destruct (truthy (get _ _)); auto.
    + unfold ret. intros [= <- _] Htruthy. congruence.
  - unfold ret. intros [= <- _]. discriminate.
Qed.

Lemma frame_loop_iteration (received : Res JValue) :
  (forall res,
      received = Ok res ->
      message_allowed allows (deepRenameKey "@type" "_" res)
      /\ message_allowed allows (deepRenameKey_ "@type" "_" res)) ->
  keeps R (_loop_iteration received).
Proof.
  intros Hallowed. unfold _loop_iteration.
  apply keeps_try_catch; [| intros e; frame_walk].
  apply keeps_bind; [apply keeps_gets | intros paused].
  destruct paused; [apply keeps_ret |].
  apply keeps_bind; [apply keeps_gets | intros client].
  destruct client as [client |]; [| apply keeps_ret].
  intros s. unfold bind at 1.
  pose proof (frame_receive received s) as Hreceive.
  destruct (_receive received s) as [[response | e] s1] eqn:Hrun;
    cbn [snd] in Hreceive; [| exact Hreceive].
  apply (frame_trans _ _ _ Hreceive).
  destruct (truthy response) eqn:Htruthy.
  - destruct (receive_result _ _ _ _ Hrun Htruthy) as (res & Hres & Hresponse).
    destruct (Hallowed res Hres) as [Hplain Hmutable].
    assert (Hresp : message_allowed allows response)
      by (destruct Hresponse; subst response; assumption).
    match goal with
    | |- R ?st (snd (?m ?st)) => assert (Hrest : keeps R m) by frame_walk
    end.
    apply Hrest.
  - rewrite bind_ret. apply frame_refl.
Qed.

Lemma keeps_fresh_bind {A C : Type} (m : M A) (k : A -> M C) :
  keeps_fresh R m -> (forall a, keeps_fresh R (k a)) -> keeps_fresh R (bind m k).
Proof.
  intros Hm Hk s Hs. unfold bind. destruct (Hm s Hs) as [HR Hi].
  destruct (m s) as [[a | e] s1]; cbn [snd] in *; [| now split].
  destruct (Hk a s1 Hi) as [HR1 Hi1]. split; [| exact Hi1].
  exact (frame_trans _ _ _ HR HR1).
Qed.

Ltac fresh_walk :=
  repeat lazymatch goal with
    | |- keeps_fresh _ (bind _ _) => apply keeps_fresh_bind; [ | intros ? ]
    | |- keeps_fresh _ (if ?b then _ else _) => destruct b
    | |- keeps_fresh _ _ =>
        let s := fresh "s" in
        let Hs := fresh "Hs" in
        intros s Hs; split;
        [ first [ apply frame_refl
                | apply frame_execute_call; exact Hs
                | apply frame_create_call; exact Hs
                | apply frame_client_created; exact Hs ]
        | exact Hs ]
    end.

Lemma frame_init (s : Client) : _initialized s = false -> R s (snd (_init s)).
Proof.
  intros Hinit. unfold _init.
  match goal with
  | |- R _ (snd (bind (try_catch ?blk _) _ _)) =>
      assert (Hblk : keeps_fresh R blk) by (unfold option_read; fresh_walk)
  end.
  unfold bind at 1. unfold try_catch at 1.
  destruct (Hblk s Hinit) as [HR Hi]. clear Hblk.
  match type of HR with
  | R _ (snd (?blk s)) => destruct (blk s) as [[created | e] s1]
  end; cbn [snd] in HR, Hi.
  - destruct created; [| exact HR].
    rewrite bind_modify.
    apply (frame_trans _ _ _ HR).
    apply (frame_trans _ _ _ (frame_initialized s1 Hi)).
    match goal with
    | |- R ?st (snd (?m ?st)) => assert (Hrest : keeps R m) by frame_walk
    end.
    apply Hrest.
  - unfold bind at 1.
    destruct (catchError_run (TdlError e (Some "Error while creating client")) s1)
      as (s2 & Hrun & _).
    pose proof (frame_catchError (TdlError e (Some "Error while creating client")) s1)
      as Hcatch.
    rewrite Hrun in *. cbn [snd] in *.
    exact (frame_trans _ _ _ HR Hcatch).
Qed.

Lemma keeps_gets_bind {A C : Type} (f : Client -> A) (k : A -> M C) :
  (forall s, R s (snd (k (f s) s))) -> keeps R (bind (gets f) k).
Proof. intros Hk s. rewrite bind_gets. apply Hk. Qed.

Lemma frame_connect : keeps R connect.
Proof.
  unfold connect. apply keeps_bind; [apply frame_new_promise | intros p].
  apply keeps_bind; [| intros ?; apply keeps_ret].
  apply keeps_try_catch; [| intros ?; frame_walk].
  apply keeps_gets_bind. intros s.
  destruct (_initialized s) eqn:Hinit.
  - match goal with
    | |- R ?st (snd (?m ?st)) => assert (Hrest : keeps R m) by frame_walk
    end.
    apply Hrest.
  - rewrite bind_modify.
    eapply frame_trans; [apply frame_connectDefer |].
    apply frame_init. exact Hinit.
Qed.

Lemma frame_route (res : JValue) :
  message_allowed allows res -> keeps R (route res).
Proof. intros Hallowed. unfold route. frame_walk. Qed.

Lemma frame_execute (request : JValue) : keeps R (execute request).
Proof.
  intros s. unfold execute. rewrite bind_gets.
  destruct (_client s) as [client |] eqn:Hclient; [| apply frame_refl].
  cbv zeta. rewrite bind_log.
  apply (frame_trans _ _ _
           (frame_execute_live client (deepRenameKey "_" "@type" request) s Hclient)).
  match goal with
  | |- R ?st (snd (?m ?st)) => assert (Hrest : keeps R m) by frame_walk
  end.
  apply Hrest.
Qed.

Lemma frame_step (step : Step) (s : Client) :
  step_allowed allows step -> R s (step_run step s).
Proof.
  intros Hallowed. destruct step; cbn [step_run step_allowed] in *.
  - apply frame_loop_iteration. intros res ->. exact Hallowed.
  - now apply frame_route.
  - apply frame_connect.
  - apply frame_login.
  - now apply frame_invoke.
  - apply frame_execute.
  - apply frame_close.
  - apply frame_destroy.
  - apply frame_pause.
  - apply frame_resume.
Qed.

Lemma frame_session (steps : list Step) (s : Client) :
  Forall (step_allowed allows) steps -> R s (session_run steps s).
Proof.
  intros Hallowed. revert s.
  induction Hallowed as [| step steps Hstep _ IH]; intros s; cbn [session_run].
  - apply frame_refl.
  - exact (frame_trans _ _ _ (frame_step step s Hstep) (IH (step_run step s))).
Qed.

End FrameMethods.

(** Every step is allowed where every id is. *)
Lemma every_step_allowed {imports : Imports} (steps : list Step) :
  Forall (step_allowed (fun _ => True)) steps.
Proof.
  apply Forall_forall. intros step _.
  destruct step as [[res | e] | | | | | | | | |]; cbn; unfold message_allowed; auto.
Qed.

Lemma auth_needed_count_app (t u : list Effect) :
  auth_needed_count (t ++ u) = auth_needed_count t + auth_needed_count u.
Proof.
  induction t as [| e t IH]; [reflexivity |].
  destruct e as [| | | | | ev | | |]; cbn; try exact IH.
  destruct ev; cbn; now rewrite ?IH.
Qed.

Lemma engine_calls_app (t u : list Effect) :
  engine_calls (t ++ u) = engine_calls t ++ engine_calls u.
Proof. unfold engine_calls. apply List.filter_app. Qed.

Lemma plain_effect_count (e : Effect) :
  plain_effect e = true -> auth_needed_count [e] = 0.
Proof. destruct e as [| | | | | ev | | |]; try reflexivity. now destruct ev. Qed.

Lemma plain_effect_engine (e : Effect) :
  plain_effect e = true -> engine_calls [e] = [].
Proof. destruct e as [| | | | | ev | | |]; try discriminate; try reflexivity. Qed.

#[local] Instance budget_kept_frame : Frame (fun _ => True) budget_kept.
Proof.
  split; unfold budget_kept, auth_needed_budget; intros; cbn;
    rewrite ?auth_needed_count_app; cbn; try lia.
  - destruct e as [| | | | | ev | | |]; try lia. destruct ev; try lia.
    discriminate.
  - match goal with H : _authNeeded _ = false |- _ => rewrite H end. lia.
Qed.

#[local] Instance stays_inert_frame : Frame (fun _ => True) stays_inert.
Proof.
  split; unfold stays_inert.
  1: now auto.
  1: { intros s1 s2 s3 H12 H23 Hi1.
       destruct (H12 Hi1) as [Hi2 Hc2]. destruct (H23 Hi2) as [Hi3 Hc3].
       split; [exact Hi3 |]. intros Hnone.
       destruct (Hc2 Hnone) as [Hn2 He2]. destruct (Hc3 Hn2) as [Hn3 He3].
       split; [exact Hn3 | congruence]. }
  1: { intros e s He Hi. cbn. rewrite engine_calls_app.
       rewrite (plain_effect_engine e He), app_nil_r. auto. }
  all: intros; cbn in *; rewrite ?engine_calls_app; cbn; rewrite ?app_nil_r;
    solve [auto | split; [assumption | intros; congruence] | congruence].
Qed.

#[local] Instance configuration_kept_frame :
  Frame (fun _ => True) configuration_kept.
Proof.
  split; unfold configuration_kept; intros; cbn; auto.
  intuition congruence.
Qed.

#[local] Instance entry_kept_frame (id : string) :
  Frame (fun k => k <> id) (entry_kept id).
Proof.
  split; unfold entry_kept; intros; cbn; try congruence.
  - now apply lookup_insert_ne.
  - now apply lookup_delete_ne.
Qed.

Lemma login_settlements_app (t u : list Effect) :
  login_settlements (t ++ u) = login_settlements t ++ login_settlements u.
Proof.
  induction t as [| e t IH]; [reflexivity |].
  destruct e as [| | | | | | p o | |]; cbn; try exact IH.
  destruct p; cbn; now rewrite ?IH.
Qed.

Lemma plain_effect_login (e : Effect) :
  plain_effect e = true -> login_settlements [e] = [].
Proof.
  destruct e as [| | | | | ev | p o | |]; try reflexivity.
  destruct p; try reflexivity. discriminate.
Qed.

#[local] Instance login_kept_frame : Frame (fun _ => True) login_kept.
Proof.
  split; unfold login_kept, login_outstanding.
  1: { intros s. exists []. now rewrite app_nil_r. }
  1: { intros s1 s2 s3 (m1 & H1 & L1) (m2 & H2 & L2). exists (m1 ++ m2).
       rewrite H2, H1, <- app_assoc, length_app. split; [reflexivity | lia]. }
  1: { intros e s He. exists []. cbn.
       rewrite login_settlements_app, (plain_effect_login e He). auto. }
  all: try (intros; exists []; cbn; rewrite ?login_settlements_app; cbn;
            rewrite ?app_nil_r; split; reflexivity).
  intros p o s Hgate. exists [(p, o)]. cbn.
  rewrite login_settlements_app, Hgate. cbn. auto.
Qed.

Section SequenceFacts.

Context {imports : Imports}.

(** X18.  Over any sequence of steps (calls of [connect], [login],
    [invoke], [execute], [close], [destroy], [pause] and [resume], and
    iterations of the receive loop), whatever the engine delivers and the
    login callbacks answer, the client publishes [auth-needed] at most
    once more, and not at all once [_authNeeded] is set: the number of
    publications plus the one still outstanding stays what it was. *)
Theorem auth_needed_published_once :
  forall (steps : list Step) (s : Client),
    let s1 := session_run steps s in
    auth_needed_budget s1 = auth_needed_budget s
    /\ auth_needed_count (trace s1)
       <= auth_needed_count (trace s) + (if _authNeeded s then 0 else 1).
Proof.
  intros steps s s1.
  pose proof (frame_session (R := budget_kept) steps s
                (every_step_allowed steps)) as Hkept.
  unfold budget_kept, auth_needed_budget in *. fold s1 in Hkept.
  split; [exact Hkept |]. lia.
Qed.

(** X19.  Once an instance is initialized it stays so whatever is called
    on it afterwards, also [destroy]; so every later [connect] is
    answered with a promise that is rejected at once, and creates no
    engine client. *)
Theorem connect_rejected_ever_after :
  forall (steps : list Step) (s : Client),
    _initialized s = true ->
    let s1 := session_run steps s in
    _initialized s1 = true
    /\ connect s1
       = (Ok (ConnectPromise (promises s1)),
          set_trace
            (trace s1
             ++ [Settle (ConnectPromise (promises s1))
                   (Rejected
                      (match _client s1 with
                       | Some _ => JsError "The client is already initialized"
                       | None => JsError "Cannot re-initialize a destroyed client"
                       end))])
            (set_promises (S (promises s1)) s1)).
Proof.
  intros steps s Hinit s1.
  destruct (frame_session (R := stays_inert) steps s
              (every_step_allowed steps) Hinit) as [Hinit1 _].
  fold s1 in Hinit1. split; [exact Hinit1 |].
  unfold connect, new_promise, try_catch, bind, gets, log, modify, ret.
  cbn [_initialized set_promises]. rewrite Hinit1.
  cbn [_client trace set_promises fst snd].
  destruct (_client s1); reflexivity.
Qed.

(** X20.  An initialized instance without an engine client (a destroyed
    one) never gets a client again and never calls the engine again,
    whatever is called on it (also [execute] and [connect]) and whatever
    message still reaches its loop. *)
Theorem destroyed_session_inert :
  forall (steps : list Step) (s : Client),
    _initialized s = true ->
    _client s = None ->
    let s1 := session_run steps s in
    _client s1 = None
    /\ engine_calls (trace s1) = engine_calls (trace s).
Proof.
  intros steps s Hinit Hclient s1.
  destruct (frame_session (R := stays_inert) steps s
              (every_step_allowed steps) Hinit) as [_ Hinert].
  exact (Hinert Hclient).
Qed.

(** X21.  No step changes the options the constructor merged or the
    engine binding it stored. *)
Theorem configuration_never_changes :
  forall (steps : list Step) (s : Client),
    _options (session_run steps s) = _options s
    /\ _tdlib (session_run steps s) = _tdlib s.
Proof.
  intros steps s.
  exact (frame_session (R := configuration_kept) steps s
           (every_step_allowed steps)).
Qed.

(** X22.  A pending request stays registered, under its promise, over
    any steps that neither register a request under its id nor route a
    message that carries it: over [destroy], [close], [pause], [connect],
    [login] and [execute], over the answers and errors of other requests,
    over updates and over the whole authentication flow.  When the
    message that carries its id is routed at last, that promise is the
    one settled, and the entry is removed. *)
Theorem pending_until_answered :
  forall (steps : list Step) (s : Client) (id : string) (p : nat) (res : JValue),
    Forall (step_allowed (fun k => k <> id)) steps ->
    _fetching s !! id = Some p ->
    get res "@extra" = JStr id ->
    let s1 := session_run steps s in
    let s2 := snd (_handleResponse res s1) in
    _fetching s1 !! id = Some p
    /\ invoke_settlements (trace s2)
       = invoke_settlements (trace s1) ++ [(p, correlated_outcome res)]
    /\ _fetching s2 !! id = None.
Proof.
  intros steps s id p res Hsteps Hpending Hid s1 s2.
  pose proof (frame_session (R := entry_kept id) steps s Hsteps) as Hkept.
  unfold entry_kept in Hkept. fold s1 in Hkept. rewrite Hpending in Hkept.
  split; [exact Hkept |].
  subst s2. rewrite (handleResponse_matched res id p s1 Hid Hkept).
  cbn [snd trace _fetching set_fetching set_trace].
  split; [| apply lookup_delete_eq].
  rewrite invoke_settlements_app. cbn. reflexivity.
Qed.

Lemma resume_handleAuth_returns (waiting : list JValue) (s : Client) :
  exists s1, resume_handleAuth waiting s = (Ok tt, s1).
Proof.
  revert s. induction waiting as [| st waiting IH]; intros s;
    cbn [resume_handleAuth]; [now exists s |].
  unfold bind at 1. unfold try_catch.
  destruct (_handleAuth_login st s) as [[[] | e] s1]; [apply IH |].
  destruct (catchError_run (TdlError e None) s1) as (s2 & -> & _). apply IH.
Qed.

(** X23.  Over any sequence of steps the login gate hands at most one
    outcome to a [login] promise, and none once it is done: the [login]
    promises settled since are at most one, and exactly as many as the
    gate has fired since. *)
Theorem login_settled_once :
  forall (steps : list Step) (s : Client),
    let s1 := session_run steps s in
    exists more,
      login_settlements (trace s1) = login_settlements (trace s) ++ more
      /\ length more + login_outstanding s1 = login_outstanding s
      /\ length more <= 1.
Proof.
  intros steps s s1.
  destruct (frame_session (R := login_kept) steps s (every_step_allowed steps))
    as (more & Hmore & Hlength).
  exists more. fold s1 in Hmore, Hlength.
  repeat split; [exact Hmore | exact Hlength |].
  unfold login_outstanding in Hlength.
  destruct (TdlDeferred.isDone (_loginDefer s)); lia.
Qed.

(** X24.  [login] called once the login gate is done (after a login that
    succeeded or failed) returns a new promise that is never settled:
    whatever steps follow, no [login] promise is resolved or rejected any
    more. *)
Theorem late_login_never_settled :
  forall (getLoginDetails : Res StrictLoginDetails) (steps : list Step)
         (s : Client),
    TdlDeferred.isDone (_loginDefer s) = true ->
    let s1 := snd (login getLoginDetails s) in
    fst (login getLoginDetails s) = Ok (LoginPromise (promises s))
    /\ login_settlements (trace (session_run steps s1))
       = login_settlements (trace s).
Proof.
  intros getLoginDetails steps s Hdone s1. split.
  - rewrite login_run. unfold bind.
    destruct (resume_handleAuth_returns (once_login s)
                (logged_in getLoginDetails s)) as (s2 & ->).
    reflexivity.
  - pose proof (frame_login (R := login_kept) getLoginDetails s) as Hlogin.
    pose proof (frame_session (R := login_kept) steps s1
                  (every_step_allowed steps)) as Hsteps.
    fold s1 in Hlogin.
    destruct (frame_trans _ _ _ Hlogin Hsteps) as (more & Hmore & Hlength).
    unfold login_outstanding in Hlength. rewrite Hdone in Hlength.
    destruct more; [| cbn in Hlength; lia].
    now rewrite app_nil_r in Hmore.
Qed.

End SequenceFacts.

(** ** Teardown with a request outstanding *)

Section OutstandingFacts.

Context {imports : Imports}.

(** C9.  [destroy] called while a request is pending under [id] returns
    normally (the engine's [destroy] and the client's own listeners do
    not throw), and does not touch the request: the entry stays in the
    map and no resolving function of an [invoke] promise is called.  On
    a session that holds an engine client it releases the client and
    publishes [destroy]; on a session without one it does nothing.  A
    second [destroy] does nothing, and an iteration of the receive loop
    started afterwards asks the engine for nothing and routes nothing.
    The request is not left pending whatever happens: its entry stays
    through any later steps that neither invoke under [id] nor route a
    message that carries it, and a message that carries [id] and is
    still routed (one whose [receive] was awaited when [destroy] ran)
    settles the promise and removes the entry. *)
Theorem destroy_abandons_pending :
  forall (steps : list Step) (s : Client) (id : string) (p : nat)
         (res : JValue),
    _fetching s !! id = Some p ->
    Forall (step_allowed (fun k => k <> id)) steps ->
    get res "@extra" = JStr id ->
    let s1 := snd (destroy s) in
    let s2 := session_run steps s1 in
    let s3 := snd (route res s2) in
    destroy s = (Ok tt, s1)
    /\ trace s1
       = trace s
         ++ match _client s with
            | None => []
            | Some client =>
                [TdlibDestroy client]
                ++ (if _paused s then [Emit EvResume] else [])
                ++ [Emit EvDestroy]
                ++ map (fun q => Settle (ClosePromise q) (Resolved JUndefined))
                     (once_destroy s)
            end
    /\ _fetching s1 = _fetching s
    /\ invoke_settlements (trace s1) = invoke_settlements (trace s)
    /\ destroy s1 = (Ok tt, s1)
    /\ (forall received,
           _loop_iteration received s1
           = (Ok (match _client s with
                  | Some _ => LoopEnd
                  | None => if _paused s then LoopAwaitResume else LoopEnd
                  end), s1))
    /\ _fetching s2 !! id = Some p
    /\ invoke_settlements (trace s3)
       = invoke_settlements (trace s2) ++ [(p, correlated_outcome res)]
    /\ _fetching s3 !! id = None.
Proof.
  intros steps s id p res Hpending Hsteps Hid s1 s2 s3.
  assert (Hfetch : _fetching s1 = _fetching s)
    by apply (quiet_fetching _ quiet_destroy).
  assert (Hsettle : invoke_settlements (trace s1) = invoke_settlements (trace s))
    by apply (quiet_settlements _ quiet_destroy).
  assert (Hkept : _fetching s2 !! id = Some p).
  { pose proof (frame_session (R := entry_kept id) steps s1 Hsteps) as Hsame.
    unfold entry_kept in Hsame. fold s2 in Hsame.
    now rewrite Hsame, Hfetch. }
  assert (Hrouted : s3
                    = set_fetching (delete id (_fetching s2))
                        (set_trace
                           (trace s2
                            ++ [Emit (EvResponse res);
                                Settle (InvokePromise p) (correlated_outcome res)])
                           s2)).
  { subst s3. unfold route, try_catch.
    now rewrite (handleResponse_matched res id p s2 Hid Hkept). }
  assert (Hrun : destroy s = (Ok tt, s1)
                 /\ _client s1 = None
                 /\ _paused s1 = (match _client s with
                                  | Some _ => false
                                  | None => _paused s
                                  end)
                 /\ trace s1
                    = trace s
                      ++ match _client s with
                         | None => []
                         | Some client =>
                             [TdlibDestroy client]
                             ++ (if _paused s then [Emit EvResume] else [])
                             ++ [Emit EvDestroy]
                             ++ map (fun q => Settle (ClosePromise q)
                                                (Resolved JUndefined))
                                  (once_destroy s)
                         end).
  { subst s1. destruct (_client s) as [client |] eqn:Hclient.
    - destruct (destroy_run s client Hclient)
        as (st & -> & Htrace & Hnone & Hpaused & _).
      cbn [snd]. auto.
    - unfold destroy. rewrite bind_gets, Hclient. cbn [snd ret].
      now rewrite app_nil_r. }
  destruct Hrun as (Hdestroy & Hnone & Hpaused & Htrace).
  repeat split; try assumption.
  - unfold destroy. now rewrite bind_gets, Hnone.
  - intros received. unfold _loop_iteration, try_catch.
    rewrite bind_gets, Hpaused.
    destruct (_client s); [now rewrite bind_gets, Hnone |].
    destruct (_paused s); [reflexivity |].
    now rewrite bind_gets, Hnone.
  - rewrite Hrouted. cbn [trace set_fetching set_trace].
    rewrite invoke_settlements_app. reflexivity.
  - rewrite Hrouted. cbn [_fetching set_fetching]. apply lookup_delete_eq.
Qed.

End OutstandingFacts.

(** ** The further properties at sample sessions *)

Section Samples.

Existing Instance sample_imports.

Lemma invoke_answer_round_trip_witness :
  let s := live_session sample_options in
  let s1 := snd (invoke "5a1c" (JObj get_me) s) in
  let s2 := snd (_handleResponse me_response s1) in
  fst (invoke "5a1c" (JObj get_me) s) = Ok (InvokePromise (promises s))
  /\ invoke_settlements (trace s2)
     = invoke_settlements (trace s) ++ [(promises s, correlated_outcome me_response)]
  /\ _fetching s2 = _fetching s.
Proof.
  apply (invoke_answer_round_trip (live_session sample_options) "5a1c" get_me
           me_response).
  - vm_compute. reflexivity.
  - reflexivity.
Defined.

Lemma invoke_without_client_witness :
  let s := destroyed_session in
  let s1 := snd (invoke "5a1c" (JObj get_me) s) in
  invoke "5a1c" (JObj get_me) s
  = (Ok (InvokePromise (promises s)),
     set_fetching (<["5a1c" := promises s]> (_fetching s))
       (set_promises (S (promises s)) s))
  /\ trace s1 = trace s
  /\ _fetching s1 !! "5a1c" = Some (promises s)
  /\ (forall received, snd (_loop_iteration received s1) = s1).
Proof.
  apply (invoke_without_client destroyed_session "5a1c" get_me).
  reflexivity.
Defined.

Lemma uncorrelated_error_published_witness :
  _handleError not_found_error pending_session
  = (Ok tt,
     set_trace
       (trace pending_session ++ [Emit (EvError (ThrownValue not_found_error))])
       pending_session).
Proof.
  apply (uncorrelated_error_published pending_session not_found_error).
  cbn. split.
  - vm_compute. reflexivity.
  - apply String.eqb_neq. reflexivity.
Defined.

Lemma own_reply_not_published_witness :
  _handleResponse own_reply pending_session
  = (Ok tt,
     set_trace (trace pending_session ++ [Emit (EvResponse own_reply)])
       pending_session).
Proof.
  apply (own_reply_not_published pending_session own_reply).
  - reflexivity.
  - reflexivity.
  - vm_compute. reflexivity.
Defined.

Lemma error_dropped_without_resolver_witness :
  _catchError (JsError "receive failed") connected_session
  = (Ok tt, connected_session).
Proof.
  apply (error_dropped_without_resolver connected_session
           (JsError "receive failed")).
  - right. reflexivity.
  - intros Hpending. vm_compute in Hpending. discriminate Hpending.
  - intros _. reflexivity.
Defined.

Lemma connect_engine_failure_witness :
  let s := new_session broken_tdlib in
  let err := TdlError (JsError "td_json_client_create failed")
               (Some "Error while creating client") in
  exists s1,
    connect s = (Ok (ConnectPromise (promises s)), s1)
    /\ trace s1
       = trace s
         ++ verbosity_call s
         ++ [TdlibCreate; Settle (ConnectPromise (promises s)) (Rejected err)]
         ++ settled LoginPromise (snd (TdlDeferred.reject err (_loginDefer s)))
    /\ _initialized s1 = false
    /\ _client s1 = _client s.
Proof.
  apply (connect_engine_failure (new_session broken_tdlib)
           (JsError "td_json_client_create failed")).
  - reflexivity.
  - reflexivity.
  - reflexivity.
  - intros request. exists JNull. reflexivity.
Defined.

Lemma connect_engine_created_witness :
  let s := new_session working_tdlib in
  exists s1,
    connect s = (Ok (ConnectPromise (promises s)), s1)
    /\ trace s1
       = trace s
         ++ verbosity_call s
         ++ [TdlibCreate]
         ++ (if truthy (get (_options s) "disableAuth")
             then [Settle (ConnectPromise (promises s)) (Resolved JUndefined)]
             else [])
         ++ [LoopStarted]
    /\ _initialized s1 = true
    /\ _client s1 = Some 7
    /\ TdlDeferred.isDone (_connectDefer s1)
       = truthy (get (_options s) "disableAuth").
Proof.
  apply (connect_engine_created (new_session working_tdlib) 7).
  - reflexivity.
  - reflexivity.
  - reflexivity.
  - intros request. exists JNull. reflexivity.
Defined.

Lemma closed_state_ends_session_witness :
  let s := live_session sample_options in
  let err := JsError "Received authorizationStateClosed" in
  exists s1,
    _handleAuth (authorization_state_update "authorizationStateClosed") s
    = (Ok tt, s1)
    /\ trace s1
       = trace s
         ++ settled ConnectPromise (snd (TdlDeferred.reject err (_connectDefer s)))
         ++ settled LoginPromise (snd (TdlDeferred.reject err (_loginDefer s)))
         ++ [TdlibDestroy 7]
         ++ (if _paused s then [Emit EvResume] else [])
         ++ [Emit EvDestroy]
         ++ map (fun q => Settle (ClosePromise q) (Resolved JUndefined))
              (once_destroy s)
    /\ _client s1 = None
    /\ _connectDefer s1 = fst (TdlDeferred.reject err (_connectDefer s))
    /\ _loginDefer s1 = fst (TdlDeferred.reject err (_loginDefer s)).
Proof.
  apply (closed_state_ends_session (live_session sample_options)
           (authorization_state_update "authorizationStateClosed") 7).
  - reflexivity.
  - reflexivity.
Defined.

Lemma encryption_key_state_connects_witness :
  let s := live_session sample_options in
  exists s1,
    _handleAuth (authorization_state_update "authorizationStateWaitEncryptionKey") s
    = (Ok tt, s1)
    /\ trace s1
       = trace s
         ++ [TdlibSend 7
               (deepRenameKey "_" "@type"
                  (JObj [("_", JStr "checkDatabaseEncryptionKey");
                         ("encryption_key",
                          get (_options s) "databaseEncryptionKey");
                         ("@extra", JStr TDL_MAGIC)]))]
         ++ settled ConnectPromise
              (snd (TdlDeferred.resolve JUndefined (_connectDefer s)))
    /\ _connectDefer s1 = fst (TdlDeferred.resolve JUndefined (_connectDefer s)).
Proof.
  apply (encryption_key_state_connects (live_session sample_options)
           (authorization_state_update "authorizationStateWaitEncryptionKey") 7).
  - reflexivity.
  - reflexivity.
Defined.

Lemma loop_iteration_without_message_witness :
  let s := live_session sample_options in
  let asked := TdlibReceive 7 (get (_options s) "receiveTimeout") in
  (forall nothing,
      truthy nothing = false ->
      _loop_iteration (Ok nothing) s
      = (Ok LoopContinue, set_trace (trace s ++ [asked]) s))
  /\ (forall e,
         _loop_iteration (Throw e) s
         = (Ok LoopContinue,
            snd (_catchError (TdlError e None)
                   (set_trace (trace s ++ [asked]) s)))).
Proof.
  apply (loop_iteration_without_message (live_session sample_options) 7).
  - reflexivity.
  - reflexivity.
Defined.

Lemma login_order_irrelevant_witness :
  let update := authorization_state_update "authorizationStateWaitPhoneNumber" in
  let getLoginDetails := Ok (TypeUser sample_user) in
  snd (login getLoginDetails (snd (_handleAuth update connected_session)))
  = snd (try_catch (_handleAuth update)
           (fun e => _catchError (TdlError e None))
           (snd (login getLoginDetails connected_session))).
Proof.
  apply (login_order_irrelevant connected_session
           (authorization_state_update "authorizationStateWaitPhoneNumber")
           (Ok (TypeUser sample_user))).
  - reflexivity.
  - reflexivity.
  - reflexivity.
Defined.

Lemma ready_state_resolves_login_witness :
  let s := login_session in
  exists s1,
    _handleAuth (authorization_state_update "authorizationStateReady") s
    = (Ok tt, s1)
    /\ trace s1
       = trace s
         ++ (if _authNeeded s then [] else [Emit EvAuthNotNeeded])
         ++ settled LoginPromise
              (snd (TdlDeferred.resolve JUndefined (_loginDefer s)))
    /\ _loginDefer s1 = fst (TdlDeferred.resolve JUndefined (_loginDefer s)).
Proof.
  apply (ready_state_resolves_login login_session
           (authorization_state_update "authorizationStateReady")).
  - reflexivity.
  - reflexivity.
Defined.

Lemma bot_login_states_witness :
  let s := bot_session in
  let authorizationState := JObj [("_", JStr "authorizationStateWaitPhoneNumber")] in
  (user_only_state authorizationState = true ->
   _handleAuth_login authorizationState s = (Ok tt, s))
  /\ (str_eq (get authorizationState "_") "authorizationStateWaitPhoneNumber" = true ->
      _handleAuth_login authorizationState s
      = (Ok tt,
         set_trace
           (trace s
            ++ [Called (CallGetToken false);
                TdlibSend 7
                  (deepRenameKey "_" "@type"
                     (JObj [("_", JStr "checkAuthenticationBotToken");
                            ("token", JStr "token-a");
                            ("@extra", JStr TDL_MAGIC)]))])
           s)).
Proof.
  apply (bot_login_states bot_session
           (JObj [("_", JStr "authorizationStateWaitPhoneNumber")])
           sample_bot 7 (JStr "token-a")).
  - reflexivity.
  - reflexivity.
  - reflexivity.
  - reflexivity.
Defined.

Lemma connect_rejected_ever_after_witness :
  let s1 := session_run [StepDestroy; StepLoop (Ok new_message); StepPause]
              (live_session sample_options) in
  _initialized s1 = true
  /\ connect s1
     = (Ok (ConnectPromise (promises s1)),
        set_trace
          (trace s1
           ++ [Settle (ConnectPromise (promises s1))
                 (Rejected
                    (match _client s1 with
                     | Some _ => JsError "The client is already initialized"
                     | None => JsError "Cannot re-initialize a destroyed client"
                     end))])
          (set_promises (S (promises s1)) s1)).
Proof.
  apply (connect_rejected_ever_after
           [StepDestroy; StepLoop (Ok new_message); StepPause]
           (live_session sample_options)).
  reflexivity.
Defined.

Lemma destroyed_session_inert_witness :
  let s1 := session_run
              [StepConnect; StepInvoke "5a1c" (JObj get_me);
               StepExecute (JObj get_me); StepLoop (Ok me_response);
               StepRoute me_response; StepLogin (Ok (TypeUser sample_user));
               StepResume; StepClose; StepDestroy]
              destroyed_session in
  _client s1 = None
  /\ engine_calls (trace s1) = engine_calls (trace destroyed_session).
Proof.
  apply (destroyed_session_inert
           [StepConnect; StepInvoke "5a1c" (JObj get_me);
            StepExecute (JObj get_me); StepLoop (Ok me_response);
            StepRoute me_response; StepLogin (Ok (TypeUser sample_user));
            StepResume; StepClose; StepDestroy]
           destroyed_session).
  - reflexivity.
  - reflexivity.
Defined.

Lemma pending_until_answered_witness :
  let s1 := session_run
              [StepLoop (Ok new_message); StepInvoke "9b2d" (JObj get_me);
               StepRoute not_found_error; StepPause; StepDestroy]
              pending_session in
  let s2 := snd (_handleResponse me_response s1) in
  _fetching s1 !! "5a1c" = Some 2
  /\ invoke_settlements (trace s2)
     = invoke_settlements (trace s1) ++ [(2, correlated_outcome me_response)]
  /\ _fetching s2 !! "5a1c" = None.
Proof.
  apply (pending_until_answered
           [StepLoop (Ok new_message); StepInvoke "9b2d" (JObj get_me);
            StepRoute not_found_error; StepPause; StepDestroy]
           pending_session "5a1c" 2 me_response).
  - repeat constructor; cbn; unfold message_allowed;
      try (intros k Hk; vm_compute in Hk; try discriminate Hk;
           injection Hk as <-);
      apply String.eqb_neq; reflexivity.
  - vm_compute. reflexivity.
  - reflexivity.
Defined.

Lemma late_login_never_settled_witness :
  let s1 := snd (login (Ok (TypeUser sample_user)) ready_session) in
  fst (login (Ok (TypeUser sample_user)) ready_session)
  = Ok (LoginPromise (promises ready_session))
  /\ login_settlements
       (trace (session_run
                 [StepRoute (authorization_state_update "authorizationStateReady");
                  StepLoop (Throw (JsError "receive failed")); StepDestroy]
                 s1))
     = login_settlements (trace ready_session).
Proof.
  apply (late_login_never_settled (Ok (TypeUser sample_user))
           [StepRoute (authorization_state_update "authorizationStateReady");
            StepLoop (Throw (JsError "receive failed")); StepDestroy]
           ready_session).
  reflexivity.
Defined.

Lemma destroy_abandons_pending_witness :
  let s := pending_session in
  let s1 := snd (destroy s) in
  let s2 := session_run
              [StepLoop (Ok new_message); StepInvoke "9b2d" (JObj get_me);
               StepDestroy; StepConnect]
              s1 in
  let s3 := snd (route me_response s2) in
  destroy s = (Ok tt, s1)
  /\ trace s1
     = trace s
       ++ match _client s with
          | None => []
          | Some client =>
              [TdlibDestroy client]
              ++ (if _paused s then [Emit EvResume] else [])
              ++ [Emit EvDestroy]
              ++ map (fun q => Settle (ClosePromise q) (Resolved JUndefined))
                   (once_destroy s)
          end
  /\ _fetching s1 = _fetching s
  /\ invoke_settlements (trace s1) = invoke_settlements (trace s)
  /\ destroy s1 = (Ok tt, s1)
  /\ (forall received,
         _loop_iteration received s1
         = (Ok (match _client s with
                | Some _ => LoopEnd
                | None => if _paused s then LoopAwaitResume else LoopEnd
                end), s1))
  /\ _fetching s2 !! "5a1c" = Some 2
  /\ invoke_settlements (trace s3)
     = invoke_settlements (trace s2) ++ [(2, correlated_outcome me_response)]
  /\ _fetching s3 !! "5a1c" = None.
Proof.
  apply (destroy_abandons_pending
           [StepLoop (Ok new_message); StepInvoke "9b2d" (JObj get_me);
            StepDestroy; StepConnect]
           pending_session "5a1c" 2 me_response).
  - vm_compute. reflexivity.
  - repeat constructor; cbn; unfold message_allowed;
      try (intros k Hk; vm_compute in Hk; try discriminate Hk;
           injection Hk as <-);
      apply String.eqb_neq; reflexivity.
  - reflexivity.
Defined.

(** C9, the case the claim leaves out.  [destroy] runs while the receive
    loop awaits a [receive]; the answer to the outstanding request is
    what that [receive] then yields, and the loop routes it: the promise
    of the request is resolved after the session was destroyed. *)
Lemma destroy_then_answer_settles :
  let s1 := snd (destroy pending_session) in
  let s2 := snd (route me_response s1) in
  _fetching pending_session !! "5a1c" = Some 2
  /\ _client s1 = None
  /\ invoke_settlements (trace s1) = []
  /\ invoke_settlements (trace s2)
     = [(2, Resolved (JObj [("_", JStr "user"); ("id", JNum 1)]))]
  /\ _fetching s2 !! "5a1c" = None.
Proof. repeat split; vm_compute; reflexivity. Qed.

End Samples.
